(** * burrow_exporter: the Burrow API client (client.go)

    A shallow embedding of [burrow_exporter/client.go] and of the parts of
    the Go standard library its behaviour depends on:

    - [strings], [path]: the lexical helpers behind [path.Join];
    - [url]: [url.Parse] and [URL.String] of net/url (Go 1.22);
    - [utf8], [json]: the scanner, [unquote] and the reflection-driven
      [Unmarshal] of encoding/json, specialised to the kinds of fields the
      response structs have (bool, string, int, int32, int64, slices and
      nested structs);
    - the HTTP transport as an explicit world: the remote side is a
      function from the requested URL to either a transport failure or a
      response, and the world records every observable effect of a call
      (requests issued, bodies decoded and closed, lines logged).

    Go strings are byte strings; they are [string] here, one [ascii] per
    byte.  A Go [(T, error)] result is a pair of options, [None] for nil. *)

From Stdlib Require Import String Ascii List ZArith NArith Lia Bool.
From Stdlib Require DecimalString DecimalPos DecimalFacts.
From ExtLib Require Import Structures.Monad Structures.MonadState.
From ExtLib Require Import Data.Monads.StateMonad.
Import ListNotations.
Import MonadNotation.

Local Open Scope string_scope.
Local Open Scope monad_scope.

Set Warnings "-register-all,-abstract-large-number".

(** ** Bytes *)

Definition byte := ascii.

Bind Scope char_scope with byte.

Definition code (c : byte) : N := N_of_ascii c.

Definition between (lo hi : N) (c : byte) : bool :=
  ((lo <=? code c) && (code c <=? hi))%N.

Definition is_lower (c : byte) : bool := between 97 122 c.

Definition is_upper (c : byte) : bool := between 65 90 c.

Definition is_digit (c : byte) : bool := between 48 57 c.

Definition is_alnum (c : byte) : bool := is_lower c || is_upper c || is_digit c.

Definition byte_in (c : byte) (set : string) : bool :=
  existsb (Ascii.eqb c) (list_ascii_of_string set).

(** ** Package strings *)

Module strings.

Fixpoint all (p : byte -> bool) (s : string) : bool :=
  match s with
  | EmptyString => true
  | String c s' => p c && all p s'
  end.

Definition ContainsByte (s : string) (c : byte) : bool :=
  negb (all (fun a => negb (Ascii.eqb a c)) s).

Fixpoint HasPrefix (s p : string) {struct p} : bool :=
  match p, s with
  | EmptyString, _ => true
  | String b p', String a s' => Ascii.eqb a b && HasPrefix s' p'
  | String _ _, EmptyString => false
  end.

Fixpoint last (s : string) : option byte :=
  match s with
  | EmptyString => None
  | String c EmptyString => Some c
  | String _ s' => last s'
  end.

(** [strings.HasSuffix(s, string(c))]. *)
Definition HasSuffixByte (s : string) (c : byte) : bool :=
  match last s with
  | Some a => Ascii.eqb a c
  | None => false
  end.

(** [strings.Count(s, string(c))]. *)
Fixpoint CountByte (s : string) (c : byte) : nat :=
  match s with
  | EmptyString => 0
  | String a s' => (if Ascii.eqb a c then 1 else 0) + CountByte s' c
  end.

(** [strings.Cut(s, string(c))]: split around the first [c]. *)
Fixpoint Cut (s : string) (c : byte) : string * string * bool :=
  match s with
  | EmptyString => (EmptyString, EmptyString, false)
  | String a s' =>
      if Ascii.eqb a c then (EmptyString, s', true)
      else let '(before, after, found) := Cut s' c in
           (String a before, after, found)
  end.

(** Split around the last [c]: [(s[:i], s[i+1:])] for
    [i = strings.LastIndex(s, string(c))], [None] when [i < 0]. *)
Fixpoint CutLast (s : string) (c : byte) : option (string * string) :=
  match s with
  | EmptyString => None
  | String a s' =>
      match CutLast s' c with
      | Some (before, after) => Some (String a before, after)
      | None => if Ascii.eqb a c then Some (EmptyString, s') else None
      end
  end.

(** Split around the first occurrence of the substring [sep]:
    [(s[:i], s[i:])] for [i = strings.Index(s, sep)]. *)
Fixpoint SplitAt (s sep : string) : option (string * string) :=
  if HasPrefix s sep then Some (EmptyString, s)
  else match s with
       | EmptyString => None
       | String a s' =>
           match SplitAt s' sep with
           | Some (before, rest) => Some (String a before, rest)
           | None => None
           end
       end.

(** [strings.Split(s, string(c))]: [n] separators give [n+1] pieces. *)
Fixpoint Split (s : string) (c : byte) : list string :=
  match s with
  | EmptyString => [EmptyString]
  | String a s' =>
      if Ascii.eqb a c then EmptyString :: Split s' c
      else match Split s' c with
           | e :: es => String a e :: es
           | [] => [String a EmptyString]
           end
  end.

Definition Join (elems : list string) (sep : string) : string :=
  String.concat sep elems.

(** [s[n:]]. *)
Fixpoint drop (n : nat) (s : string) : string :=
  match n, s with
  | S n', String _ s' => drop n' s'
  | _, _ => s
  end.

Definition lower (c : byte) : byte :=
  if is_upper c then ascii_of_N (code c + 32) else c.

Fixpoint ToLower (s : string) : string :=
  match s with
  | EmptyString => EmptyString
  | String c s' => String (lower c) (ToLower s')
  end.

End strings.

(** ** Package path *)

Module path.

(** One step of [Clean]'s loop, on a whole path element.  [out] is the
    output buffer as the stack of the elements written so far, last one
    first.  Empty and [.] elements are dropped; [..] removes the last
    element when there is one to remove ([out.w > dotdot]), is dropped at
    the root of a rooted path, and is kept otherwise. *)
Definition clean_step (rooted : bool) (out : list string) (e : string)
  : list string :=
  if (e =? "") || (e =? ".") then out
  else if e =? ".." then
    match out with
    | top :: rest =>
        if top =? ".." then (if rooted then out else e :: out) else rest
    | [] => if rooted then out else [e]
    end
  else e :: out.

(** [path.Clean]: the shortest path equivalent to [p] by purely lexical
    processing. *)
Definition Clean (p : string) : string :=
  match p with
  | EmptyString => "."
  | String c _ =>
      let rooted := Ascii.eqb c "/" in
      let out := fold_left (clean_step rooted) (strings.Split p "/") [] in
      if rooted then "/" ++ strings.Join (rev out) "/"
      else match out with
           | [] => "."
           | _ => strings.Join (rev out) "/"
           end
  end.

(** [path.Join(a, b)]: empty elements are ignored, the rest are joined
    with slashes and the result is cleaned; all empty gives [""]. *)
Definition Join (a b : string) : string :=
  match a, b with
  | EmptyString, EmptyString => ""
  | EmptyString, _ => Clean b
  | _, EmptyString => Clean a
  | _, _ => Clean (a ++ "/" ++ b)
  end.

End path.

(** ** Package net/url *)

Definition dquote : byte := "034"%char.

(** JSON text is written with ['] for the double quote in the examples
    below; [text] puts the double quotes back. *)
Fixpoint text (s : string) : string :=
  match s with
  | EmptyString => EmptyString
  | String c s' => String (if Ascii.eqb c "'" then dquote else c) (text s')
  end.

Module url.

Inductive encoding :=
| encodePath | encodePathSegment | encodeHost | encodeZone
| encodeUserPassword | encodeQueryComponent | encodeFragment.

Definition host_mode (mode : encoding) : bool :=
  match mode with
  | encodeHost | encodeZone => true
  | _ => false
  end.

(** [shouldEscape]: whether byte [c] is written as [%XX] in the URL
    component [mode]. *)
Definition shouldEscape (c : byte) (mode : encoding) : bool :=
  if is_alnum c then false
  else if host_mode mode
          && (byte_in c "!$&'()*+,;=:[]<>" || Ascii.eqb c dquote) then false
  else if byte_in c "-_.~" then false
  else if byte_in c "$&+,/:;=?@" then
    match mode with
    | encodePath => Ascii.eqb c "?"
    | encodePathSegment => byte_in c "/;,?"
    | encodeUserPassword => byte_in c "@/?:"
    | encodeQueryComponent => true
    | encodeFragment => false
    | encodeHost | encodeZone => true
    end
  else match mode with
       | encodeFragment => negb (byte_in c "!()*")
       | _ => true
       end.

Definition ishex (c : byte) : bool :=
  is_digit c || between 97 102 c || between 65 70 c.

Definition unhex (c : byte) : N :=
  if is_digit c then code c - 48
  else if between 97 102 c then code c - 97 + 10
  else if between 65 70 c then code c - 65 + 10
  else 0.

Definition upperhex (n : N) : byte :=
  if (n <? 10)%N then ascii_of_N (48 + n) else ascii_of_N (65 + (n - 10)).

(** The errors [url.Parse] wraps into its [*url.Error]. *)
Inductive parse_failure :=
| EscapeError (s : string)
| InvalidHostError (s : string)
| ErrControlCharacter
| ErrMissingProtocolScheme
| ErrColonInFirstSegment
| ErrMissingBracket
| ErrInvalidPort (colonPort : string)
| ErrInvalidUserinfo.

(** [*url.Error]. *)
Record Error := { Op : string; ErrURL : string; Err : parse_failure }.

Definition res (A : Type) : Type := A + parse_failure.

Definition bindr {A B} (r : res A) (k : A -> res B) : res B :=
  match r with
  | inl a => k a
  | inr e => inr e
  end.

(** [unescape]: [%XX] decoding, with the checks of each mode.  Go
    validates in a first pass and decodes in a second; both walk the
    string left to right and the first ill-formed position decides the
    error, so one pass gives the same result. *)
Fixpoint unescape (s : string) (mode : encoding) : res string :=
  match s with
  | EmptyString => inl EmptyString
  | String c rest =>
      if Ascii.eqb c "%" then
        match rest with
        | String h1 (String h2 rest') =>
            if ishex h1 && ishex h2 then
              let v := (unhex h1 * 16 + unhex h2)%N in
              let is25 := Ascii.eqb h1 "2" && Ascii.eqb h2 "5" in
              let pct := String c (String h1 (String h2 EmptyString)) in
              match mode with
              | encodeHost =>
                  if (unhex h1 <? 8)%N && negb is25 then inr (EscapeError pct)
                  else bindr (unescape rest' mode)
                         (fun t => inl (String (ascii_of_N v) t))
              | encodeZone =>
                  if negb is25 && negb (v =? 32)%N
                     && shouldEscape (ascii_of_N v) encodeHost
                  then inr (EscapeError pct)
                  else bindr (unescape rest' mode)
                         (fun t => inl (String (ascii_of_N v) t))
              | _ => bindr (unescape rest' mode)
                       (fun t => inl (String (ascii_of_N v) t))
              end
            else inr (EscapeError (String c (String h1 (String h2 EmptyString))))
        | _ => inr (EscapeError s)
        end
      else if Ascii.eqb c "+" then
        bindr (unescape rest mode)
          (fun t => inl (String (match mode with
                                 | encodeQueryComponent => " "%char
                                 | _ => c
                                 end) t))
      else if host_mode mode && (code c <? 128)%N && shouldEscape c encodeHost
      then inr (InvalidHostError (String c EmptyString))
      else bindr (unescape rest mode) (fun t => inl (String c t))
  end.

(** [escape]: the inverse direction, upper-case hex. *)
Fixpoint escape (s : string) (mode : encoding) : string :=
  match s with
  | EmptyString => EmptyString
  | String c rest =>
      if shouldEscape c mode then
        match mode with
        | encodeQueryComponent =>
            if Ascii.eqb c " " then String "+" (escape rest mode)
            else String "%" (String (upperhex (code c / 16))
                   (String (upperhex (code c mod 16)) (escape rest mode)))
        | _ => String "%" (String (upperhex (code c / 16))
                 (String (upperhex (code c mod 16)) (escape rest mode)))
        end
      else String c (escape rest mode)
  end.

(** [validEncoded]: [s] is a valid encoded path or fragment. *)
Definition validEncoded (s : string) (mode : encoding) : bool :=
  strings.all (fun c => byte_in c "!$&'()*+,;=:@[]%" || negb (shouldEscape c mode)) s.

Record Userinfo := { username : string; password : string; passwordSet : bool }.

Record URL := {
  Scheme : string;
  Opaque : string;
  User : option Userinfo;
  Host : string;
  Path : string;
  RawPath : string;
  OmitHost : bool;
  ForceQuery : bool;
  RawQuery : string;
  Fragment : string;
  RawFragment : string
}.

Definition empty : URL :=
  {| Scheme := ""; Opaque := ""; User := None; Host := ""; Path := "";
     RawPath := ""; OmitHost := false; ForceQuery := false; RawQuery := "";
     Fragment := ""; RawFragment := "" |}.

Definition with_Path (u : URL) (p : string) : URL :=
  {| Scheme := Scheme u; Opaque := Opaque u; User := User u; Host := Host u;
     Path := p; RawPath := RawPath u; OmitHost := OmitHost u;
     ForceQuery := ForceQuery u; RawQuery := RawQuery u;
     Fragment := Fragment u; RawFragment := RawFragment u |}.

Inductive scheme_scan :=
| NoScheme
| EmptyScheme
| FoundScheme (scheme rest : string).

Definition scheme_cons (c : byte) (r : scheme_scan) : scheme_scan :=
  match r with
  | FoundScheme scheme rest => FoundScheme (String c scheme) rest
  | _ => r
  end.

(** The loop of [getScheme]; [first] is [i == 0]. *)
Fixpoint scanScheme (s : string) (first : bool) : scheme_scan :=
  match s with
  | EmptyString => NoScheme
  | String c s' =>
      if is_lower c || is_upper c then scheme_cons c (scanScheme s' false)
      else if is_digit c || byte_in c "+-." then
        if first then NoScheme else scheme_cons c (scanScheme s' false)
      else if Ascii.eqb c ":" then
        if first then EmptyScheme else FoundScheme EmptyString s'
      else NoScheme
  end.

(** [getScheme]: split off a leading [scheme:], if there is one. *)
Definition getScheme (rawURL : string) : res (string * string) :=
  match scanScheme rawURL true with
  | NoScheme => inl (EmptyString, rawURL)
  | EmptyScheme => inr ErrMissingProtocolScheme
  | FoundScheme scheme rest => inl (scheme, rest)
  end.

Definition stringContainsCTLByte (s : string) : bool :=
  negb (strings.all (fun c => negb ((code c <? 32)%N || (code c =? 127)%N)) s).

Definition validOptionalPort (port : string) : bool :=
  match port with
  | EmptyString => true
  | String c ds => Ascii.eqb c ":" && strings.all is_digit ds
  end.

Definition validUserinfo (s : string) : bool :=
  strings.all (fun c => is_alnum c || byte_in c "-._:~!$&'()*+,;=%@") s.

(** [parseHost]: a [host] or [host:port], possibly an IP literal in
    brackets with a zone. *)
Definition parseHost (host : string) : res string :=
  if strings.HasPrefix host "[" then
    match strings.CutLast host "]" with
    | None => inr ErrMissingBracket
    | Some (before, colonPort) =>
        if negb (validOptionalPort colonPort) then inr (ErrInvalidPort colonPort)
        else match strings.SplitAt before "%25" with
             | Some (h1, zone) =>
                 bindr (unescape h1 encodeHost) (fun host1 =>
                 bindr (unescape zone encodeZone) (fun host2 =>
                 bindr (unescape (String "]" colonPort) encodeHost) (fun host3 =>
                 inl (host1 ++ host2 ++ host3))))
             | None => unescape host encodeHost
             end
    end
  else
    match strings.CutLast host ":" with
    | Some (_, port) =>
        if negb (validOptionalPort (String ":" port))
        then inr (ErrInvalidPort (String ":" port))
        else unescape host encodeHost
    | None => unescape host encodeHost
    end.

(** [parseAuthority]: [[userinfo@]host]. *)
Definition parseAuthority (authority : string) : res (option Userinfo * string) :=
  match strings.CutLast authority "@" with
  | None => bindr (parseHost authority) (fun host => inl (None, host))
  | Some (userinfo, hostpart) =>
      bindr (parseHost hostpart) (fun host =>
      if negb (validUserinfo userinfo) then inr ErrInvalidUserinfo
      else if negb (strings.ContainsByte userinfo ":") then
        bindr (unescape userinfo encodeUserPassword) (fun u =>
        inl (Some {| username := u; password := ""; passwordSet := false |}, host))
      else
        let '(name, pass, _) := strings.Cut userinfo ":" in
        bindr (unescape name encodeUserPassword) (fun u =>
        bindr (unescape pass encodeUserPassword) (fun p =>
        inl (Some {| username := u; password := p; passwordSet := true |}, host))))
  end.

(** [setPath]: [Path] is the decoded form; [RawPath] is kept only when
    the default encoding of [Path] differs from what was given. *)
Definition setPath (u : URL) (p : string) : res URL :=
  bindr (unescape p encodePath) (fun path =>
  inl {| Scheme := Scheme u; Opaque := Opaque u; User := User u; Host := Host u;
         Path := path;
         RawPath := if p =? escape path encodePath then "" else p;
         OmitHost := OmitHost u; ForceQuery := ForceQuery u;
         RawQuery := RawQuery u; Fragment := Fragment u;
         RawFragment := RawFragment u |}).

Definition setFragment (u : URL) (f : string) : res URL :=
  bindr (unescape f encodeFragment) (fun frag =>
  inl {| Scheme := Scheme u; Opaque := Opaque u; User := User u; Host := Host u;
         Path := Path u; RawPath := RawPath u;
         OmitHost := OmitHost u; ForceQuery := ForceQuery u;
         RawQuery := RawQuery u; Fragment := frag;
         RawFragment := if f =? escape frag encodeFragment then "" else f |}).

Fixpoint dropLast (s : string) : string :=
  match s with
  | EmptyString => EmptyString
  | String _ EmptyString => EmptyString
  | String c s' => String c (dropLast s')
  end.

(** [parse(rawURL, viaRequest = false)]: a URL without its fragment. *)
Definition parse (rawURL : string) : res URL :=
  if stringContainsCTLByte rawURL then inr ErrControlCharacter
  else if rawURL =? "*" then inl (with_Path empty "*")
  else
    bindr (getScheme rawURL) (fun '(scheme0, rest0) =>
    let scheme := strings.ToLower scheme0 in
    let '(rest, force, query) :=
      if strings.HasSuffixByte rest0 "?" && (strings.CountByte rest0 "?" =? 1)%nat
      then (dropLast rest0, true, EmptyString)
      else let '(before, after, _) := strings.Cut rest0 "?" in
           (before, false, after) in
    let rooted := strings.HasPrefix rest "/" in
    if negb rooted && negb (scheme =? "") then
      inl {| Scheme := scheme; Opaque := rest; User := None; Host := "";
             Path := ""; RawPath := ""; OmitHost := false;
             ForceQuery := force; RawQuery := query;
             Fragment := ""; RawFragment := "" |}
    else if negb rooted
            && strings.ContainsByte (fst (fst (strings.Cut rest "/"))) ":"
    then inr ErrColonInFirstSegment
    else if (negb (scheme =? "") || negb (strings.HasPrefix rest "///"))
            && strings.HasPrefix rest "//" then
      let '(authority, rest', found) :=
        strings.Cut (strings.drop 2 rest) "/" in
      bindr (parseAuthority authority) (fun '(user, host) =>
      setPath {| Scheme := scheme; Opaque := ""; User := user; Host := host;
                 Path := ""; RawPath := ""; OmitHost := false;
                 ForceQuery := force; RawQuery := query;
                 Fragment := ""; RawFragment := "" |}
              (if found then String "/" rest' else EmptyString))
    else
      setPath {| Scheme := scheme; Opaque := ""; User := None; Host := "";
                 Path := ""; RawPath := "";
                 OmitHost := negb (scheme =? "") && rooted;
                 ForceQuery := force; RawQuery := query;
                 Fragment := ""; RawFragment := "" |}
              rest).

(** [url.Parse]: cut the fragment off, parse the rest, decode the
    fragment. *)
Definition Parse (rawURL : string) : URL + Error :=
  let '(u, frag, _) := strings.Cut rawURL "#" in
  match parse u with
  | inr e => inr {| Op := "parse"; ErrURL := u; Err := e |}
  | inl url =>
      if frag =? "" then inl url
      else match setFragment url frag with
           | inr e => inr {| Op := "parse"; ErrURL := rawURL; Err := e |}
           | inl url' => inl url'
           end
  end.

Definition Userinfo_String (ui : Userinfo) : string :=
  escape (username ui) encodeUserPassword
  ++ (if passwordSet ui then ":" ++ escape (password ui) encodeUserPassword
      else "").

Definition okUnescaped (raw : string) (mode : encoding) (decoded : string) : bool :=
  match unescape raw mode with
  | inl p => p =? decoded
  | inr _ => false
  end.

Definition EscapedPath (u : URL) : string :=
  if negb (RawPath u =? "") && validEncoded (RawPath u) encodePath
     && okUnescaped (RawPath u) encodePath (Path u)
  then RawPath u
  else if Path u =? "*" then "*"
  else escape (Path u) encodePath.

Definition EscapedFragment (u : URL) : string :=
  if negb (RawFragment u =? "") && validEncoded (RawFragment u) encodeFragment
     && okUnescaped (RawFragment u) encodeFragment (Fragment u)
  then RawFragment u
  else escape (Fragment u) encodeFragment.

(** [URL.String]: reassemble the URL text. *)
Definition String_ (u : URL) : string :=
  let scheme := if Scheme u =? "" then "" else Scheme u ++ ":" in
  let body :=
    if negb (Opaque u =? "") then scheme ++ Opaque u
    else
      let hasUser := match User u with Some _ => true | None => false end in
      let auth :=
        if negb (Scheme u =? "") || negb (Host u =? "") || hasUser then
          if OmitHost u && (Host u =? "") && negb hasUser then ""
          else
            (if negb (Host u =? "") || negb (Path u =? "") || hasUser
             then "//" else "")
            ++ match User u with
               | Some ui => Userinfo_String ui ++ "@"
               | None => ""
               end
            ++ (if Host u =? "" then "" else escape (Host u) encodeHost)
        else "" in
      let p := EscapedPath u in
      let buf := scheme ++ auth in
      let buf :=
        if negb (p =? "") && negb (strings.HasPrefix p "/") && negb (Host u =? "")
        then buf ++ "/" else buf in
      let buf :=
        if (buf =? "") && strings.ContainsByte (fst (fst (strings.Cut p "/"))) ":"
        then "./" else buf in
      buf ++ p in
  body
  ++ (if ForceQuery u || negb (RawQuery u =? "") then "?" ++ RawQuery u else "")
  ++ (if Fragment u =? "" then "" else "#" ++ EscapedFragment u).

End url.

(** ** Package unicode/utf8 *)

Module utf8.

(** The UTF-8 encoding of U+FFFD, what [RuneError] is written as. *)
Definition RuneError : string :=
  String (ascii_of_N 239) (String (ascii_of_N 191) (String (ascii_of_N 189) "")).

Definition cont (c : byte) : bool := between 128 191 c.

(** Number of continuation bytes that follow the lead byte of the valid
    encoding [s] starts with; [None] when [s] does not start with a valid
    encoding ([DecodeRune] then returns [RuneError] of width 1). *)
Definition tail_len (s : string) : option nat :=
  match s with
  | EmptyString => None
  | String b0 r =>
      if (code b0 <? 128)%N then Some 0%nat
      else if between 194 223 b0 then
        match r with
        | String b1 _ => if cont b1 then Some 1%nat else None
        | _ => None
        end
      else if between 224 239 b0 then
        match r with
        | String b1 (String b2 _) =>
            let lo := if (code b0 =? 224)%N then 160%N else 128%N in
            let hi := if (code b0 =? 237)%N then 159%N else 191%N in
            if between lo hi b1 && cont b2 then Some 2%nat else None
        | _ => None
        end
      else if between 240 244 b0 then
        match r with
        | String b1 (String b2 (String b3 _)) =>
            let lo := if (code b0 =? 240)%N then 144%N else 128%N in
            let hi := if (code b0 =? 244)%N then 143%N else 191%N in
            if between lo hi b1 && cont b2 && cont b3 then Some 3%nat else None
        | _ => None
        end
      else None
  end.

(** [utf8.EncodeRune]; surrogates and values past U+10FFFF are written
    as [RuneError]. *)
Definition EncodeRune (r : N) : string :=
  let b (n : N) := ascii_of_N n in
  if (r <? 128)%N then String (b r) ""
  else if (r <? 2048)%N then
    String (b (192 + r / 64)%N) (String (b (128 + r mod 64)%N) "")
  else if ((55296 <=? r) && (r <=? 57343))%N || (1114111 <? r)%N then RuneError
  else if (r <? 65536)%N then
    String (b (224 + r / 4096)%N)
      (String (b (128 + (r / 64) mod 64)%N) (String (b (128 + r mod 64)%N) ""))
  else
    String (b (240 + r / 262144)%N)
      (String (b (128 + (r / 4096) mod 64)%N)
         (String (b (128 + (r / 64) mod 64)%N)
            (String (b (128 + r mod 64)%N) ""))).

End utf8.

(** ** Package encoding/json: values and the scanner *)

Module json.

(** A JSON value as the decoder walks it.  A number keeps its literal
    text: it is only converted once the kind of the destination is
    known. *)
Inductive value :=
| Null
| Bool (b : bool)
| Number (lit : string)
| Str (s : string)
| Array (elems : list value)
| Object (members : list (string * value)).

(** What [Decode] can return. *)
Inductive error :=
| SyntaxError (c : byte) (context : string)
| UnmarshalTypeError (Value : string) (Type_ : string)
| EOF
| ErrUnexpectedEOF.

Definition isSpace (c : byte) : bool :=
  Ascii.eqb c " " || (code c =? 9)%N || (code c =? 13)%N || (code c =? 10)%N.

(** *** unquote *)

Definition hexval (a b c d : byte) : N :=
  (url.unhex a * 4096 + url.unhex b * 256 + url.unhex c * 16 + url.unhex d)%N.

Definition allhex (a b c d : byte) : bool :=
  url.ishex a && url.ishex b && url.ishex c && url.ishex d.

(** [getu4] on the text after a first escape: the code unit of a second
    escape sequence standing right there, if any. *)
Definition getu4 (s : string) : option (N * string) :=
  match s with
  | String e (String u (String a (String b (String c (String d rest))))) =>
      if Ascii.eqb e "\" && Ascii.eqb u "u" && allhex a b c d
      then Some (hexval a b c d, rest) else None
  | _ => None
  end.

Definition escaped (c : byte) : byte :=
  if Ascii.eqb c "b" then ascii_of_N 8
  else if Ascii.eqb c "f" then ascii_of_N 12
  else if Ascii.eqb c "n" then ascii_of_N 10
  else if Ascii.eqb c "r" then ascii_of_N 13
  else if Ascii.eqb c "t" then ascii_of_N 9
  else c.

(** [unquote] on the text between the quotes of a scanned string
    literal: escapes are decoded, a surrogate pair becomes one rune, a
    lone surrogate and every byte that is not part of valid UTF-8 become
    U+FFFD.  [skip] counts the continuation bytes of a valid encoding
    still to be copied. *)
Fixpoint unquote_from (skip : nat) (s : string) : string :=
  match s with
  | EmptyString => EmptyString
  | String c rest =>
      match skip with
      | S k => String c (unquote_from k rest)
      | O =>
          if Ascii.eqb c "\" then
            match rest with
            | String e rest1 =>
                if Ascii.eqb e "u" then
                  match rest1 with
                  | String a (String b (String x (String d rest2))) =>
                      let rr := hexval a b x d in
                      if ((55296 <=? rr) && (rr <? 57344))%N then
                        match getu4 rest2 with
                        | Some (rr1, _) =>
                            if ((rr <? 56320) && (56320 <=? rr1) && (rr1 <? 57344))%N
                            then
                              match rest2 with
                              | String _ (String _ (String _ (String _
                                  (String _ (String _ rest3))))) =>
                                  utf8.EncodeRune
                                    ((rr - 55296) * 1024 + (rr1 - 56320) + 65536)%N
                                  ++ unquote_from 0 rest3
                              | _ => utf8.RuneError ++ unquote_from 0 rest2
                              end
                            else utf8.RuneError ++ unquote_from 0 rest2
                        | None => utf8.RuneError ++ unquote_from 0 rest2
                        end
                      else utf8.EncodeRune rr ++ unquote_from 0 rest2
                  | _ => EmptyString
                  end
                else String (escaped e) (unquote_from 0 rest1)
            | EmptyString => EmptyString
            end
          else
            match utf8.tail_len s with
            | Some k => String c (unquote_from k rest)
            | None => utf8.RuneError ++ unquote_from 0 rest
            end
      end
  end.

Definition unquote (raw : string) : string := unquote_from 0 raw.

(** *** The scanner

    The scanner is Go's: one step function per lexical state, a stack of
    the open composites.  Where Go's scanner only validates and the
    decoder walks the validated bytes a second time, the frames here
    also carry what has been read of each open composite, so that the
    value is built in the same pass. *)
Inductive step_state :=
| stateBeginValue
| stateBeginValueOrEmpty
| stateBeginStringOrEmpty
| stateBeginString
| stateInString
| stateInStringEsc
| stateInStringEscU (missing : nat)
| stateNeg | state1 | state0
| stateDot | stateDot0
| stateE | stateESign | stateE0
| stateLiteral (name : string) (rest : string) (v : value)
| stateEndValue.

(** [parseObjectKey], [parseObjectValue] and [parseArrayValue], with the
    members or elements read so far (last one first).  The key of an
    object frame is set from the end of the key string to the end of its
    value. *)
Inductive frame :=
| parseObjectKey (members : list (string * value)) (key : option string)
| parseObjectValue (members : list (string * value)) (key : option string)
| parseArrayValue (elems : list value).

Record scanner := {
  step : step_state;
  parseState : list frame;
  literal : string;          (* bytes of the literal being read, reversed *)
  top : option value         (* the top-level value, once complete *)
}.

Definition maxNestingDepth : nat := 10000.

Inductive outcome :=
| scanContinue (s : scanner)
| scanEnd (v : value) (consumed : bool)
| scanError (e : error).

Definition reset : scanner :=
  {| step := stateBeginValue; parseState := []; literal := ""; top := None |}.

Definition goto (s : scanner) (st : step_state) : outcome :=
  scanContinue {| step := st; parseState := parseState s;
                  literal := literal s; top := top s |}.

Definition begin (s : scanner) (st : step_state) (c : byte) : outcome :=
  scanContinue {| step := st; parseState := parseState s;
                  literal := String c ""; top := top s |}.

Definition more (s : scanner) (st : step_state) (c : byte) : outcome :=
  scanContinue {| step := st; parseState := parseState s;
                  literal := String c (literal s); top := top s |}.

Definition fail (c : byte) (context : string) : outcome :=
  scanError (SyntaxError c context).

Fixpoint rev_string (s acc : string) : string :=
  match s with
  | EmptyString => acc
  | String c s' => rev_string s' (String c acc)
  end.

(** A value is complete: hand it to the composite it belongs to. *)
Definition endValue (stack : list frame) (v : value) : option scanner :=
  let at_ st stack' t :=
    Some {| step := st; parseState := stack'; literal := ""; top := t |} in
  match stack with
  | [] => at_ stateEndValue [] (Some v)
  | parseObjectKey ms None :: st =>
      match v with
      | Str k => at_ stateEndValue (parseObjectKey ms (Some k) :: st) None
      | _ => None
      end
  | parseObjectValue ms (Some k) :: st =>
      at_ stateEndValue (parseObjectValue ((k, v) :: ms) None :: st) None
  | parseArrayValue es :: st =>
      at_ stateEndValue (parseArrayValue (v :: es) :: st) None
  | _ => None
  end.

(** A composite is closed by the byte [c]: [popParseState].  At the top
    level [Decode] stops at once, without waiting for a next byte. *)
Definition closeValue (stack : list frame) (v : value) (c : byte) : outcome :=
  match stack with
  | [] => scanEnd v true
  | _ => match endValue stack v with
         | Some s => scanContinue s
         | None => fail c ""
         end
  end.

Definition push (s : scanner) (st : step_state) (f : frame) (c : byte) : outcome :=
  if (maxNestingDepth <=? List.length (parseState s))%nat
  then fail c "exceeded max depth"
  else scanContinue {| step := st; parseState := f :: parseState s;
                       literal := ""; top := None |}.

Definition stepEndValue (s : scanner) (c : byte) : outcome :=
  match parseState s with
  | [] =>
      match top s with
      | Some v => scanEnd v false
      | None => fail c ""
      end
  | f :: st =>
      if isSpace c then goto s stateEndValue
      else match f with
           | parseObjectKey ms (Some k) =>
               if Ascii.eqb c ":" then
                 scanContinue {| step := stateBeginValue;
                                 parseState := parseObjectValue ms (Some k) :: st;
                                 literal := ""; top := None |}
               else fail c "after object key"
           | parseObjectValue ms None =>
               if Ascii.eqb c "," then
                 scanContinue {| step := stateBeginString;
                                 parseState := parseObjectKey ms None :: st;
                                 literal := ""; top := None |}
               else if Ascii.eqb c "}" then closeValue st (Object (rev ms)) c
               else fail c "after object key:value pair"
           | parseArrayValue es =>
               if Ascii.eqb c "," then goto s stateBeginValue
               else if Ascii.eqb c "]" then closeValue st (Array (rev es)) c
               else fail c "after array element"
           | _ => fail c ""
           end
  end.

(** A scalar value ended before the byte [c]: store it, then let
    [stateEndValue] look at [c]. *)
Definition endScalar (s : scanner) (v : value) (c : byte) : outcome :=
  match endValue (parseState s) v with
  | Some s' => stepEndValue s' c
  | None => fail c ""
  end.

Definition endNumber (s : scanner) (c : byte) : outcome :=
  endScalar s (Number (rev_string (literal s) "")) c.

Definition stepBeginValue (s : scanner) (c : byte) : outcome :=
  if isSpace c then goto s (step s)
  else if Ascii.eqb c "{" then
    push s stateBeginStringOrEmpty (parseObjectKey [] None) c
  else if Ascii.eqb c "[" then
    push s stateBeginValueOrEmpty (parseArrayValue []) c
  else if Ascii.eqb c dquote then
    scanContinue {| step := stateInString; parseState := parseState s;
                    literal := ""; top := None |}
  else if Ascii.eqb c "-" then begin s stateNeg c
  else if Ascii.eqb c "0" then begin s state0 c
  else if Ascii.eqb c "t" then goto s (stateLiteral "true" "rue" (Bool true))
  else if Ascii.eqb c "f" then goto s (stateLiteral "false" "alse" (Bool false))
  else if Ascii.eqb c "n" then goto s (stateLiteral "null" "ull" Null)
  else if between 49 57 c then begin s state1 c
  else fail c "looking for beginning of value".

Definition stepBeginString (s : scanner) (c : byte) : outcome :=
  if isSpace c then goto s (step s)
  else if Ascii.eqb c dquote then
    scanContinue {| step := stateInString; parseState := parseState s;
                    literal := ""; top := None |}
  else fail c "looking for beginning of object key string".

Definition step0 (s : scanner) (c : byte) : outcome :=
  if Ascii.eqb c "." then more s stateDot c
  else if Ascii.eqb c "e" || Ascii.eqb c "E" then more s stateE c
  else endNumber s c.

Definition stepESign (s : scanner) (c : byte) : outcome :=
  if is_digit c then more s stateE0 c
  else fail c "in exponent of numeric literal".

(** [s.step(s, c)]. *)
Definition scan (s : scanner) (c : byte) : outcome :=
  match step s with
  | stateBeginValue => stepBeginValue s c
  | stateBeginValueOrEmpty =>
      if isSpace c then goto s (step s)
      else if Ascii.eqb c "]" then stepEndValue s c
      else stepBeginValue s c
  | stateBeginStringOrEmpty =>
      if isSpace c then goto s (step s)
      else if Ascii.eqb c "}" then
        match parseState s with
        | parseObjectKey ms None :: st => closeValue st (Object (rev ms)) c
        | _ => fail c ""
        end
      else stepBeginString s c
  | stateBeginString => stepBeginString s c
  | stateInString =>
      if Ascii.eqb c dquote then
        match endValue (parseState s) (Str (unquote (rev_string (literal s) ""))) with
        | Some s' => scanContinue s'
        | None => fail c ""
        end
      else if Ascii.eqb c "\" then more s stateInStringEsc c
      else if (code c <? 32)%N then fail c "in string literal"
      else more s stateInString c
  | stateInStringEsc =>
      if byte_in c "bfnrt\/" || Ascii.eqb c dquote then more s stateInString c
      else if Ascii.eqb c "u" then more s (stateInStringEscU 4) c
      else fail c "in string escape code"
  | stateInStringEscU n =>
      if url.ishex c then
        more s (match n with
                | S (S k) => stateInStringEscU (S k)
                | _ => stateInString
                end) c
      else fail c "in \u hexadecimal character escape"
  | stateNeg =>
      if Ascii.eqb c "0" then more s state0 c
      else if between 49 57 c then more s state1 c
      else fail c "in numeric literal"
  | state1 => if is_digit c then more s state1 c else step0 s c
  | state0 => step0 s c
  | stateDot =>
      if is_digit c then more s stateDot0 c
      else fail c "after decimal point in numeric literal"
  | stateDot0 =>
      if is_digit c then more s stateDot0 c
      else if Ascii.eqb c "e" || Ascii.eqb c "E" then more s stateE c
      else endNumber s c
  | stateE =>
      if Ascii.eqb c "+" || Ascii.eqb c "-" then more s stateESign c
      else stepESign s c
  | stateESign => stepESign s c
  | stateE0 => if is_digit c then more s stateE0 c else endNumber s c
  | stateLiteral name rest v =>
      match rest with
      | String x rest' =>
          if Ascii.eqb c x then
            match rest' with
            | EmptyString =>
                match endValue (parseState s) v with
                | Some s' => scanContinue s'
                | None => fail c ""
                end
            | _ => goto s (stateLiteral name rest' v)
            end
          else fail c ("in literal " ++ name ++ " (expecting '" ++ String x "')")
      | EmptyString => fail c ""
      end
  | stateEndValue => stepEndValue s c
  end.

Inductive read_result :=
| ReadValue (v : value) (rest : string)
| ReadError (e : error).

(** [Decoder.readValue] on a body read to its end: feed the scanner
    until it reports the end of the first value; at the end of the input
    a space is fed in, and an input that holds no complete value is
    [io.EOF] when it is blank and [io.ErrUnexpectedEOF] otherwise. *)
Fixpoint readFrom (s : scanner) (blank : bool) (input : string) : read_result :=
  match input with
  | EmptyString =>
      match scan s " " with
      | scanEnd v _ => ReadValue v ""
      | _ => ReadError (if blank then EOF else ErrUnexpectedEOF)
      end
  | String c input' =>
      match scan s c with
      | scanContinue s' => readFrom s' (blank && isSpace c) input'
      | scanEnd v consumed => ReadValue v (if consumed then input' else input)
      | scanError e => ReadError e
      end
  end.

Definition readValue (body : string) : read_result := readFrom reset true body.

(** *** Unmarshal

    The destination of [Decode] is a pointer whose dynamic type drives
    the decoding.  A [GoType A] is that type as the decoder sees it: its
    name, its zero value, and how a JSON value is stored into a variable
    of the type.  Storing returns the variable's new contents and the
    error it would save: a value of the wrong kind is skipped and
    reported, and the decoding goes on. *)
Record GoType (A : Type) := {
  typeName : string;
  zero : A;
  store : value -> A -> A * option error
}.
Arguments typeName {A}.
Arguments zero {A}.
Arguments store {A}.

(** [d.saveError]: the first error is the one kept. *)
Definition saveError (saved new : option error) : option error :=
  match saved with
  | Some _ => saved
  | None => new
  end.

Definition kindOf (v : value) : string :=
  match v with
  | Null => "null"
  | Bool _ => "bool"
  | Number _ => "number"
  | Str _ => "string"
  | Array _ => "array"
  | Object _ => "object"
  end.

Definition mismatch (v : value) (ty : string) : option error :=
  Some (UnmarshalTypeError (kindOf v) ty).

Definition boolT : GoType bool :=
  {| typeName := "bool"; zero := false;
     store v old := match v with
                    | Null => (old, None)
                    | Bool b => (b, None)
                    | _ => (old, mismatch v "bool")
                    end |}.

Definition stringT : GoType string :=
  {| typeName := "string"; zero := "";
     store v old := match v with
                    | Null => (old, None)
                    | Str s => (s, None)
                    | _ => (old, mismatch v "string")
                    end |}.

Fixpoint digitsValue (s : string) (acc : Z) : option Z :=
  match s with
  | EmptyString => Some acc
  | String c s' =>
      if is_digit c then digitsValue s' (acc * 10 + Z.of_N (code c - 48))%Z
      else None
  end.

(** [strconv.ParseInt(s, 10, bitSize)], [None] on a syntax or range
    error. *)
Definition ParseInt (s : string) (bitSize : Z) : option Z :=
  let '(neg, ds) :=
    match s with
    | String c r => if Ascii.eqb c "-" then (true, r)
                    else if Ascii.eqb c "+" then (false, r)
                    else (false, s)
    | EmptyString => (false, s)
    end in
  match ds with
  | EmptyString => None
  | _ => match digitsValue ds 0 with
         | Some n =>
             let v := if neg then (- n)%Z else n in
             if ((- 2 ^ (bitSize - 1) <=? v) && (v <? 2 ^ (bitSize - 1)))%Z
             then Some v else None
         | None => None
         end
  end.

(** The signed integer kinds, as [Z] within the range of the kind. *)
Definition intT (name : string) (bitSize : Z) : GoType Z :=
  {| typeName := name; zero := 0%Z;
     store v old := match v with
                    | Null => (old, None)
                    | Number lit =>
                        match ParseInt lit bitSize with
                        | Some n => (n, None)
                        | None => (old, Some (UnmarshalTypeError ("number " ++ lit) name))
                        end
                    | _ => (old, mismatch v name)
                    end |}.

(** A slice: whether it is nil, the elements its backing array holds
    from its start, and its length.  The elements past the length are
    what an earlier, longer decoding into the same variable left
    behind. *)
Record slice (A : Type) := {
  isNil : bool;
  backing : list A;
  len : nat
}.
Arguments isNil {A}.
Arguments backing {A}.
Arguments len {A}.

Definition nil_slice {A} : slice A := {| isNil := true; backing := []; len := 0 |}.

Definition elems {A} (s : slice A) : list A := firstn (len s) (backing s).

(** The loop of [d.array]: element [i] of the JSON array is stored into
    element [i] of the slice, which starts from what the backing array
    holds there, or from the zero value. *)
Fixpoint storeElems {A} (T : GoType A) (vs : list value) (arr : list A)
  : list A * option error :=
  match vs with
  | [] => (arr, None)
  | v :: vs' =>
      let '(old, arr') := match arr with
                          | a :: r => (a, r)
                          | [] => (zero T, [])
                          end in
      let '(new, e1) := store T v old in
      let '(rest, e2) := storeElems T vs' arr' in
      (new :: rest, saveError e1 e2)
  end.

Definition sliceT {A} (T : GoType A) : GoType (slice A) :=
  {| typeName := "[]" ++ typeName T; zero := nil_slice;
     store v old := match v with
                    | Null => (nil_slice, None)
                    | Array [] => ({| isNil := false; backing := []; len := 0 |}, None)
                    | Array vs =>
                        let '(arr, e) := storeElems T vs (backing old) in
                        ({| isNil := false; backing := arr; len := List.length vs |}, e)
                    | _ => (old, mismatch v ("[]" ++ typeName T))
                    end |}.

(** A struct field as the decoder sees it: its JSON name and how a
    value is stored into it. *)
Record field (S : Type) := {
  name : string;
  set : value -> S -> S * option error
}.
Arguments name {S}.
Arguments set {S}.

Definition mkField {S F} (nm : string) (T : GoType F)
           (get : S -> F) (put : F -> S -> S) : field S :=
  {| name := nm;
     set v s := let '(f, e) := store T v (get s) in (put f s, e) |}.

(** [foldName]: keys are compared to field names up to Unicode simple
    folding.  All field names here are ASCII, and the only runes outside
    ASCII that fold to an ASCII letter are U+017F (to S) and U+212A (to
    K); every other rune outside ASCII is left as it is, which decides
    equality with an ASCII name the same way. *)
Fixpoint foldName (s : string) : string :=
  match s with
  | EmptyString => EmptyString
  | String c rest =>
      if is_lower c then String (ascii_of_N (code c - 32)) (foldName rest)
      else if (code c =? 197)%N then
        match rest with
        | String c1 rest1 =>
            if (code c1 =? 191)%N then String "S" (foldName rest1)
            else String c (foldName rest)
        | _ => String c (foldName rest)
        end
      else if (code c =? 226)%N then
        match rest with
        | String c1 (String c2 rest2) =>
            if ((code c1 =? 132) && (code c2 =? 170))%N
            then String "K" (foldName rest2)
            else String c (foldName rest)
        | _ => String c (foldName rest)
        end
      else String c (foldName rest)
  end.

(** The field a key names: the one with exactly that name, else the
    first one whose name folds to the same text. *)
Definition findField {S} (fields : list (field S)) (key : string)
  : option (field S) :=
  match find (fun f => name f =? key) fields with
  | Some f => Some f
  | None => find (fun f => foldName (name f) =? foldName key) fields
  end.

(** The loop of [d.object] on a struct: each member in turn is stored
    into the field its key names; members naming no field are skipped. *)
Fixpoint storeMembers {S} (fields : list (field S))
         (ms : list (string * value)) (s : S) (saved : option error)
  : S * option error :=
  match ms with
  | [] => (s, saved)
  | (k, v) :: ms' =>
      match findField fields k with
      | Some f => let '(s', e) := set f v s in
                  storeMembers fields ms' s' (saveError saved e)
      | None => storeMembers fields ms' s saved
      end
  end.

Definition structT {S} (nm : string) (z : S) (fields : list (field S)) : GoType S :=
  {| typeName := nm; zero := z;
     store v old := match v with
                    | Null => (old, None)
                    | Object ms => storeMembers fields ms old None
                    | _ => (old, mismatch v nm)
                    end |}.

(** [json.NewDecoder(body).Decode(dest)]: read the first value of the
    body, then store it into the destination.  A body that holds no
    well-formed first value leaves the destination as it was. *)
Definition Decode {A} (T : GoType A) (body : string) (dest : A) : A * option error :=
  match readValue body with
  | ReadError e => (dest, Some e)
  | ReadValue v _ => store T v dest
  end.

End json.

(** ** The response types of client.go

    One module per struct, so that the fields keep their Go names; [t] is
    the struct, [T] its type as the JSON decoder sees it (the field tags).
    [int] is 64 bits wide. *)

Module BurrowResp.
Record t := { Error : bool; Message : string }.
Definition zero : t := {| Error := false; Message := "" |}.

(** The two fields every response struct gets from embedding
    [BurrowResp]. *)
Definition promoted {S} (get : S -> t) (put : t -> S -> S) : list (json.field S) :=
  [ json.mkField "error" json.boolT (fun s => Error (get s))
      (fun b s => put {| Error := b; Message := Message (get s) |} s);
    json.mkField "message" json.stringT (fun s => Message (get s))
      (fun m s => put {| Error := Error (get s); Message := m |} s) ].
End BurrowResp.

Module ClustersResp.
Record t := { BurrowResp : BurrowResp.t; Clusters : json.slice string }.
Definition zero : t := {| BurrowResp := BurrowResp.zero; Clusters := json.nil_slice |}.
Definition fields : list (json.field t) :=
  (BurrowResp.promoted BurrowResp
       (fun e r => {| BurrowResp := e; Clusters := Clusters r |})
     ++ [ json.mkField "clusters" (json.sliceT json.stringT) Clusters
            (fun x r => {| BurrowResp := BurrowResp r; Clusters := x |}) ]).
Definition T : json.GoType t := json.structT "burrow_exporter.ClustersResp" zero fields.
End ClustersResp.

Module ClusterDetails.
Record t := {
  Brokers : json.slice string;
  Zookeepers : json.slice string;
  BrokerPort : Z;
  ZookeeperPort : Z;
  OffsetsTopic : string
}.
Definition zero : t :=
  {| Brokers := json.nil_slice; Zookeepers := json.nil_slice; BrokerPort := 0;
     ZookeeperPort := 0; OffsetsTopic := "" |}.
Definition fields : list (json.field t) :=
  [ json.mkField "brokers" (json.sliceT json.stringT) Brokers
        (fun x r => {| Brokers := x; Zookeepers := Zookeepers r;
                       BrokerPort := BrokerPort r; ZookeeperPort := ZookeeperPort r;
                       OffsetsTopic := OffsetsTopic r |});
      json.mkField "zookeepers" (json.sliceT json.stringT) Zookeepers
        (fun x r => {| Brokers := Brokers r; Zookeepers := x;
                       BrokerPort := BrokerPort r; ZookeeperPort := ZookeeperPort r;
                       OffsetsTopic := OffsetsTopic r |});
      json.mkField "broker_port" (json.intT "int" 64) BrokerPort
        (fun x r => {| Brokers := Brokers r; Zookeepers := Zookeepers r;
                       BrokerPort := x; ZookeeperPort := ZookeeperPort r;
                       OffsetsTopic := OffsetsTopic r |});
      json.mkField "zookeeper_port" (json.intT "int" 64) ZookeeperPort
        (fun x r => {| Brokers := Brokers r; Zookeepers := Zookeepers r;
                       BrokerPort := BrokerPort r; ZookeeperPort := x;
                       OffsetsTopic := OffsetsTopic r |});
      json.mkField "offsets_topic" json.stringT OffsetsTopic
        (fun x r => {| Brokers := Brokers r; Zookeepers := Zookeepers r;
                       BrokerPort := BrokerPort r; ZookeeperPort := ZookeeperPort r;
                       OffsetsTopic := x |}) ].
Definition T : json.GoType t := json.structT "burrow_exporter.ClusterDetails" zero fields.
End ClusterDetails.

Module ClusterDetailsResp.
Record t := { BurrowResp : BurrowResp.t; Cluster : ClusterDetails.t }.
Definition zero : t := {| BurrowResp := BurrowResp.zero; Cluster := ClusterDetails.zero |}.
Definition fields : list (json.field t) :=
  (BurrowResp.promoted BurrowResp
       (fun e r => {| BurrowResp := e; Cluster := Cluster r |})
     ++ [ json.mkField "cluster" ClusterDetails.T Cluster
            (fun x r => {| BurrowResp := BurrowResp r; Cluster := x |}) ]).
Definition T : json.GoType t := json.structT "burrow_exporter.ClusterDetailsResp" zero fields.
End ClusterDetailsResp.

Module ConsumerGroupsResp.
Record t := { BurrowResp : BurrowResp.t; ConsumerGroups : json.slice string }.
Definition zero : t := {| BurrowResp := BurrowResp.zero; ConsumerGroups := json.nil_slice |}.
Definition fields : list (json.field t) :=
  (BurrowResp.promoted BurrowResp
       (fun e r => {| BurrowResp := e; ConsumerGroups := ConsumerGroups r |})
     ++ [ json.mkField "consumers" (json.sliceT json.stringT) ConsumerGroups
            (fun x r => {| BurrowResp := BurrowResp r; ConsumerGroups := x |}) ]).
Definition T : json.GoType t := json.structT "burrow_exporter.ConsumerGroupsResp" zero fields.
End ConsumerGroupsResp.

Module ConsumerGroupTopicsResp.
Record t := { BurrowResp : BurrowResp.t; Topics : json.slice string }.
Definition zero : t := {| BurrowResp := BurrowResp.zero; Topics := json.nil_slice |}.
Definition fields : list (json.field t) :=
  (BurrowResp.promoted BurrowResp
       (fun e r => {| BurrowResp := e; Topics := Topics r |})
     ++ [ json.mkField "topics" (json.sliceT json.stringT) Topics
            (fun x r => {| BurrowResp := BurrowResp r; Topics := x |}) ]).
Definition T : json.GoType t := json.structT "burrow_exporter.ConsumerGroupTopicsResp" zero fields.
End ConsumerGroupTopicsResp.

Module ConsumerGroupTopicDetailsResp.
Record t := { BurrowResp : BurrowResp.t; Offsets : json.slice Z }.
Definition zero : t := {| BurrowResp := BurrowResp.zero; Offsets := json.nil_slice |}.
Definition fields : list (json.field t) :=
  (BurrowResp.promoted BurrowResp
       (fun e r => {| BurrowResp := e; Offsets := Offsets r |})
     ++ [ json.mkField "offsets" (json.sliceT (json.intT "int64" 64)) Offsets
            (fun x r => {| BurrowResp := BurrowResp r; Offsets := x |}) ]).
Definition T : json.GoType t := json.structT "burrow_exporter.ConsumerGroupTopicDetailsResp" zero fields.
End ConsumerGroupTopicDetailsResp.

Module Offset.
Record t := { Offset : Z; Timestamp : Z; Lag : Z }.
Definition zero : t := {| Offset := 0; Timestamp := 0; Lag := 0 |}.
Definition fields : list (json.field t) :=
  [ json.mkField "offset" (json.intT "int64" 64) Offset
        (fun x r => {| Offset := x; Timestamp := Timestamp r; Lag := Lag r |});
      json.mkField "timestamp" (json.intT "int64" 64) Timestamp
        (fun x r => {| Offset := Offset r; Timestamp := x; Lag := Lag r |});
      json.mkField "lag" (json.intT "int64" 64) Lag
        (fun x r => {| Offset := Offset r; Timestamp := Timestamp r; Lag := x |}) ].
Definition T : json.GoType t := json.structT "burrow_exporter.Offset" zero fields.
End Offset.

Module Partition.
Record t := {
  Topic : string;
  Partition : Z;
  Status : string;
  Start : Offset.t;
  End_ : Offset.t
}.
Definition zero : t :=
  {| Topic := ""; Partition := 0; Status := ""; Start := Offset.zero;
     End_ := Offset.zero |}.
Definition fields : list (json.field t) :=
  [ json.mkField "topic" json.stringT Topic
        (fun x r => {| Topic := x; Partition := Partition r; Status := Status r;
                       Start := Start r; End_ := End_ r |});
      json.mkField "partition" (json.intT "int32" 32) Partition
        (fun x r => {| Topic := Topic r; Partition := x; Status := Status r;
                       Start := Start r; End_ := End_ r |});
      json.mkField "status" json.stringT Status
        (fun x r => {| Topic := Topic r; Partition := Partition r; Status := x;
                       Start := Start r; End_ := End_ r |});
      json.mkField "start" Offset.T Start
        (fun x r => {| Topic := Topic r; Partition := Partition r; Status := Status r;
                       Start := x; End_ := End_ r |});
      json.mkField "end" Offset.T End_
        (fun x r => {| Topic := Topic r; Partition := Partition r; Status := Status r;
                       Start := Start r; End_ := x |}) ].
Definition T : json.GoType t := json.structT "burrow_exporter.Partition" zero fields.
End Partition.

Module ConsumerGroupStatus.
Record t := {
  Cluster : string;
  Group : string;
  Status : string;
  Complete : bool;
  MaxLag : Partition.t;
  Partitions : json.slice Partition.t;
  TotalLag : Z
}.
Definition zero : t :=
  {| Cluster := ""; Group := ""; Status := ""; Complete := false;
     MaxLag := Partition.zero; Partitions := json.nil_slice; TotalLag := 0 |}.
Definition fields : list (json.field t) :=
  [ json.mkField "cluster" json.stringT Cluster
        (fun x r => {| Cluster := x; Group := Group r; Status := Status r;
                       Complete := Complete r; MaxLag := MaxLag r;
                       Partitions := Partitions r; TotalLag := TotalLag r |});
      json.mkField "group" json.stringT Group
        (fun x r => {| Cluster := Cluster r; Group := x; Status := Status r;
                       Complete := Complete r; MaxLag := MaxLag r;
                       Partitions := Partitions r; TotalLag := TotalLag r |});
      json.mkField "status" json.stringT Status
        (fun x r => {| Cluster := Cluster r; Group := Group r; Status := x;
                       Complete := Complete r; MaxLag := MaxLag r;
                       Partitions := Partitions r; TotalLag := TotalLag r |});
      json.mkField "complete" json.boolT Complete
        (fun x r => {| Cluster := Cluster r; Group := Group r; Status := Status r;
                       Complete := x; MaxLag := MaxLag r;
                       Partitions := Partitions r; TotalLag := TotalLag r |});
      json.mkField "maxlag" Partition.T MaxLag
        (fun x r => {| Cluster := Cluster r; Group := Group r; Status := Status r;
                       Complete := Complete r; MaxLag := x;
                       Partitions := Partitions r; TotalLag := TotalLag r |});
      json.mkField "partitions" (json.sliceT Partition.T) Partitions
        (fun x r => {| Cluster := Cluster r; Group := Group r; Status := Status r;
                       Complete := Complete r; MaxLag := MaxLag r;
                       Partitions := x; TotalLag := TotalLag r |});
      json.mkField "total_lag" (json.intT "int64" 64) TotalLag
        (fun x r => {| Cluster := Cluster r; Group := Group r; Status := Status r;
                       Complete := Complete r; MaxLag := MaxLag r;
                       Partitions := Partitions r; TotalLag := x |}) ].
Definition T : json.GoType t := json.structT "burrow_exporter.ConsumerGroupStatus" zero fields.
End ConsumerGroupStatus.

Module ConsumerGroupStatusResp.
Record t := { BurrowResp : BurrowResp.t; Status : ConsumerGroupStatus.t }.
Definition zero : t := {| BurrowResp := BurrowResp.zero; Status := ConsumerGroupStatus.zero |}.
Definition fields : list (json.field t) :=
  (BurrowResp.promoted BurrowResp
       (fun e r => {| BurrowResp := e; Status := Status r |})
     ++ [ json.mkField "status" ConsumerGroupStatus.T Status
            (fun x r => {| BurrowResp := BurrowResp r; Status := x |}) ]).
Definition T : json.GoType t := json.structT "burrow_exporter.ConsumerGroupStatusResp" zero fields.
End ConsumerGroupStatusResp.

Module ClusterTopicDetailsResp.
Record t := { BurrowResp : BurrowResp.t; Offsets : json.slice Z }.
Definition zero : t := {| BurrowResp := BurrowResp.zero; Offsets := json.nil_slice |}.
Definition fields : list (json.field t) :=
  (BurrowResp.promoted BurrowResp
       (fun e r => {| BurrowResp := e; Offsets := Offsets r |})
     ++ [ json.mkField "offsets" (json.sliceT (json.intT "int64" 64)) Offsets
            (fun x r => {| BurrowResp := BurrowResp r; Offsets := x |}) ]).
Definition T : json.GoType t := json.structT "burrow_exporter.ClusterTopicDetailsResp" zero fields.
End ClusterTopicDetailsResp.

(** ** Package net/http and the world the client runs in *)

Module http.

(** Why a request did not complete. *)
Inductive failure :=
| ErrConnectionRefused
| ErrTimeout
| ErrNoSuchHost
| ErrOther (msg : string).

(** The [*url.Error] that [Client.Get] returns. *)
Record Error := { Op : string; URL : string; Err : failure }.

(** A response; [BodyId] names its body stream, [Body] is what the
    stream delivers when read to its end. *)
Record Response := { StatusCode : Z; BodyId : nat; Body : string }.

Record Client := { Timeout : Z }.

End http.

Module time.
Definition Second : Z := 1000000000.
End time.

(** The observable effects of a call, in the order they happen. *)
Inductive event :=
| Requested (url : string)
| Opened (body : nat)
| Decoded (body : nat)
| Closed (body : nat)
| Logged (msg : string).

(** The world: how the remote side answers a GET of each URL (a failure
    of the transport, or a status code and a body), and what has happened
    so far. *)
Record World := {
  remote : string -> http.failure + (Z * string);
  trace : list event
}.

Definition emit (e : event) : state World unit :=
  w <- get ;;
  put {| remote := remote w; trace := trace w ++ [e] |}.

Definition is_Opened (e : event) : bool :=
  match e with Opened _ => true | _ => false end.

Definition opened (tr : list event) : nat := List.length (filter is_Opened tr).

(** [client.Get(url)]: exactly one of the response and the error is
    returned. *)
Definition http_Get (c : http.Client) (url : string)
  : state World (http.Response + http.Error) :=
  w <- get ;;
  emit (Requested url) ;;
  match remote w url with
  | inl f => ret (inr {| http.Op := "Get"; http.URL := url; http.Err := f |})
  | inr (status, body) =>
      let id := opened (trace w) in
      emit (Opened id) ;;
      ret (inl {| http.StatusCode := status; http.BodyId := id; http.Body := body |})
  end.

(** [resp.Body.Close()]. *)
Definition Body_Close (resp : http.Response) : state World unit :=
  emit (Closed (http.BodyId resp)).

(** [json.NewDecoder(resp.Body).Decode(dest)].  The body is taken as read
    to its end: a read that fails on the way (the connection reset,
    [Client.Timeout] running out while the body arrives), whose error
    [Decode] would return as it is, has no counterpart here. *)
Definition Decoder_Decode {A} (T : json.GoType A) (resp : http.Response) (dest : A)
  : state World (A * option json.error) :=
  emit (Decoded (http.BodyId resp)) ;;
  ret (json.Decode T (http.Body resp) dest).

(** [log.WithFields(...).Error(msg)]. *)
Definition log_Error (msg : string) : state World unit := emit (Logged msg).

(** [defer d] at the head of [body]: [d] runs when [body] returns. *)
Definition defer {A} (d : state World unit) (body : state World A) : state World A :=
  r <- body ;;
  d ;;
  ret r.

(** The values of Go's [error] interface that the client returns, by
    where they are made. *)
Inductive error :=
| url_Error (e : url.Error)
| http_Error (e : http.Error)
| json_Error (e : json.error)
| errors_New (text : string).

(** ** client.go *)

Module BurrowClient.

Record t := { baseUrl : string; client : http.Client }.

Definition buildUrl (bc : t) (endpoint : string) : state World (string * option error) :=
  match url.Parse (baseUrl bc) with
  | inr err =>
      log_Error "error parsing base url" ;;
      ret ("", Some (url_Error err))
  | inl parsedUrl =>
      let parsedUrl := url.with_Path parsedUrl (path.Join (url.Path parsedUrl) endpoint) in
      ret (url.String_ parsedUrl, None)
  end.

Definition getJsonReq {A} (bc : t) (endpoint : string) (T : json.GoType A) (dest : A)
  : state World (A * option error) :=
  r <- http_Get (client bc) endpoint ;;
  match r with
  | inr err =>
      log_Error "error making request" ;;
      ret (dest, Some (http_Error err))
  | inl resp =>
      defer (Body_Close resp)
        ('(dest, err) <- Decoder_Decode T resp dest ;;
         match err with
         | Some err =>
             log_Error "error decoding json" ;;
             ret (dest, Some (json_Error err))
         | None => ret (dest, None)
         end)
  end.

Definition HealthCheck (bc : t) : state World (bool * option error) :=
  '(endpoint, err) <- buildUrl bc "/burrow/admin" ;;
  match err with
  | Some err => ret (false, Some err)
  | None =>
      r <- http_Get (client bc) endpoint ;;
      match r with
      | inr err => ret (false, Some (http_Error err))
      | inl _ => ret (true, None)
      end
  end.

Definition ListClusters (bc : t) : state World (option ClustersResp.t * option error) :=
  '(endpoint, err) <- buildUrl bc "/v2/kafka" ;;
  match err with
  | Some err => ret (None, Some err)
  | None =>
      '(clusters, err) <- getJsonReq bc endpoint ClustersResp.T ClustersResp.zero ;;
      match err with
      | Some err =>
          log_Error "error retrieving cluster details" ;;
          ret (None, Some err)
      | None =>
          if BurrowResp.Error (ClustersResp.BurrowResp clusters) then
            log_Error "error retrieving clusters" ;;
            ret (None, Some (errors_New
                               (BurrowResp.Message (ClustersResp.BurrowResp clusters))))
          else ret (Some clusters, None)
      end
  end.

Definition ClusterDetails (bc : t) (cluster : string)
  : state World (option ClusterDetailsResp.t * option error) :=
  '(endpoint, err) <- buildUrl bc ("/v2/kafka/" ++ cluster) ;;
  match err with
  | Some err => ret (None, Some err)
  | None =>
      '(clusterDetails, err) <-
        getJsonReq bc endpoint ClusterDetailsResp.T ClusterDetailsResp.zero ;;
      match err with
      | Some err =>
          log_Error "error retrieving cluster details" ;;
          ret (None, Some err)
      | None =>
          if BurrowResp.Error (ClusterDetailsResp.BurrowResp clusterDetails) then
            log_Error "error retrieving cluster details" ;;
            ret (None, Some (errors_New
                               (BurrowResp.Message
                                  (ClusterDetailsResp.BurrowResp clusterDetails))))
          else ret (Some clusterDetails, None)
      end
  end.

Definition ListConsumers (bc : t) (cluster : string)
  : state World (option ConsumerGroupsResp.t * option error) :=
  '(endpoint, err) <- buildUrl bc ("/v2/kafka/" ++ cluster ++ "/consumer") ;;
  match err with
  | Some err => ret (None, Some err)
  | None =>
      '(consumers, err) <-
        getJsonReq bc endpoint ConsumerGroupsResp.T ConsumerGroupsResp.zero ;;
      match err with
      | Some err =>
          log_Error "error retrieving consumer groups" ;;
          ret (None, Some err)
      | None =>
          if BurrowResp.Error (ConsumerGroupsResp.BurrowResp consumers) then
            log_Error "error retrieving cluster consumer groups" ;;
            ret (None, Some (errors_New
                               (BurrowResp.Message
                                  (ConsumerGroupsResp.BurrowResp consumers))))
          else ret (Some consumers, None)
      end
  end.

Definition ListConsumerTopics (bc : t) (cluster consumerGroup : string)
  : state World (option ConsumerGroupTopicsResp.t * option error) :=
  '(endpoint, err) <-
    buildUrl bc ("/v2/kafka/" ++ cluster ++ "/consumer/" ++ consumerGroup ++ "/topic") ;;
  match err with
  | Some err => ret (None, Some err)
  | None =>
      '(consumerTopics, err) <-
        getJsonReq bc endpoint ConsumerGroupTopicsResp.T ConsumerGroupTopicsResp.zero ;;
      match err with
      | Some err =>
          log_Error "error retrieving consumer group topics" ;;
          ret (None, Some err)
      | None =>
          if BurrowResp.Error (ConsumerGroupTopicsResp.BurrowResp consumerTopics) then
            log_Error "error retriving consumer group topics" ;;
            ret (None, Some (errors_New
                               (BurrowResp.Message
                                  (ConsumerGroupTopicsResp.BurrowResp consumerTopics))))
          else ret (Some consumerTopics, None)
      end
  end.

Definition ConsumerGroupTopicDetails (bc : t) (cluster consumerGroup topic : string)
  : state World (option ConsumerGroupTopicDetailsResp.t * option error) :=
  '(endpoint, err) <-
    buildUrl bc ("/v2/kafka/" ++ cluster ++ "/consumer/" ++ consumerGroup
                 ++ "/topic/" ++ topic) ;;
  match err with
  | Some err => ret (None, Some err)
  | None =>
      '(topicDetails, err) <-
        getJsonReq bc endpoint ConsumerGroupTopicDetailsResp.T
          ConsumerGroupTopicDetailsResp.zero ;;
      match err with
      | Some err =>
          log_Error "error retrieving consumer group topic details" ;;
          ret (None, Some err)
      | None =>
          if BurrowResp.Error (ConsumerGroupTopicDetailsResp.BurrowResp topicDetails) then
            log_Error "error retrieving consumer group topic details" ;;
            ret (None, Some (errors_New
                               (BurrowResp.Message
                                  (ConsumerGroupTopicDetailsResp.BurrowResp topicDetails))))
          else ret (Some topicDetails, None)
      end
  end.

Definition ConsumerGroupStatus (bc : t) (cluster consumerGroup : string)
  : state World (option ConsumerGroupStatusResp.t * option error) :=
  '(endpoint, err) <-
    buildUrl bc ("/v2/kafka/" ++ cluster ++ "/consumer/" ++ consumerGroup ++ "/status") ;;
  match err with
  | Some err => ret (None, Some err)
  | None =>
      '(status, err) <-
        getJsonReq bc endpoint ConsumerGroupStatusResp.T ConsumerGroupStatusResp.zero ;;
      match err with
      | Some err =>
          log_Error "error retrieving consumer group status" ;;
          ret (None, Some err)
      | None =>
          if BurrowResp.Error (ConsumerGroupStatusResp.BurrowResp status) then
            log_Error "error retrieving consumer group status" ;;
            ret (None, Some (errors_New
                               (BurrowResp.Message
                                  (ConsumerGroupStatusResp.BurrowResp status))))
          else ret (Some status, None)
      end
  end.

Definition ConsumerGroupLag (bc : t) (cluster consumerGroup : string)
  : state World (option ConsumerGroupStatusResp.t * option error) :=
  '(endpoint, err) <-
    buildUrl bc ("/v2/kafka/" ++ cluster ++ "/consumer/" ++ consumerGroup ++ "/lag") ;;
  match err with
  | Some err => ret (None, Some err)
  | None =>
      '(status, err) <-
        getJsonReq bc endpoint ConsumerGroupStatusResp.T ConsumerGroupStatusResp.zero ;;
      match err with
      | Some err =>
          log_Error "error retrieving consumer group status" ;;
          ret (None, Some err)
      | None =>
          if BurrowResp.Error (ConsumerGroupStatusResp.BurrowResp status) then
            log_Error "error retrieving consumer group status" ;;
            ret (None, Some (errors_New
                               (BurrowResp.Message
                                  (ConsumerGroupStatusResp.BurrowResp status))))
          else ret (Some status, None)
      end
  end.

Definition ClusterTopicDetails (bc : t) (cluster topic : string)
  : state World (option ClusterTopicDetailsResp.t * option error) :=
  '(endpoint, err) <- buildUrl bc ("/v2/kafka/" ++ cluster ++ "/topic/" ++ topic) ;;
  match err with
  | Some err => ret (None, Some err)
  | None =>
      '(topicDetails, err) <-
        getJsonReq bc endpoint ClusterTopicDetailsResp.T ClusterTopicDetailsResp.zero ;;
      match err with
      | Some err =>
          log_Error "error retrieving consumer group topic details" ;;
          ret (None, Some err)
      | None =>
          if BurrowResp.Error (ClusterTopicDetailsResp.BurrowResp topicDetails) then
            log_Error "error retrieving consumer group topicDetails" ;;
            ret (None, Some (errors_New
                               (BurrowResp.Message
                                  (ClusterTopicDetailsResp.BurrowResp topicDetails))))
          else ret (Some topicDetails, None)
      end
  end.

End BurrowClient.

Definition MakeBurrowClient (baseUrl : string) : BurrowClient.t :=
  {| BurrowClient.baseUrl := baseUrl;
     BurrowClient.client := {| http.Timeout := 10 * time.Second |} |}.

(** ** The typed operations, uniformly

    Every typed operation is the same round trip: build the URL, fetch and
    decode into a fresh response struct, check the envelope.  [Op] names
    the operations with their arguments, so that a statement about every
    typed operation can quantify over them. *)

Inductive Op :=
| OpListClusters
| OpClusterDetails (cluster : string)
| OpListConsumers (cluster : string)
| OpListConsumerTopics (cluster consumerGroup : string)
| OpConsumerGroupTopicDetails (cluster consumerGroup topic : string)
| OpConsumerGroupStatus (cluster consumerGroup : string)
| OpConsumerGroupLag (cluster consumerGroup : string)
| OpClusterTopicDetails (cluster topic : string).

Definition Resp (op : Op) : Type :=
  match op with
  | OpListClusters => ClustersResp.t
  | OpClusterDetails _ => ClusterDetailsResp.t
  | OpListConsumers _ => ConsumerGroupsResp.t
  | OpListConsumerTopics _ _ => ConsumerGroupTopicsResp.t
  | OpConsumerGroupTopicDetails _ _ _ => ConsumerGroupTopicDetailsResp.t
  | OpConsumerGroupStatus _ _ => ConsumerGroupStatusResp.t
  | OpConsumerGroupLag _ _ => ConsumerGroupStatusResp.t
  | OpClusterTopicDetails _ _ => ClusterTopicDetailsResp.t
  end.

Definition call (bc : BurrowClient.t) (op : Op)
  : state World (option (Resp op) * option error) :=
  match op with
  | OpListClusters => BurrowClient.ListClusters bc
  | OpClusterDetails c => BurrowClient.ClusterDetails bc c
  | OpListConsumers c => BurrowClient.ListConsumers bc c
  | OpListConsumerTopics c g => BurrowClient.ListConsumerTopics bc c g
  | OpConsumerGroupTopicDetails c g t => BurrowClient.ConsumerGroupTopicDetails bc c g t
  | OpConsumerGroupStatus c g => BurrowClient.ConsumerGroupStatus bc c g
  | OpConsumerGroupLag c g => BurrowClient.ConsumerGroupLag bc c g
  | OpClusterTopicDetails c t => BurrowClient.ClusterTopicDetails bc c t
  end.

(** The type each operation decodes into. *)
Definition respType (op : Op) : json.GoType (Resp op) :=
  match op with
  | OpListClusters => ClustersResp.T
  | OpClusterDetails _ => ClusterDetailsResp.T
  | OpListConsumers _ => ConsumerGroupsResp.T
  | OpListConsumerTopics _ _ => ConsumerGroupTopicsResp.T
  | OpConsumerGroupTopicDetails _ _ _ => ConsumerGroupTopicDetailsResp.T
  | OpConsumerGroupStatus _ _ => ConsumerGroupStatusResp.T
  | OpConsumerGroupLag _ _ => ConsumerGroupStatusResp.T
  | OpClusterTopicDetails _ _ => ClusterTopicDetailsResp.T
  end.

(** The envelope embedded in each operation's response. *)
Definition envelope (op : Op) : Resp op -> BurrowResp.t :=
  match op with
  | OpListClusters => ClustersResp.BurrowResp
  | OpClusterDetails _ => ClusterDetailsResp.BurrowResp
  | OpListConsumers _ => ConsumerGroupsResp.BurrowResp
  | OpListConsumerTopics _ _ => ConsumerGroupTopicsResp.BurrowResp
  | OpConsumerGroupTopicDetails _ _ _ => ConsumerGroupTopicDetailsResp.BurrowResp
  | OpConsumerGroupStatus _ _ => ConsumerGroupStatusResp.BurrowResp
  | OpConsumerGroupLag _ _ => ConsumerGroupStatusResp.BurrowResp
  | OpClusterTopicDetails _ _ => ClusterTopicDetailsResp.BurrowResp
  end.

(** The endpoint each operation hands to [buildUrl]. *)
Definition endpointOf (op : Op) : string :=
  match op with
  | OpListClusters => "/v2/kafka"
  | OpClusterDetails c => "/v2/kafka/" ++ c
  | OpListConsumers c => "/v2/kafka/" ++ c ++ "/consumer"
  | OpListConsumerTopics c g => "/v2/kafka/" ++ c ++ "/consumer/" ++ g ++ "/topic"
  | OpConsumerGroupTopicDetails c g t =>
      "/v2/kafka/" ++ c ++ "/consumer/" ++ g ++ "/topic/" ++ t
  | OpConsumerGroupStatus c g => "/v2/kafka/" ++ c ++ "/consumer/" ++ g ++ "/status"
  | OpConsumerGroupLag c g => "/v2/kafka/" ++ c ++ "/consumer/" ++ g ++ "/lag"
  | OpClusterTopicDetails c t => "/v2/kafka/" ++ c ++ "/topic/" ++ t
  end.

(** What each operation logs when the fetch fails, and when the envelope
    carries an error. *)
Definition fetchMsg (op : Op) : string :=
  match op with
  | OpListClusters | OpClusterDetails _ => "error retrieving cluster details"
  | OpListConsumers _ => "error retrieving consumer groups"
  | OpListConsumerTopics _ _ => "error retrieving consumer group topics"
  | OpConsumerGroupTopicDetails _ _ _ | OpClusterTopicDetails _ _ =>
      "error retrieving consumer group topic details"
  | OpConsumerGroupStatus _ _ | OpConsumerGroupLag _ _ =>
      "error retrieving consumer group status"
  end.

Definition remoteMsg (op : Op) : string :=
  match op with
  | OpListClusters => "error retrieving clusters"
  | OpClusterDetails _ => "error retrieving cluster details"
  | OpListConsumers _ => "error retrieving cluster consumer groups"
  | OpListConsumerTopics _ _ => "error retriving consumer group topics"
  | OpConsumerGroupTopicDetails _ _ _ => "error retrieving consumer group topic details"
  | OpConsumerGroupStatus _ _ | OpConsumerGroupLag _ _ =>
      "error retrieving consumer group status"
  | OpClusterTopicDetails _ _ => "error retrieving consumer group topicDetails"
  end.

(** The URL [buildUrl] computes from a base address that parses. *)
Definition builtUrl (u : url.URL) (endpoint : string) : string :=
  url.String_ (url.with_Path u (path.Join (url.Path u) endpoint)).

(** The world after some more events. *)
Definition after (w : World) (evs : list event) : World :=
  {| remote := remote w; trace := trace w ++ evs |}.

(** The round trip of a typed operation, in one expression: what it
    returns and the events it adds, by the case the call falls in. *)
Definition roundTrip {A} (T : json.GoType A) (env : A -> BurrowResp.t)
           (bc : BurrowClient.t) (endpoint fetch logical : string) (w : World)
  : (option A * option error) * World :=
  match url.Parse (BurrowClient.baseUrl bc) with
  | inr e => ((None, Some (url_Error e)), after w [Logged "error parsing base url"])
  | inl u =>
      let target := builtUrl u endpoint in
      match remote w target with
      | inl f =>
          ((None, Some (http_Error {| http.Op := "Get"; http.URL := target;
                                      http.Err := f |})),
           after w [Requested target; Logged "error making request"; Logged fetch])
      | inr (status, body) =>
          let id := opened (trace w) in
          match json.Decode T body (json.zero T) with
          | (_, Some e) =>
              ((None, Some (json_Error e)),
               after w [Requested target; Opened id; Decoded id;
                        Logged "error decoding json"; Closed id; Logged fetch])
          | (dest, None) =>
              if BurrowResp.Error (env dest) then
                ((None, Some (errors_New (BurrowResp.Message (env dest)))),
                 after w [Requested target; Opened id; Decoded id; Closed id;
                          Logged logical])
              else
                ((Some dest, None),
                 after w [Requested target; Opened id; Decoded id; Closed id])
          end
      end
  end.

(** Closes a goal that equates two runs up to the bracketing of the
    trace. *)
Ltac same_trace :=
  cbn; unfold after; cbn; rewrite <- ?app_assoc; cbn; reflexivity.

(** ** What a call did

    The error kinds the client's errors fall in, by where the error was
    made, and the readings of a trace the statements below use. *)

Inductive ErrorKind :=
| UrlConstructionError
| TransportError
| DecodeError
| RemoteLogicalError.

Definition kind (e : error) : ErrorKind :=
  match e with
  | url_Error _ => UrlConstructionError
  | http_Error _ => TransportError
  | json_Error _ => DecodeError
  | errors_New _ => RemoteLogicalError
  end.

(** The URLs requested, in order. *)
Definition requests (tr : list event) : list string :=
  flat_map (fun e => match e with Requested u => [u] | _ => [] end) tr.

(** The bodies handed to the JSON decoder. *)
Definition decodes (tr : list event) : list nat :=
  flat_map (fun e => match e with Decoded b => [b] | _ => [] end) tr.

Definition opens (tr : list event) : list nat :=
  flat_map (fun e => match e with Opened b => [b] | _ => [] end) tr.

Definition closes (tr : list event) : list nat :=
  flat_map (fun e => match e with Closed b => [b] | _ => [] end) tr.

(** The bodies opened and never closed. *)
Definition leaked (tr : list event) : list nat :=
  filter (fun b => negb (existsb (Nat.eqb b) (closes tr))) (opens tr).

(** A world in which nothing has happened yet and every GET is answered
    by [answer]. *)
Definition fresh (answer : string -> http.failure + (Z * string)) : World :=
  {| remote := answer; trace := [] |}.

(** ** Sample clients and worlds *)

Definition burrow : BurrowClient.t := MakeBurrowClient "http://localhost:8000".

(** The base address of [burrow], parsed. *)
Definition localhost : url.URL :=
  {| url.Scheme := "http"; url.Opaque := ""; url.User := None;
     url.Host := "localhost:8000"; url.Path := ""; url.RawPath := "";
     url.OmitHost := false; url.ForceQuery := false; url.RawQuery := "";
     url.Fragment := ""; url.RawFragment := "" |}.

(** Every GET is answered with status 200 and [body]. *)
Definition answering (body : string) : World := fresh (fun _ => inr (200%Z, body)).

(** No GET gets through. *)
Definition unreachable : World := fresh (fun _ => inl http.ErrConnectionRefused).

(** A logical error of the remote side, with a payload all the same. *)
Definition noSuchCluster : string :=
  text "{'error': true, 'message': 'no such cluster', 'cluster': {'brokers': ['b1'], 'broker_port': 9092}}".

(** ** Endpoints *)

(** The endpoint of each operation as the operation table of the
    specification writes it, without the version prefix of the code. *)
Definition tableEndpoint (op : Op) : string :=
  match op with
  | OpListClusters => "/kafka"
  | OpClusterDetails c => "/kafka/" ++ c
  | OpListConsumers c => "/kafka/" ++ c ++ "/consumer"
  | OpListConsumerTopics c g => "/kafka/" ++ c ++ "/consumer/" ++ g ++ "/topic"
  | OpConsumerGroupTopicDetails c g t =>
      "/kafka/" ++ c ++ "/consumer/" ++ g ++ "/topic/" ++ t
  | OpConsumerGroupStatus c g => "/kafka/" ++ c ++ "/consumer/" ++ g ++ "/status"
  | OpConsumerGroupLag c g => "/kafka/" ++ c ++ "/consumer/" ++ g ++ "/lag"
  | OpClusterTopicDetails c t => "/kafka/" ++ c ++ "/topic/" ++ t
  end.

(** The health check's endpoint in the same table. *)
Definition tableHealthEndpoint : string := "/admin".

(** The URL the client builds for an endpoint, when it builds one. *)
Definition urlFor (bc : BurrowClient.t) (endpoint : string) (w : World) : string :=
  fst (fst (runState (BurrowClient.buildUrl bc endpoint) w)).

(** The requests on record once a computation has run. *)
Definition requestsOf {A} (m : state World A) (w : World) : list string :=
  requests (trace (snd (runState m w))).

(** ** Decoding *)

(** [json.Valid]: the whole text is one JSON value, blanks around it
    apart. *)
Definition json_Valid (data : string) : bool :=
  match json.readValue data with
  | json.ReadValue _ rest => strings.all json.isSpace rest
  | json.ReadError _ => false
  end.

(** The field table each operation's response is decoded with. *)
Definition respFields (op : Op) : list (json.field (Resp op)) :=
  match op with
  | OpListClusters => ClustersResp.fields
  | OpClusterDetails _ => ClusterDetailsResp.fields
  | OpListConsumers _ => ConsumerGroupsResp.fields
  | OpListConsumerTopics _ _ => ConsumerGroupTopicsResp.fields
  | OpConsumerGroupTopicDetails _ _ _ => ConsumerGroupTopicDetailsResp.fields
  | OpConsumerGroupStatus _ _ => ConsumerGroupStatusResp.fields
  | OpConsumerGroupLag _ _ => ConsumerGroupStatusResp.fields
  | OpClusterTopicDetails _ _ => ClusterTopicDetailsResp.fields
  end.

(** The JSON name of the field of the operation's response that a member
    key is stored into, if any: [error], [message], or the payload's. *)
Definition fieldNamed (op : Op) (key : string) : option string :=
  option_map json.name (json.findField (respFields op) key).

(** The payload of each operation's response: its type, the field that
    holds it and the JSON name of that field. *)
Definition Payload (op : Op) : Type :=
  match op with
  | OpListClusters => json.slice string
  | OpClusterDetails _ => ClusterDetails.t
  | OpListConsumers _ => json.slice string
  | OpListConsumerTopics _ _ => json.slice string
  | OpConsumerGroupTopicDetails _ _ _ => json.slice Z
  | OpConsumerGroupStatus _ _ => ConsumerGroupStatus.t
  | OpConsumerGroupLag _ _ => ConsumerGroupStatus.t
  | OpClusterTopicDetails _ _ => json.slice Z
  end.

Definition payload (op : Op) : Resp op -> Payload op :=
  match op with
  | OpListClusters => ClustersResp.Clusters
  | OpClusterDetails _ => ClusterDetailsResp.Cluster
  | OpListConsumers _ => ConsumerGroupsResp.ConsumerGroups
  | OpListConsumerTopics _ _ => ConsumerGroupTopicsResp.Topics
  | OpConsumerGroupTopicDetails _ _ _ => ConsumerGroupTopicDetailsResp.Offsets
  | OpConsumerGroupStatus _ _ => ConsumerGroupStatusResp.Status
  | OpConsumerGroupLag _ _ => ConsumerGroupStatusResp.Status
  | OpClusterTopicDetails _ _ => ClusterTopicDetailsResp.Offsets
  end.

Definition payloadName (op : Op) : string :=
  match op with
  | OpListClusters => "clusters"
  | OpClusterDetails _ => "cluster"
  | OpListConsumers _ => "consumers"
  | OpListConsumerTopics _ _ => "topics"
  | OpConsumerGroupTopicDetails _ _ _ => "offsets"
  | OpConsumerGroupStatus _ _ => "status"
  | OpConsumerGroupLag _ _ => "status"
  | OpClusterTopicDetails _ _ => "offsets"
  end.

(** ** Building URLs from a plain base address *)

(** The unreserved bytes of RFC 3986: letters, digits and [-_.~]. *)
Definition unreserved (c : byte) : bool := is_alnum c || byte_in c "-_.~".

Definition plain (s : string) : bool := strings.all unreserved s.

(** The bytes of a path that needs no encoding, and of a query written
    as [key=value&...]. *)
Definition pathChar (c : byte) : bool := unreserved c || Ascii.eqb c "/".

Definition queryChar (c : byte) : bool := unreserved c || byte_in c "=&".

Definition rootedOrEmpty (s : string) : bool :=
  match s with
  | EmptyString => true
  | String c _ => Ascii.eqb c "/"
  end.

(** A query or a fragment behind its mark, or nothing when it is
    absent. *)
Definition withMark (mark s : string) : string :=
  if s =? "" then "" else mark ++ s.

(** The base address http://host:port/prefix?query#fragment. *)
Definition baseAddress (host port prefix query fragment : string) : string :=
  "http://" ++ host ++ ":" ++ port ++ prefix
  ++ withMark "?" query ++ withMark "#" fragment.

(** No two slashes in a row. *)
Fixpoint noDoubleSlash (s : string) : bool :=
  match s with
  | EmptyString => true
  | String a s' =>
      negb (Ascii.eqb a "/" && strings.HasPrefix s' "/") && noDoubleSlash s'
  end.

(** A fact about every byte, by going through all 256 of them. *)
Ltac by_bytes c :=
  destruct c as [[|] [|] [|] [|] [|] [|] [|] [|]];
  try reflexivity; try (intros; discriminate).

(** Every byte but [c]. *)
Definition isnt (c : byte) : byte -> bool := fun a => negb (Ascii.eqb a c).

(** Bytes that [unescape] copies as they are in [mode]. *)
Definition literalIn (mode : url.encoding) (c : byte) : bool :=
  negb (Ascii.eqb c "%") && negb (Ascii.eqb c "+")
  && negb (url.host_mode mode && (code c <? 128)%N && url.shouldEscape c url.encodeHost).

(** Not an ASCII control byte. *)
Definition notCTL (c : byte) : bool := negb ((code c <? 32)%N || (code c =? 127)%N).

(** ** Further readings of the client and of its runs *)

(** Two worlds answer alike when every GET fails the same way in both or
    is answered with the same body in both, whatever the status codes. *)
Definition sameBodies (w1 w2 : World) : Prop :=
  forall target,
    match remote w1 target, remote w2 target with
    | inl f1, inl f2 => f1 = f2
    | inr (_, b1), inr (_, b2) => b1 = b2
    | _, _ => False
    end.

(** A member whose key names a field of the operation's response. *)
Definition known (op : Op) (m : string * json.value) : bool :=
  match fieldNamed op (fst m) with
  | Some _ => true
  | None => false
  end.

(** The lines logged. *)
Definition logs (tr : list event) : list string :=
  flat_map (fun e => match e with Logged m => [m] | _ => [] end) tr.

(** ** Sessions *)

(** What a caller asks for: the health check or a typed operation. *)
Inductive Request :=
| Health
| Typed (op : Op).

(** The calls of a caller, one after the other on the same client. *)
Fixpoint session (bc : BurrowClient.t) (rs : list Request) : state World unit :=
  match rs with
  | [] => ret tt
  | Health :: rs' => BurrowClient.HealthCheck bc ;; session bc rs'
  | Typed op :: rs' => call bc op ;; session bc rs'
  end.

Definition healthChecks (rs : list Request) : nat :=
  List.length (filter (fun r => match r with Health => true | Typed _ => false end) rs).

(** Whether the GET of the health check is answered. *)
Definition answered (bc : BurrowClient.t) (w : World) : bool :=
  match url.Parse (BurrowClient.baseUrl bc) with
  | inl u => match remote w (builtUrl u "/burrow/admin") with
             | inr _ => true
             | inl _ => false
             end
  | inr _ => false
  end.

(** The body numbers on record are those handed out so far. *)
Definition numbered (tr : list event) : Prop :=
  forall id, In id (opens tr ++ closes tr)%list -> id < opened tr.

(** ** Path segments *)

(** A path segment that [path.Clean] keeps as it is: written with
    unreserved bytes, not empty, and neither [.] nor [..]. *)
Definition segment (s : string) : bool :=
  plain s && negb (s =? "") && negb (s =? ".") && negb (s =? "..").

(** The rooted path made of the segments, [""] when there is none. *)
Fixpoint rootPath (segs : list string) : string :=
  match segs with
  | [] => ""
  | s :: segs' => "/" ++ s ++ rootPath segs'
  end.

(** The arguments of an operation. *)
Definition args (op : Op) : list string :=
  match op with
  | OpListClusters => []
  | OpClusterDetails c | OpListConsumers c => [c]
  | OpListConsumerTopics c g | OpConsumerGroupStatus c g | OpConsumerGroupLag c g => [c; g]
  | OpConsumerGroupTopicDetails c g t => [c; g; t]
  | OpClusterTopicDetails c t => [c; t]
  end.

(** The bytes a URL scheme is written with that [url.Parse] leaves as
    they are: lower-case letters, digits and [+-.]. *)
Definition schemeChar (c : byte) : bool :=
  is_lower c || is_digit c || byte_in c "+-.".


(** ** Bodies the remote side sends *)

(** The scanner after the bytes of [p], when it wants more. *)
Fixpoint scans (s : json.scanner) (p : string) : option json.scanner :=
  match p with
  | EmptyString => Some s
  | String c p' =>
      match json.scan s c with
      | json.scanContinue s' => scans s' p'
      | _ => None
      end
  end.

(** The scanner where an element of the array on top of [st] may begin,
    [es] being the elements read so far, last one first. *)
Definition inArray (stp : json.step_state) (es : list json.value) (st : list json.frame)
  : json.scanner :=
  {| json.step := stp; json.parseState := json.parseArrayValue es :: st;
     json.literal := ""; json.top := None |}.

Definition begins (stp : json.step_state) : Prop :=
  stp = json.stateBeginValue \/ stp = json.stateBeginValueOrEmpty.

(** The text [lit] is read as the value [v] wherever it stands as an
    element of an array, before a comma or before the closing bracket. *)
Definition readsAs (lit : string) (v : json.value) : Prop :=
  forall stp es st,
    begins stp ->
    scans (inArray stp es st) (lit ++ ",") = Some (inArray json.stateBeginValue (v :: es) st)
    /\ exists s',
        scans (inArray stp es st) lit = Some s'
        /\ json.scan s' "]" = json.closeValue st (json.Array (rev (v :: es))) "]".

(** The bytes a JSON string literal holds as they are: ASCII, no control
    byte, no double quote and no backslash. *)
Definition literalByte (c : byte) : bool :=
  (32 <=? code c)%N && (code c <? 128)%N
  && negb (Ascii.eqb c dquote) && negb (Ascii.eqb c "\").

(** The string literal for a string of such bytes. *)
Definition quote (s : string) : string := String dquote (s ++ String dquote "").

(** An integer in decimal. *)
Definition decimal (z : Z) : string :=
  DecimalString.NilZero.string_of_int (Z.to_int z).

(** The body of a list response: the flag down, and the array of the
    items under [key]. *)
Definition listBody (key : string) (items : list string) : string :=
  text "{'error':false,'" ++ key ++ text "':[" ++ String.concat "," items ++ "]}".

(** The operations that return a list of names, and the names. *)
Definition listOp (op : Op) : bool :=
  match op with
  | OpListClusters | OpListConsumers _ | OpListConsumerTopics _ _ => true
  | _ => false
  end.

Definition namesOf (op : Op) : Resp op -> option (list string) :=
  match op with
  | OpListClusters => fun r => Some (json.elems (ClustersResp.Clusters r))
  | OpListConsumers _ => fun r => Some (json.elems (ConsumerGroupsResp.ConsumerGroups r))
  | OpListConsumerTopics _ _ => fun r => Some (json.elems (ConsumerGroupTopicsResp.Topics r))
  | _ => fun _ => None
  end.

(** The operations that return a list of offsets, and the offsets. *)
Definition offsetsOp (op : Op) : bool :=
  match op with
  | OpConsumerGroupTopicDetails _ _ _ | OpClusterTopicDetails _ _ => true
  | _ => false
  end.

Definition offsetsOf (op : Op) : Resp op -> option (list Z) :=
  match op with
  | OpConsumerGroupTopicDetails _ _ _ =>
      fun r => Some (json.elems (ConsumerGroupTopicDetailsResp.Offsets r))
  | OpClusterTopicDetails _ _ =>
      fun r => Some (json.elems (ClusterTopicDetailsResp.Offsets r))
  | _ => fun _ => None
  end.

(** The range of a signed integer kind, and of [int64]. *)
Definition inRange (bitSize z : Z) : bool :=
  ((- 2 ^ (bitSize - 1) <=? z) && (z <? 2 ^ (bitSize - 1)))%Z.

Definition inInt64 (z : Z) : bool := inRange 64 z.

(** The bytes that cannot end the path of a URL or make [url.Parse]
    refuse it: no control byte, no [#] and no [?]. *)
Definition pathSafe (c : byte) : bool := notCTL c && isnt "#" c && isnt "?" c.

(** ** Payloads as JSON values *)

(** The value trees of the payloads, with the keys Burrow writes them
    with: numbers in decimal, lists as arrays. *)
Definition num (z : Z) : json.value := json.Number (decimal z).

Definition offsetValue (o : Offset.t) : json.value :=
  json.Object [("offset", num (Offset.Offset o));
               ("timestamp", num (Offset.Timestamp o));
               ("lag", num (Offset.Lag o))].

Definition partitionValue (p : Partition.t) : json.value :=
  json.Object [("topic", json.Str (Partition.Topic p));
               ("partition", num (Partition.Partition p));
               ("status", json.Str (Partition.Status p));
               ("start", offsetValue (Partition.Start p));
               ("end", offsetValue (Partition.End_ p))].

Definition statusValue (s : ConsumerGroupStatus.t) : json.value :=
  json.Object [("cluster", json.Str (ConsumerGroupStatus.Cluster s));
               ("group", json.Str (ConsumerGroupStatus.Group s));
               ("status", json.Str (ConsumerGroupStatus.Status s));
               ("complete", json.Bool (ConsumerGroupStatus.Complete s));
               ("maxlag", partitionValue (ConsumerGroupStatus.MaxLag s));
               ("partitions",
                json.Array (map partitionValue
                              (json.elems (ConsumerGroupStatus.Partitions s))));
               ("total_lag", num (ConsumerGroupStatus.TotalLag s))].

Definition clusterValue (c : ClusterDetails.t) : json.value :=
  json.Object [("brokers", json.Array (map json.Str (json.elems (ClusterDetails.Brokers c))));
               ("zookeepers",
                json.Array (map json.Str (json.elems (ClusterDetails.Zookeepers c))));
               ("broker_port", num (ClusterDetails.BrokerPort c));
               ("zookeeper_port", num (ClusterDetails.ZookeeperPort c));
               ("offsets_topic", json.Str (ClusterDetails.OffsetsTopic c))].

(** The numbers of a payload are within the ranges of their fields. *)
Definition offsetFits (o : Offset.t) : bool :=
  inRange 64 (Offset.Offset o) && inRange 64 (Offset.Timestamp o)
  && inRange 64 (Offset.Lag o).

Definition partitionFits (p : Partition.t) : bool :=
  inRange 32 (Partition.Partition p) && offsetFits (Partition.Start p)
  && offsetFits (Partition.End_ p).

Definition statusFits (s : ConsumerGroupStatus.t) : bool :=
  partitionFits (ConsumerGroupStatus.MaxLag s)
  && forallb partitionFits (json.elems (ConsumerGroupStatus.Partitions s))
  && inRange 64 (ConsumerGroupStatus.TotalLag s).

Definition clusterFits (c : ClusterDetails.t) : bool :=
  inRange 64 (ClusterDetails.BrokerPort c) && inRange 64 (ClusterDetails.ZookeeperPort c).

(** The operations that return a status, and the status. *)
Definition statusOp (op : Op) : bool :=
  match op with
  | OpConsumerGroupStatus _ _ | OpConsumerGroupLag _ _ => true
  | _ => false
  end.

Definition statusOf (op : Op) : Resp op -> option ConsumerGroupStatus.t :=
  match op with
  | OpConsumerGroupStatus _ _ | OpConsumerGroupLag _ _ =>
      fun r => Some (ConsumerGroupStatusResp.Status r)
  | _ => fun _ => None
  end.

(** A composite is never held as the top-level value, nor as the value
    of a literal being read: the end of a composite at the top level
    ends the reading at once. *)
Definition scalar (v : json.value) : Prop :=
  match v with
  | json.Object _ | json.Array _ => False
  | _ => True
  end.

Definition scalarTop (s : json.scanner) : Prop :=
  match json.top s with
  | Some v => scalar v
  | None => True
  end
  /\ match json.step s with
     | json.stateLiteral _ _ v => scalar v
     | _ => True
     end.

(** The URL a request of a session is for. *)
Definition target (u : url.URL) (r : Request) : string :=
  match r with
  | Health => builtUrl u "/burrow/admin"
  | Typed op => builtUrl u (endpointOf op)
  end.

(** ** The shapes of the responses

    Whether the decoder accepts a JSON value for a Go type depends on the
    type through its shape only: the kind of each field, the width of
    each integer, the JSON names of the fields of each struct. *)

Inductive shape :=
| boolS
| stringS
| intS (bitSize : Z)
| sliceS (elem : shape)
| structS (fields : list (string * shape)).

(** The shape of the field a key names: the field with exactly that
    name, else the first one whose name is the same up to case. *)
Definition fieldShape (fields : list (string * shape)) (key : string) : option shape :=
  match find (fun f => fst f =? key) fields with
  | Some f => Some (snd f)
  | None =>
      option_map snd
        (find (fun f => json.foldName (fst f) =? json.foldName key) fields)
  end.

(** A JSON value fits a shape: null fits every shape; a boolean fits a
    boolean and a string a string; a number fits an integer of a width
    when [strconv.ParseInt] accepts its literal for that width, so that a
    fraction or an exponent never fits; an array fits a slice when each
    of its elements fits the element shape; an object fits a struct when
    each member whose key names a field fits that field, the members
    that name no field being left aside.  Nothing else fits. *)
Fixpoint fits (s : shape) (v : json.value) {struct v} : bool :=
  match v with
  | json.Null => true
  | json.Bool _ => match s with boolS => true | _ => false end
  | json.Str _ => match s with stringS => true | _ => false end
  | json.Number lit =>
      match s with
      | intS bitSize =>
          match json.ParseInt lit bitSize with Some _ => true | None => false end
      | _ => false
      end
  | json.Array vs =>
      match s with
      | sliceS elem => forallb (fits elem) vs
      | _ => false
      end
  | json.Object ms =>
      match s with
      | structS fields =>
          forallb (fun m => match fieldShape fields (fst m) with
                            | Some e => fits e (snd m)
                            | None => true
                            end) ms
      | _ => false
      end
  end.

(** The shapes of the structs of client.go, from their declarations. *)
Definition envelopeS (key : string) (payload : shape) : shape :=
  structS [("error", boolS); ("message", stringS); (key, payload)].

Definition clusterS : shape :=
  structS [("brokers", sliceS stringS); ("zookeepers", sliceS stringS);
           ("broker_port", intS 64); ("zookeeper_port", intS 64);
           ("offsets_topic", stringS)].

Definition offsetS : shape :=
  structS [("offset", intS 64); ("timestamp", intS 64); ("lag", intS 64)].

Definition partitionS : shape :=
  structS [("topic", stringS); ("partition", intS 32); ("status", stringS);
           ("start", offsetS); ("end", offsetS)].

Definition statusS : shape :=
  structS [("cluster", stringS); ("group", stringS); ("status", stringS);
           ("complete", boolS); ("maxlag", partitionS);
           ("partitions", sliceS partitionS); ("total_lag", intS 64)].

(** The shape of the response of each operation. *)
Definition shapeOf (op : Op) : shape :=
  match op with
  | OpListClusters => envelopeS "clusters" (sliceS stringS)
  | OpClusterDetails _ => envelopeS "cluster" clusterS
  | OpListConsumers _ => envelopeS "consumers" (sliceS stringS)
  | OpListConsumerTopics _ _ => envelopeS "topics" (sliceS stringS)
  | OpConsumerGroupTopicDetails _ _ _ => envelopeS "offsets" (sliceS (intS 64))
  | OpConsumerGroupStatus _ _ | OpConsumerGroupLag _ _ => envelopeS "status" statusS
  | OpClusterTopicDetails _ _ => envelopeS "offsets" (sliceS (intS 64))
  end.

(** A Go type, as the decoder sees it, has a shape when storing a value
    into a variable of the type reports no error exactly for the values
    that fit the shape, whatever the variable holds. *)
Definition decodesAs {A} (T : json.GoType A) (s : shape) : Prop :=
  forall v old, snd (json.store T v old) = None <-> fits s v = true.

Definition fieldAs {S} (f : json.field S) (p : string * shape) : Prop :=
  json.name f = fst p
  /\ forall v old, snd (json.set f v old) = None <-> fits (snd p) v = true.

(** ** The envelope as the body gives it *)

(** Whether a member key is stored into the field whose JSON name is
    [nm]. *)
Definition names (op : Op) (key nm : string) : bool :=
  match fieldNamed op key with
  | Some n => n =? nm
  | None => false
  end.

(** The flag and the message that the members of an object leave in a
    response that starts from its zero value: each member that names the
    field, in the order of the body, replaces what the field holds when
    its value is a boolean (for the message, a string), and leaves it as
    it is otherwise. *)
Definition flagOf (op : Op) (ms : list (string * json.value)) : bool :=
  fold_left (fun flag m =>
               if names op (fst m) "error"
               then match snd m with json.Bool b => b | _ => flag end
               else flag) ms false.

Definition messageOf (op : Op) (ms : list (string * json.value)) : string :=
  fold_left (fun msg m =>
               if names op (fst m) "message"
               then match snd m with json.Str s => s | _ => msg end
               else msg) ms "".

(** A body the decoder accepts for an operation: it begins with a
    well-formed JSON value and that value fits the shape of the
    operation's response.  What follows the value plays no part. *)
Definition accepted (op : Op) (body : string) : bool :=
  match json.readValue body with
  | json.ReadValue v _ => fits (shapeOf op) v
  | json.ReadError _ => false
  end.

(** * Sanity checks

    The model, run on a few inputs. *)

Example path_Join_prefix :
  path.Join "/prefix" "/kafka/clusterA" = "/prefix/kafka/clusterA".
Proof. reflexivity. Qed.

Example path_Join_dotdot :
  path.Join "/a/b/" "/../c/./d//" = "/a/c/d".
Proof. reflexivity. Qed.

Example path_Clean_unrooted :
  path.Clean "a/../../b" = "../b".
Proof. reflexivity. Qed.

(** Rows of the tables path_test.go checks [Clean] and [Join] with. *)
Example path_Clean_table :
  map path.Clean
    ["abc//def//ghi"; "abc/./../def"; "/../abc"; "../../abc"; "abc/def/../../..";
     "/abc/def/../../.."; ""; "/"; "abc/"; "//abc"; "abc/../../././../def";
     "/abc/def/../../../ghi/jkl/../../../mno"]
  = ["abc/def/ghi"; "def"; "/abc"; "../../abc"; ".."; "/"; "."; "/"; "abc"; "/abc";
     "../../def"; "/mno"].
Proof. reflexivity. Qed.

Example path_Join_table :
  [path.Join "a" "b"; path.Join "a" ""; path.Join "" "b"; path.Join "/" "a";
   path.Join "/" ""; path.Join "a/" "b"; path.Join "a/" ""; path.Join "" ""]
  = ["a/b"; "a"; "b"; "/a"; "/"; "a/b"; "a"; ""].
Proof. reflexivity. Qed.

(** Rows of the table url_test.go checks [Parse] and [String] with: the
    text [String] gives back for what [Parse] accepts. *)
Example url_roundtrip_table :
  map (fun s => match url.Parse s with
                | inl u => Some (url.String_ u)
                | inr _ => None
                end)
    ["http://www.google.com/file%20one%26two"; "http://www.google.com/?";
     "mailto:webmaster@golang.org"; "http://[fe80::1%25en0]:8080/";
     "http://a/b c"; "http://host/!$&'()*+,;=:@[hello]"; "//foo";
     "///threeslashes"; "http://%41:8080/"; "http://[::1]a";
     "cache_object:foo/bar"]
  = [Some "http://www.google.com/file%20one%26two"; Some "http://www.google.com/?";
     Some "mailto:webmaster@golang.org"; Some "http://[fe80::1%25en0]:8080/";
     Some "http://a/b%20c"; Some "http://host/!$&'()*+,;=:@[hello]"; Some "//foo";
     Some "///threeslashes"; None; None; None].
Proof. vm_compute. reflexivity. Qed.

Example url_Parse_base :
  url.Parse "http://host:8000/prefix?x=1#top"
  = inl {| url.Scheme := "http"; url.Opaque := ""; url.User := None;
           url.Host := "host:8000"; url.Path := "/prefix"; url.RawPath := "";
           url.OmitHost := false; url.ForceQuery := false; url.RawQuery := "x=1";
           url.Fragment := "top"; url.RawFragment := "" |}.
Proof. reflexivity. Qed.

Example url_Parse_missing_scheme :
  url.Parse "://burrow"
  = inr {| url.Op := "parse"; url.ErrURL := "://burrow";
           url.Err := url.ErrMissingProtocolScheme |}.
Proof. reflexivity. Qed.

Example url_Parse_opaque :
  option_map url.Opaque
    (match url.Parse "localhost:8000" with inl u => Some u | inr _ => None end)
  = Some "8000".
Proof. reflexivity. Qed.

Example json_readValue_object :
  json.readValue (text "{'error': true, 'n': [1, -2.5e3, null], 's': 'a\n\u00e9'} tail")
  = json.ReadValue
      (json.Object [("error", json.Bool true);
                    ("n", json.Array [json.Number "1"; json.Number "-2.5e3"; json.Null]);
                    ("s", json.Str (String "a" (String (ascii_of_N 10)
                            (String (ascii_of_N 195) (String (ascii_of_N 169) "")))))])
      " tail".
Proof. vm_compute. reflexivity. Qed.

Example Decode_clusters :
  json.Decode ClustersResp.T (text "{'error': false, 'clusters': ['a','b']}")
    ClustersResp.zero
  = ({| ClustersResp.BurrowResp := BurrowResp.zero;
        ClustersResp.Clusters :=
          {| json.isNil := false; json.backing := ["a"; "b"]; json.len := 2 |} |},
     None).
Proof. vm_compute. reflexivity. Qed.

Example Decode_status_mismatch :
  snd (json.Decode ConsumerGroupStatusResp.T
         (text "{'status': {'maxlag': {'partition': 4294967296}}, 'error': true}")
         ConsumerGroupStatusResp.zero)
  = Some (json.UnmarshalTypeError "number 4294967296" "int32").
Proof. vm_compute. reflexivity. Qed.

(** A payload of the wrong kind is reported by the decoder before the
    envelope is looked at. *)
Example ill_typed_payload :
  fst (runState (call burrow OpListClusters)
         (answering (text "{'error': true, 'message': 'no such cluster', 'clusters': 42}")))
  = (None, Some (json_Error (json.UnmarshalTypeError "number" "[]string"))).
Proof. vm_compute. reflexivity. Qed.

(** A body cut short, and an empty one. *)
Example truncated_body :
  fst (runState (call burrow OpListClusters) (answering (text "{'error': fal")))
  = (None, Some (json_Error json.ErrUnexpectedEOF))
  /\ fst (runState (call burrow OpListClusters) (answering ""))
     = (None, Some (json_Error json.EOF)).
Proof. split; vm_compute; reflexivity. Qed.

(** What fits a shape: null fits a struct, a slice and every field; a
    number with an exponent or a fraction fits no integer field, and
    neither does one out of the range of the field; members that name no
    field are left aside; what follows the first value is not looked
    at. *)
Example fits_null :
  fits (shapeOf OpListClusters) json.Null = true
  /\ accepted (OpClusterTopicDetails "local" "t1")
       (text "{'error': null, 'message': null, 'offsets': null}") = true.
Proof. split; reflexivity. Qed.

Example fits_integers_only :
  accepted (OpClusterTopicDetails "local" "t1") (text "{'offsets': [100]}") = true
  /\ accepted (OpClusterTopicDetails "local" "t1") (text "{'offsets': [1e2]}") = false
  /\ accepted (OpClusterTopicDetails "local" "t1") (text "{'offsets': [1.0]}") = false
  /\ accepted (OpClusterTopicDetails "local" "t1")
       (text "{'offsets': [9223372036854775808]}") = false.
Proof. repeat split; vm_compute; reflexivity. Qed.

Example fits_kinds :
  accepted OpListClusters (text "[]") = false
  /\ accepted OpListClusters (text "{'clusters': {}}") = false
  /\ accepted OpListClusters (text "{'clusters': ['a', 1]}") = false
  /\ accepted OpListClusters (text "{'Clusters': ['a'], 'request': {'host': 7}}") = true
  /\ accepted OpListClusters (text "{'clusters': ['a']} trailing text") = true.
Proof. repeat split; vm_compute; reflexivity. Qed.

(** The flag and the message as the body gives them. *)
Example flagOf_last_boolean :
  flagOf OpListClusters
    [("error", json.Bool true); ("message", json.Str "first");
     ("Error", json.Null); ("MESSAGE", json.Str "last"); ("message", json.Number "5")]
  = true
  /\ messageOf OpListClusters
       [("error", json.Bool true); ("message", json.Str "first");
        ("Error", json.Null); ("MESSAGE", json.Str "last"); ("message", json.Number "5")]
     = "last".
Proof. split; reflexivity. Qed.

(** * Properties *)

(** *** Running the monadic code *)

Lemma run_bind {A B} (m : state World A) (k : A -> state World B) w :
  runState (bind m k) w = let (a, w') := runState m w in runState (k a) w'.
Proof. reflexivity. Qed.

Lemma run_emit e w : runState (emit e) w = (tt, after w [e]).
Proof. reflexivity. Qed.

Lemma run_buildUrl bc endpoint w :
  runState (BurrowClient.buildUrl bc endpoint) w
  = match url.Parse (BurrowClient.baseUrl bc) with
    | inr e => (("", Some (url_Error e)), after w [Logged "error parsing base url"])
    | inl u => ((builtUrl u endpoint, None), w)
    end.
Proof.
  unfold BurrowClient.buildUrl.
  destruct (url.Parse (BurrowClient.baseUrl bc)); reflexivity.
Qed.

Lemma run_http_Get c target w :
  runState (http_Get c target) w
  = match remote w target with
    | inl f =>
        (inr {| http.Op := "Get"; http.URL := target; http.Err := f |},
         after w [Requested target])
    | inr (status, body) =>
        (inl {| http.StatusCode := status; http.BodyId := opened (trace w);
                http.Body := body |},
         after w [Requested target; Opened (opened (trace w))])
    end.
Proof.
  unfold http_Get. cbn.
  destruct (remote w target) as [f|[status body]]; same_trace.
Qed.

Lemma run_getJsonReq {A} bc target (T : json.GoType A) dest w :
  runState (BurrowClient.getJsonReq bc target T dest) w
  = match remote w target with
    | inl f =>
        ((dest, Some (http_Error {| http.Op := "Get"; http.URL := target;
                                    http.Err := f |})),
         after w [Requested target; Logged "error making request"])
    | inr (_, body) =>
        let id := opened (trace w) in
        match json.Decode T body dest with
        | (dest', Some e) =>
            ((dest', Some (json_Error e)),
             after w [Requested target; Opened id; Decoded id;
                      Logged "error decoding json"; Closed id])
        | (dest', None) =>
            ((dest', None),
             after w [Requested target; Opened id; Decoded id; Closed id])
        end
    end.
Proof.
  unfold BurrowClient.getJsonReq.
  rewrite run_bind, run_http_Get.
  destruct (remote w target) as [f|[status body]].
  - same_trace.
  - cbn. destruct (json.Decode T body dest) as [dest' [e|]]; same_trace.
Qed.

Lemma run_roundTrip {A} (T : json.GoType A) (env : A -> BurrowResp.t) bc
      endpoint fetch logical w (op : state World (option A * option error)) :
  op = ('(target, err) <- BurrowClient.buildUrl bc endpoint ;;
        match err with
        | Some err => ret (None, Some err)
        | None =>
            '(dest, err) <- BurrowClient.getJsonReq bc target T (json.zero T) ;;
            match err with
            | Some err => log_Error fetch ;; ret (None, Some err)
            | None =>
                if BurrowResp.Error (env dest) then
                  log_Error logical ;;
                  ret (None, Some (errors_New (BurrowResp.Message (env dest))))
                else ret (Some dest, None)
            end
        end) ->
  runState op w = roundTrip T env bc endpoint fetch logical w.
Proof.
  intros ->. unfold roundTrip.
  rewrite run_bind, run_buildUrl.
  destruct (url.Parse (BurrowClient.baseUrl bc)) as [u|e]; [|reflexivity].
  rewrite run_bind, run_getJsonReq.
  destruct (remote w (builtUrl u endpoint)) as [f|[status body]]; [same_trace|].
  cbv zeta.
  destruct (json.Decode T body (json.zero T)) as [dest [e|]].
  - same_trace.
  - cbv beta iota.
    destruct (BurrowResp.Error (env dest)) eqn:E; same_trace.
Qed.

(** Every typed operation is that round trip. *)
Lemma run_call bc op w :
  runState (call bc op) w
  = roundTrip (respType op) (envelope op) bc (endpointOf op) (fetchMsg op)
      (remoteMsg op) w.
Proof. destruct op; apply run_roundTrip; reflexivity. Qed.

Lemma run_HealthCheck bc w :
  runState (BurrowClient.HealthCheck bc) w
  = match url.Parse (BurrowClient.baseUrl bc) with
    | inr e => ((false, Some (url_Error e)), after w [Logged "error parsing base url"])
    | inl u =>
        let target := builtUrl u "/burrow/admin" in
        match remote w target with
        | inl f =>
            ((false, Some (http_Error {| http.Op := "Get"; http.URL := target;
                                         http.Err := f |})),
             after w [Requested target])
        | inr _ => ((true, None), after w [Requested target; Opened (opened (trace w))])
        end
    end.
Proof.
  unfold BurrowClient.HealthCheck.
  rewrite run_bind, run_buildUrl.
  destruct (url.Parse (BurrowClient.baseUrl bc)) as [u|e]; [|reflexivity].
  cbv beta iota zeta. rewrite run_bind, run_http_Get.
  destruct (remote w (builtUrl u "/burrow/admin")) as [f|[status body]]; reflexivity.
Qed.

(** ** The error channels of the typed operations *)

(** C5.  When the GET does not complete, a typed operation returns no
    result and the transport's own error, and between the request and the
    return nothing is opened and nothing is decoded. *)
Theorem transport_failure_isolation bc op w u f :
  url.Parse (BurrowClient.baseUrl bc) = inl u ->
  remote w (builtUrl u (endpointOf op)) = inl f ->
  exists err evs,
    runState (call bc op) w = ((None, Some err), after w evs)
    /\ err = http_Error {| http.Op := "Get"; http.URL := builtUrl u (endpointOf op);
                           http.Err := f |}
    /\ kind err = TransportError
    /\ requests evs = [builtUrl u (endpointOf op)]
    /\ opens evs = [] /\ decodes evs = [].
Proof.
  intros Hu Hr.
  rewrite run_call. unfold roundTrip.
  rewrite Hu. cbv zeta. rewrite Hr.
  eexists. eexists. split; [reflexivity|]. now repeat split.
Qed.

Lemma transport_failure_isolation_witness :
  exists err evs,
    runState (call burrow (OpListConsumers "local")) unreachable
    = ((None, Some err), after unreachable evs)
    /\ err = http_Error {| http.Op := "Get";
                           http.URL := "http://localhost:8000/v2/kafka/local/consumer";
                           http.Err := http.ErrConnectionRefused |}
    /\ kind err = TransportError
    /\ requests evs = ["http://localhost:8000/v2/kafka/local/consumer"]
    /\ opens evs = [] /\ decodes evs = [].
Proof.
  apply (transport_failure_isolation burrow (OpListConsumers "local") unreachable
           localhost
           http.ErrConnectionRefused); reflexivity.
Defined.

(** C6.  When [url.Parse] rejects the base address, every typed operation
    and the health check return that error and no result, and no request
    is made. *)
Theorem malformed_base_fails_fast bc w e :
  url.Parse (BurrowClient.baseUrl bc) = inr e ->
  (forall op, exists evs,
      runState (call bc op) w = ((None, Some (url_Error e)), after w evs)
      /\ requests evs = [])
  /\ (exists evs,
        runState (BurrowClient.HealthCheck bc) w
        = ((false, Some (url_Error e)), after w evs)
        /\ requests evs = [])
  /\ kind (url_Error e) = UrlConstructionError.
Proof.
  intros He. repeat split.
  - intros op. rewrite run_call. unfold roundTrip. rewrite He.
    eexists. split; reflexivity.
  - rewrite run_HealthCheck, He. eexists. split; reflexivity.
Qed.

Lemma malformed_base_fails_fast_witness :
  (forall op, exists evs,
      runState (call (MakeBurrowClient ":8000") op) (answering "{}")
      = ((None, Some (url_Error {| url.Op := "parse"; url.ErrURL := ":8000";
                                   url.Err := url.ErrMissingProtocolScheme |})),
         after (answering "{}") evs)
      /\ requests evs = [])
  /\ (exists evs,
        runState (BurrowClient.HealthCheck (MakeBurrowClient ":8000")) (answering "{}")
        = ((false, Some (url_Error {| url.Op := "parse"; url.ErrURL := ":8000";
                                      url.Err := url.ErrMissingProtocolScheme |})),
           after (answering "{}") evs)
        /\ requests evs = [])
  /\ kind (url_Error {| url.Op := "parse"; url.ErrURL := ":8000";
                        url.Err := url.ErrMissingProtocolScheme |})
     = UrlConstructionError.
Proof.
  apply (malformed_base_fails_fast (MakeBurrowClient ":8000") (answering "{}")).
  reflexivity.
Defined.

(** C7.  The health check never hands a body to the decoder.  It returns
    [(true, nil)] exactly when the base address parses and the GET of the
    admin endpoint is answered, whatever the status and the body of the
    answer; it returns [false] and an error exactly when the base address
    does not parse or the GET fails, and the error is then the parser's or
    the transport's. *)
Theorem health_check_independence bc w :
  let '(r, w') := runState (BurrowClient.HealthCheck bc) w in
  (exists evs, w' = after w evs /\ decodes evs = [])
  /\ (r = (true, None)
      <-> exists u status body,
          url.Parse (BurrowClient.baseUrl bc) = inl u
          /\ remote w (builtUrl u "/burrow/admin") = inr (status, body))
  /\ ((exists err, r = (false, Some err))
      <-> (exists e, url.Parse (BurrowClient.baseUrl bc) = inr e)
          \/ (exists u f, url.Parse (BurrowClient.baseUrl bc) = inl u
                          /\ remote w (builtUrl u "/burrow/admin") = inl f))
  /\ (r = (true, None)
      \/ exists err, r = (false, Some err)
                     /\ (kind err = UrlConstructionError \/ kind err = TransportError)).
Proof.
  rewrite run_HealthCheck.
  destruct (url.Parse (BurrowClient.baseUrl bc)) as [u|e] eqn:Hu.
  - cbv zeta.
    destruct (remote w (builtUrl u "/burrow/admin")) as [f|[status body]] eqn:Hr.
    + repeat split.
      * eexists; split; reflexivity.
      * discriminate.
      * intros (u' & status & body & Hu' & Hr'). injection Hu' as <-. congruence.
      * intros _. right. exists u, f. split; [reflexivity|]. assumption.
      * intros _. eexists; reflexivity.
      * right. eexists. split; [reflexivity|]. now right.
    + repeat split.
      * eexists; split; reflexivity.
      * intros _. exists u, status, body. now split.
      * intros [err H]. discriminate.
      * intros [[e He]|(u' & f & Hu' & Hr')]; [discriminate|].
        injection Hu' as <-. congruence.
      * now left.
  - repeat split.
    + eexists; split; reflexivity.
    + discriminate.
    + intros (u & status & body & Hu' & _). discriminate.
    + intros _. left. now exists e.
    + intros _. eexists; reflexivity.
    + right. eexists. split; [reflexivity|]. now left.
Qed.

(** C8.  A typed operation returns a result and a nil error, or no result
    and an error, and nothing else; a result it returns is the response
    the decoder filled from the body without any error, and its envelope
    does not flag an error. *)
Theorem result_xor_error bc op w :
  match fst (runState (call bc op) w) with
  | (Some dest, None) =>
      exists u status body,
        url.Parse (BurrowClient.baseUrl bc) = inl u
        /\ remote w (builtUrl u (endpointOf op)) = inr (status, body)
        /\ json.Decode (respType op) body (json.zero (respType op)) = (dest, None)
        /\ BurrowResp.Error (envelope op dest) = false
  | (None, Some err) =>
      In (kind err) [UrlConstructionError; TransportError; DecodeError; RemoteLogicalError]
  | _ => False
  end.
Proof.
  rewrite run_call. unfold roundTrip.
  destruct (url.Parse (BurrowClient.baseUrl bc)) as [u|e] eqn:Hu; [|cbn; tauto].
  cbv zeta.
  destruct (remote w (builtUrl u (endpointOf op))) as [f|[status body]] eqn:Hr;
    [cbn; tauto|].
  destruct (json.Decode (respType op) body (json.zero (respType op)))
    as [dest [e|]] eqn:Hd; [cbn; tauto|].
  destruct (BurrowResp.Error (envelope op dest)) eqn:He; [cbn; tauto|].
  cbn. exists u, status, body. repeat split; assumption.
Qed.

(** ** Response bodies *)

(** The events of a typed operation leave no body open: the body of every
    response received is closed before the operation returns, whether the
    decoding fails or not. *)
Lemma call_closes_body bc op w :
  exists evs, snd (runState (call bc op) w) = after w evs /\ leaked evs = [].
Proof.
  rewrite run_call. unfold roundTrip.
  destruct (url.Parse (BurrowClient.baseUrl bc)) as [u|e]; [|eexists; split; reflexivity].
  cbv zeta.
  destruct (remote w (builtUrl u (endpointOf op))) as [f|[status body]];
    [eexists; split; reflexivity|].
  destruct (json.Decode (respType op) body (json.zero (respType op))) as [dest [e|]].
  - eexists; split; [reflexivity|]. unfold leaked; cbn. now rewrite Nat.eqb_refl.
  - destruct (BurrowResp.Error (envelope op dest));
      (eexists; split; [reflexivity|]); unfold leaked; cbn; now rewrite Nat.eqb_refl.
Qed.

(** The health check closes nothing, and leaves open the body of the
    response it gets. *)
Lemma HealthCheck_never_closes bc w :
  exists evs,
    snd (runState (BurrowClient.HealthCheck bc) w) = after w evs
    /\ closes evs = []
    /\ (fst (fst (runState (BurrowClient.HealthCheck bc) w)) = true ->
        leaked evs = [opened (trace w)]).
Proof.
  rewrite run_HealthCheck.
  destruct (url.Parse (BurrowClient.baseUrl bc)) as [u|e].
  - cbv zeta.
    destruct (remote w (builtUrl u "/burrow/admin")) as [f|[status body]];
      (eexists; split; [reflexivity|]; split; [reflexivity|]);
      cbn [fst]; intros H; [discriminate H | reflexivity].
  - eexists; split; [reflexivity|]; split; [reflexivity|].
    cbn [fst]. intros H. discriminate H.
Qed.

(** C9 does not hold of the health check.  Against a server that
    answers, the response is dropped without its body being closed: body 0
    stays open, where the typed operations close theirs on every path. *)
Theorem HealthCheck_leaves_body_open :
  runState (BurrowClient.HealthCheck burrow) (answering "GOOD")
  = ((true, None),
     after (answering "GOOD") [Requested "http://localhost:8000/burrow/admin"; Opened 0])
  /\ leaked (trace (snd (runState (BurrowClient.HealthCheck burrow) (answering "GOOD"))))
     = [0].
Proof. split; reflexivity. Qed.

(** C2, as stated, fails: with the base address http://localhost:8000 the
    health check requests /burrow/admin, not /admin, and the list of
    clusters is requested from /v2/kafka, not /kafka. *)
Lemma table_endpoints_counterexample :
  requestsOf (BurrowClient.HealthCheck burrow) (answering "GOOD")
  = ["http://localhost:8000/burrow/admin"]
  /\ urlFor burrow tableHealthEndpoint (answering "GOOD") = "http://localhost:8000/admin"
  /\ requestsOf (call burrow OpListClusters) (answering "{}")
     = ["http://localhost:8000/v2/kafka"]
  /\ urlFor burrow (tableEndpoint OpListClusters) (answering "{}")
     = "http://localhost:8000/kafka"
  /\ ~ (requestsOf (BurrowClient.HealthCheck burrow) (answering "GOOD")
        = [urlFor burrow tableHealthEndpoint (answering "GOOD")]
        /\ requestsOf (call burrow OpListClusters) (answering "{}")
           = [urlFor burrow (tableEndpoint OpListClusters) (answering "{}")]).
Proof.
  repeat split; try reflexivity.
  intros [H _]. vm_compute in H. discriminate H.
Qed.

Lemma endpointOf_table op : endpointOf op = "/v2" ++ tableEndpoint op.
Proof. destruct op; reflexivity. Qed.

(** C2, amended.  With a base address that parses, the health check
    makes exactly one request, for the URL built from /burrow/admin, and
    every typed operation makes exactly one request, for the URL built
    from the table's endpoint under /v2: /v2/kafka for the list of
    clusters, /v2/kafka/{cluster}/... for the rest, the arguments put in
    as they are. *)
Theorem requested_endpoints bc w u :
  url.Parse (BurrowClient.baseUrl bc) = inl u ->
  (exists evs,
      snd (runState (BurrowClient.HealthCheck bc) w) = after w evs
      /\ requests evs = [builtUrl u ("/burrow" ++ tableHealthEndpoint)])
  /\ (forall op, exists evs,
         snd (runState (call bc op) w) = after w evs
         /\ requests evs = [builtUrl u ("/v2" ++ tableEndpoint op)]).
Proof.
  intros Hu. split.
  - rewrite run_HealthCheck, Hu. cbv zeta.
    destruct (remote w (builtUrl u "/burrow/admin")) as [f|[status body]];
      eexists; split; reflexivity.
  - intros op. rewrite run_call. unfold roundTrip. rewrite Hu. cbv zeta.
    rewrite <- endpointOf_table.
    destruct (remote w (builtUrl u (endpointOf op))) as [f|[status body]];
      [eexists; split; reflexivity|].
    destruct (json.Decode (respType op) body (json.zero (respType op))) as [dest [e|]];
      [eexists; split; reflexivity|].
    destruct (BurrowResp.Error (envelope op dest)); eexists; split; reflexivity.
Qed.

Lemma requested_endpoints_witness :
  (exists evs,
      snd (runState (BurrowClient.HealthCheck burrow) unreachable) = after unreachable evs
      /\ requests evs = ["http://localhost:8000/burrow/admin"])
  /\ (exists evs,
         snd (runState (call burrow (OpConsumerGroupLag "local" "g1")) unreachable)
         = after unreachable evs
         /\ requests evs = ["http://localhost:8000/v2/kafka/local/consumer/g1/lag"]).
Proof.
  destruct (requested_endpoints burrow unreachable
              localhost eq_refl) as [H1 H2].
  split; [exact H1 | exact (H2 (OpConsumerGroupLag "local" "g1"))].
Defined.

Lemma store_object op ms d :
  json.store (respType op) (json.Object ms) d
  = json.storeMembers (respFields op) ms d None.
Proof. destruct op; reflexivity. Qed.

Lemma findField_In {S} (fields : list (json.field S)) key f :
  json.findField fields key = Some f -> In f fields.
Proof.
  unfold json.findField.
  destruct (find _ fields) eqn:E1.
  - intros [= <-]. now apply find_some in E1.
  - intros E2. now apply find_some in E2.
Qed.

Lemma flag_false_keeps_zero op f :
  In f (respFields op) -> json.name f = "error" ->
  json.set f (json.Bool false) (json.zero (respType op))
  = (json.zero (respType op), None).
Proof.
  destruct op; cbn; intros [<-|[<-|[<-|[]]]] H; try discriminate H; reflexivity.
Qed.

(** Members that set the flag to false, or that name no field, leave a
    zero response as it is. *)
Lemma storeMembers_flag_only op ms :
  (forall k v, In (k, v) ms ->
               fieldNamed op k = None
               \/ (fieldNamed op k = Some "error" /\ v = json.Bool false)) ->
  json.storeMembers (respFields op) ms (json.zero (respType op)) None
  = (json.zero (respType op), None).
Proof.
  induction ms as [|[k v] ms IH]; intros H; [reflexivity|].
  cbn [json.storeMembers].
  assert (Hms : forall k' v', In (k', v') ms ->
                  fieldNamed op k' = None
                  \/ (fieldNamed op k' = Some "error" /\ v' = json.Bool false))
    by (intros; apply H; now right).
  destruct (H k v (or_introl eq_refl)) as [Hn|[Hn ->]]; unfold fieldNamed in Hn;
    destruct (json.findField (respFields op) k) as [f|] eqn:Ef; try discriminate Hn.
  - now apply IH.
  - injection Hn as Hn.
    rewrite (flag_false_keeps_zero op f (findField_In _ _ _ Ef) Hn).
    now apply IH.
Qed.

Lemma storeMembers_invariant {S} (fields : list (json.field S)) (I : S -> Prop) ms :
  (forall k v f s, In (k, v) ms -> json.findField fields k = Some f ->
                   I s -> I (fst (json.set f v s))) ->
  forall s saved, I s -> I (fst (json.storeMembers fields ms s saved)).
Proof.
  induction ms as [|[k v] ms IH]; intros H s saved Hs; [exact Hs|].
  cbn [json.storeMembers].
  assert (H' : forall k v f s, In (k, v) ms -> json.findField fields k = Some f ->
                               I s -> I (fst (json.set f v s)))
    by (intros; eapply H; eauto; now right).
  destruct (json.findField fields k) as [f|] eqn:Ef.
  - pose proof (H k v f s (or_introl eq_refl) Ef Hs) as Hf.
    destruct (json.set f v s) as [s' e]. now apply IH.
  - now apply IH.
Qed.

(** What the fields of a response do to the flag, the message and the
    payload: the flag set from [false] is false, and a field leaves alone
    what is not its own. *)
Lemma field_effects op f v s :
  In f (respFields op) ->
  (json.name f = "error" -> v = json.Bool false ->
   BurrowResp.Error (envelope op (fst (json.set f v s))) = false)
  /\ (json.name f <> "error" ->
      BurrowResp.Error (envelope op (fst (json.set f v s)))
      = BurrowResp.Error (envelope op s))
  /\ (json.name f <> "message" ->
      BurrowResp.Message (envelope op (fst (json.set f v s)))
      = BurrowResp.Message (envelope op s))
  /\ (json.name f <> payloadName op ->
      payload op (fst (json.set f v s)) = payload op s).
Proof.
  destruct op; cbn [respFields]; intros [<-|[<-|[<-|[]]]];
    cbn [json.name json.mkField json.set];
    (split; [intros Hn Hv | split; [intros Hn | split; intros Hn]]);
    try discriminate Hn; try (exfalso; apply Hn; reflexivity); subst;
    try reflexivity;
    match goal with
    | |- context [json.store ?T ?v ?x] => destruct (json.store T v x); reflexivity
    end.
Qed.

Lemma fieldNamed_Some op k nm :
  fieldNamed op k = Some nm ->
  exists f, json.findField (respFields op) k = Some f /\ json.name f = nm.
Proof.
  unfold fieldNamed. destruct (json.findField (respFields op) k) as [f|]; [|discriminate].
  intros [= <-]. now exists f.
Qed.

(** Decoding an object into a zero response: a flag that is only ever
    set from [false] stays false, and the message and the payload stay
    zero when no member names them. *)
Lemma Decode_object op body ms rest dest e :
  json.readValue body = json.ReadValue (json.Object ms) rest ->
  json.Decode (respType op) body (json.zero (respType op)) = (dest, e) ->
  ((forall k v, In (k, v) ms -> fieldNamed op k = Some "error" -> v = json.Bool false) ->
   BurrowResp.Error (envelope op dest) = false)
  /\ ((forall k v, In (k, v) ms -> fieldNamed op k <> Some "message") ->
      BurrowResp.Message (envelope op dest) = "")
  /\ ((forall k v, In (k, v) ms -> fieldNamed op k <> Some (payloadName op)) ->
      payload op dest = payload op (json.zero (respType op))).
Proof.
  intros Hv Hd. unfold json.Decode in Hd. rewrite Hv, store_object in Hd.
  assert (Hdest : dest = fst (json.storeMembers (respFields op) ms
                                (json.zero (respType op)) None))
    by now rewrite Hd.
  subst dest. clear Hd.
  repeat split; intros H.
  - apply (storeMembers_invariant (respFields op)
             (fun s => BurrowResp.Error (envelope op s) = false));
      [|destruct op; reflexivity].
    intros k v f s Hin Hf Hs.
    pose proof (field_effects op f v s (findField_In _ _ _ Hf)) as (E1 & E2 & _).
    destruct (String.eqb_spec (json.name f) "error") as [En|En].
    + apply E1; [exact En|]. apply (H k v Hin). unfold fieldNamed. rewrite Hf. cbn [option_map]. now rewrite En.
    + now rewrite (E2 En).
  - apply (storeMembers_invariant (respFields op)
             (fun s => BurrowResp.Message (envelope op s) = ""));
      [|destruct op; reflexivity].
    intros k v f s Hin Hf Hs.
    pose proof (field_effects op f v s (findField_In _ _ _ Hf)) as (_ & _ & E3 & _).
    rewrite E3; [exact Hs|]. intros En. apply (H k v Hin).
    unfold fieldNamed. rewrite Hf. cbn [option_map]. now rewrite En.
  - apply (storeMembers_invariant (respFields op)
             (fun s => payload op s = payload op (json.zero (respType op))));
      [|reflexivity].
    intros k v f s Hin Hf Hs.
    pose proof (field_effects op f v s (findField_In _ _ _ Hf)) as (_ & _ & _ & E4).
    rewrite E4; [exact Hs|]. intros En. apply (H k v Hin).
    unfold fieldNamed. rewrite Hf. cbn [option_map]. now rewrite En.
Qed.

Lemma all_app P s t : strings.all P (s ++ t) = strings.all P s && strings.all P t.
Proof. induction s as [|c s IH]; cbn; [reflexivity|]. now rewrite IH, andb_assoc. Qed.

Lemma all_impl (P Q : byte -> bool) s :
  (forall c, P c = true -> Q c = true) ->
  strings.all P s = true -> strings.all Q s = true.
Proof.
  intros H. induction s as [|c s IH]; cbn; [reflexivity|].
  intros [Hc Hs]%andb_prop. now rewrite (H c Hc), IH.
Qed.

Lemma Cut_none s c : strings.all (isnt c) s = true -> strings.Cut s c = (s, "", false).
Proof.
  induction s as [|a s IH]; cbn; [reflexivity|].
  unfold isnt at 1. intros [Ha Hs]%andb_prop.
  apply negb_true_iff in Ha. rewrite Ha, (IH Hs). reflexivity.
Qed.

Lemma Cut_app s c t :
  strings.all (isnt c) s = true -> strings.Cut (s ++ String c t) c = (s, t, true).
Proof.
  induction s as [|a s IH]; cbn.
  - now rewrite Ascii.eqb_refl.
  - unfold isnt at 1. intros [Ha Hs]%andb_prop.
    apply negb_true_iff in Ha. rewrite Ha, (IH Hs). reflexivity.
Qed.

Lemma CutLast_none s c : strings.all (isnt c) s = true -> strings.CutLast s c = None.
Proof.
  induction s as [|a s IH]; cbn; [reflexivity|].
  unfold isnt at 1. intros [Ha Hs]%andb_prop.
  apply negb_true_iff in Ha. now rewrite (IH Hs), Ha.
Qed.

Lemma CutLast_app s c t :
  strings.all (isnt c) t = true -> strings.CutLast (s ++ String c t) c = Some (s, t).
Proof.
  intros Ht. induction s as [|a s IH]; cbn.
  - now rewrite (CutLast_none t c Ht), Ascii.eqb_refl.
  - now rewrite IH.
Qed.

Lemma last_all P s c : strings.all P s = true -> strings.last s = Some c -> P c = true.
Proof.
  induction s as [|a s IH]; cbn; [discriminate|].
  intros [Ha Hs]%andb_prop. destruct s as [|b s'].
  - now intros [= <-].
  - now apply IH.
Qed.

Lemma HasSuffixByte_none s c :
  strings.all (isnt c) s = true -> strings.HasSuffixByte s c = false.
Proof.
  intros H. unfold strings.HasSuffixByte.
  destruct (strings.last s) as [a|] eqn:E; [|reflexivity].
  apply (last_all _ _ _ H) in E. unfold isnt in E. now apply negb_true_iff in E.
Qed.

Lemma last_app s t : t <> "" -> strings.last (s ++ t) = strings.last t.
Proof.
  intros Ht. induction s as [|a s IH]; [reflexivity|].
  cbn [append]. cbn [strings.last].
  destruct (s ++ t) eqn:E.
  - destruct s; [cbn in E; congruence | discriminate].
  - exact IH.
Qed.

Lemma unescape_literal mode s :
  strings.all (literalIn mode) s = true -> url.unescape s mode = inl s.
Proof.
  induction s as [|c s IH]; cbn [strings.all url.unescape]; [reflexivity|].
  intros [Hc Hs]%andb_prop. unfold literalIn in Hc.
  apply andb_prop in Hc as [[H1 H2]%andb_prop H3].
  apply negb_true_iff in H1, H2, H3.
  rewrite H1, H2, H3, (IH Hs). reflexivity.
Qed.

Lemma escape_unescaped mode s :
  strings.all (fun c => negb (url.shouldEscape c mode)) s = true ->
  url.escape s mode = s.
Proof.
  induction s as [|c s IH]; cbn [strings.all url.escape]; [reflexivity|].
  intros [Hc Hs]%andb_prop. apply negb_true_iff in Hc.
  now rewrite Hc, (IH Hs).
Qed.

(** What the proofs use of the bytes of each part of the address. *)
Lemma unreserved_facts c :
  unreserved c = true ->
  notCTL c = true
  /\ isnt "#" c = true /\ isnt "?" c = true /\ isnt "/" c = true
  /\ isnt "@" c = true /\ isnt ":" c = true /\ isnt "[" c = true.
Proof. by_bytes c; intros _; repeat split; reflexivity. Qed.

Lemma unreserved_literal mode c : unreserved c = true -> literalIn mode c = true.
Proof. by_bytes c; intros _; destruct mode; reflexivity. Qed.

Lemma unreserved_unescaped mode c :
  unreserved c = true -> negb (url.shouldEscape c mode) = true.
Proof. by_bytes c; intros _; destruct mode; reflexivity. Qed.

Lemma digit_facts c :
  is_digit c = true ->
  notCTL c = true
  /\ isnt "#" c = true /\ isnt "?" c = true /\ isnt "/" c = true
  /\ isnt "@" c = true /\ isnt ":" c = true.
Proof. by_bytes c; intros _; repeat split; reflexivity. Qed.

Lemma digit_host c :
  is_digit c = true ->
  literalIn url.encodeHost c = true
  /\ negb (url.shouldEscape c url.encodeHost) = true.
Proof. by_bytes c; intros _; split; reflexivity. Qed.

Lemma pathChar_facts c :
  pathChar c = true ->
  notCTL c = true /\ isnt "#" c = true /\ isnt "?" c = true.
Proof. by_bytes c; intros _; repeat split; reflexivity. Qed.

Lemma pathChar_path c :
  pathChar c = true ->
  literalIn url.encodePath c = true
  /\ negb (url.shouldEscape c url.encodePath) = true.
Proof. by_bytes c; intros _; split; reflexivity. Qed.

Lemma queryChar_facts c :
  queryChar c = true ->
  notCTL c = true /\ isnt "#" c = true /\ isnt "?" c = true.
Proof. by_bytes c; intros _; repeat split; reflexivity. Qed.

Section PlainBase.

Variables host port prefix query fragment : string.
Hypothesis Hhost : plain host = true.
Hypothesis Hport : strings.all is_digit port = true.
Hypothesis Hprefix : strings.all pathChar prefix = true.
Hypothesis Hrooted : rootedOrEmpty prefix = true.
Hypothesis Hquery : strings.all queryChar query = true.
Hypothesis Hfragment : plain fragment = true.

Let hostport : string := host ++ ":" ++ port.

Lemma hostport_all (Q : byte -> bool) :
  (forall c, unreserved c = true -> Q c = true) ->
  (forall c, is_digit c = true -> Q c = true) ->
  Q ":"%char = true ->
  strings.all Q hostport = true.
Proof.
  intros Hu Hd Hc. unfold hostport. rewrite all_app. cbn [append strings.all].
  rewrite (all_impl _ _ _ Hu Hhost), Hc, (all_impl _ _ _ Hd Hport). reflexivity.
Qed.

Lemma withMark_query_all (Q : byte -> bool) :
  (forall c, queryChar c = true -> Q c = true) ->
  Q "?"%char = true ->
  strings.all Q (withMark "?" query) = true.
Proof.
  intros Hq Hm. unfold withMark. destruct (query =? ""); [reflexivity|].
  cbn. now rewrite Hm, (all_impl _ _ _ Hq Hquery).
Qed.

(** The address up to its fragment. *)
Let front : string := "http://" ++ hostport ++ prefix ++ withMark "?" query.

Lemma front_noCTL : url.stringContainsCTLByte front = false.
Proof.
  unfold url.stringContainsCTLByte. apply negb_false_iff.
  change (fun c : byte => negb ((code c <? 32)%N || (code c =? 127)%N)) with notCTL.
  unfold front. rewrite !all_app.
  rewrite (hostport_all notCTL), (withMark_query_all notCTL); try reflexivity.
  - rewrite (all_impl _ _ _ (fun c Hc => proj1 (pathChar_facts c Hc)) Hprefix).
    reflexivity.
  - intros c Hc. apply (queryChar_facts c Hc).
  - intros c Hc. apply (unreserved_facts c Hc).
  - intros c Hc. apply (digit_facts c Hc).
Qed.

Lemma front_noHash : strings.all (isnt "#") front = true.
Proof.
  unfold front. rewrite !all_app.
  rewrite (hostport_all (isnt "#")), (withMark_query_all (isnt "#")); try reflexivity.
  - rewrite (all_impl _ _ _ (fun c Hc => proj1 (proj2 (pathChar_facts c Hc))) Hprefix).
    reflexivity.
  - intros c Hc. apply (queryChar_facts c Hc).
  - intros c Hc. apply (unreserved_facts c Hc).
  - intros c Hc. apply (digit_facts c Hc).
Qed.

Lemma beforeQuery_noQuestion :
  strings.all (isnt "?") ("//" ++ hostport ++ prefix) = true.
Proof.
  rewrite !all_app. rewrite (hostport_all (isnt "?")); try reflexivity.
  - rewrite (all_impl _ _ _ (fun c Hc => proj2 (proj2 (pathChar_facts c Hc))) Hprefix).
    reflexivity.
  - intros c Hc. apply (unreserved_facts c Hc).
  - intros c Hc. apply (digit_facts c Hc).
Qed.

Lemma append_empty s : s ++ "" = s.
Proof. induction s as [|c s IH]; cbn; [reflexivity | now rewrite IH]. Qed.

Lemma append_assoc s t u : (s ++ t) ++ u = s ++ t ++ u.
Proof. induction s as [|c s IH]; cbn; [reflexivity | now rewrite IH]. Qed.

(** [parse] splits the query off at the question mark. *)
Lemma query_split :
  let rest := "//" ++ hostport ++ prefix ++ withMark "?" query in
  (if strings.HasSuffixByte rest "?" && (strings.CountByte rest "?" =? 1)%nat
   then (url.dropLast rest, true, "")
   else let '(before, after, _) := strings.Cut rest "?" in (before, false, after))
  = ("//" ++ hostport ++ prefix, false, query).
Proof.
  cbv zeta. unfold withMark.
  replace ("//" ++ hostport ++ prefix ++ (if query =? "" then "" else "?" ++ query))
    with (("//" ++ hostport ++ prefix) ++ (if query =? "" then "" else "?" ++ query))
    by (cbn; now rewrite <- append_assoc).
  destruct (String.eqb_spec query "") as [->|Hq].
  - rewrite append_empty.
    now rewrite (HasSuffixByte_none _ _ beforeQuery_noQuestion),
      (Cut_none _ _ beforeQuery_noQuestion).
  - assert (Hs : strings.HasSuffixByte (("//" ++ hostport ++ prefix) ++ "?" ++ query) "?"
                 = false).
    { unfold strings.HasSuffixByte. rewrite last_app by discriminate.
      change ("?" ++ query) with (String "?" query). cbn [strings.last].
      destruct query as [|q0 qs] eqn:Eq; [congruence|]. rewrite <- Eq in *.
      destruct (strings.last query) as [a|] eqn:El; [|reflexivity].
      apply (last_all _ _ _ Hquery) in El.
      apply queryChar_facts in El. destruct El as (_ & _ & El).
      unfold isnt in El. now apply negb_true_iff in El. }
    rewrite Hs. cbn [andb].
    change ("?" ++ query) with (String "?" query).
    now rewrite (Cut_app _ _ _ beforeQuery_noQuestion).
Qed.

Lemma hostport_unbracketed : strings.HasPrefix hostport "[" = false.
Proof.
  unfold hostport, strings.HasPrefix. destruct host as [|c h]; [reflexivity|].
  cbn in Hhost |- *. apply andb_prop in Hhost as [Hc _].
  apply unreserved_facts in Hc. destruct Hc as (_ & _ & _ & _ & _ & _ & Hc).
  unfold isnt in Hc. apply negb_true_iff in Hc. now rewrite Hc.
Qed.

Lemma parseHost_hostport : url.parseHost hostport = inl hostport.
Proof.
  unfold url.parseHost. rewrite hostport_unbracketed.
  assert (Hp : strings.all (isnt ":") port = true)
    by (apply (all_impl _ _ _ (fun c Hc =>
          proj2 (proj2 (proj2 (proj2 (proj2 (digit_facts c Hc)))))) Hport)).
  unfold hostport at 1. change (":" ++ port) with (String ":" port).
  rewrite (CutLast_app host ":" port Hp).
  cbn [url.validOptionalPort]. rewrite Ascii.eqb_refl, Hport. cbn [andb negb].
  apply unescape_literal. apply hostport_all.
  - apply unreserved_literal.
  - intros c Hc. apply (digit_host c Hc).
  - reflexivity.
Qed.

Lemma parseAuthority_hostport : url.parseAuthority hostport = inl (None, hostport).
Proof.
  unfold url.parseAuthority.
  rewrite (CutLast_none hostport "@").
  - now rewrite parseHost_hostport.
  - apply hostport_all.
    + intros c Hc. apply (unreserved_facts c Hc).
    + intros c Hc. apply (digit_facts c Hc).
    + reflexivity.
Qed.

Lemma setPath_prefix u :
  url.setPath u prefix
  = inl {| url.Scheme := url.Scheme u; url.Opaque := url.Opaque u;
           url.User := url.User u; url.Host := url.Host u; url.Path := prefix;
           url.RawPath := ""; url.OmitHost := url.OmitHost u;
           url.ForceQuery := url.ForceQuery u; url.RawQuery := url.RawQuery u;
           url.Fragment := url.Fragment u; url.RawFragment := url.RawFragment u |}.
Proof.
  unfold url.setPath.
  rewrite unescape_literal
    by (apply (all_impl _ _ _ (fun c Hc => proj1 (pathChar_path c Hc)) Hprefix)).
  cbn [url.bindr].
  rewrite escape_unescaped.
  - now rewrite String.eqb_refl.
  - apply (all_impl _ _ _ (fun c Hc => proj2 (pathChar_path c Hc)) Hprefix).
Qed.

Lemma authority_split :
  (let '(authority, rest', found) := strings.Cut (hostport ++ prefix) "/" in
   (authority, if found then String "/" rest' else ""))
  = (hostport, prefix).
Proof.
  assert (Hh : strings.all (isnt "/") hostport = true).
  { apply hostport_all.
    - intros c Hc. apply (unreserved_facts c Hc).
    - intros c Hc. apply (digit_facts c Hc).
    - reflexivity. }
  destruct prefix as [|c p].
  - rewrite append_empty, (Cut_none _ _ Hh). reflexivity.
  - cbn in Hrooted. apply Ascii.eqb_eq in Hrooted. subst c.
    rewrite (Cut_app _ _ _ Hh). reflexivity.
Qed.

Lemma parse_front :
  url.parse front
  = inl {| url.Scheme := "http"; url.Opaque := ""; url.User := None;
           url.Host := hostport; url.Path := prefix; url.RawPath := "";
           url.OmitHost := false; url.ForceQuery := false; url.RawQuery := query;
           url.Fragment := ""; url.RawFragment := "" |}.
Proof.
  unfold url.parse. rewrite front_noCTL.
  replace (front =? "*") with false by reflexivity.
  replace (url.getScheme front)
    with (@inl (string * string) url.parse_failure
            ("http", "//" ++ hostport ++ prefix ++ withMark "?" query))
    by reflexivity.
  cbn [url.bindr].
  replace (strings.ToLower "http") with "http" by reflexivity.
  pose proof query_split as Hq. cbv zeta in Hq. rewrite Hq. clear Hq.
  replace (strings.HasPrefix ("//" ++ hostport ++ prefix) "/") with true by reflexivity.
  replace (strings.HasPrefix ("//" ++ hostport ++ prefix) "//") with true by reflexivity.
  replace (strings.drop 2 ("//" ++ hostport ++ prefix)) with (hostport ++ prefix)
    by reflexivity.
  cbn [negb andb orb String.eqb Ascii.eqb Bool.eqb].
  pose proof authority_split as Ha.
  destruct (strings.Cut (hostport ++ prefix) "/") as [[authority rest'] found].
  injection Ha as -> ->.
  rewrite parseAuthority_hostport. cbn [url.bindr].
  apply setPath_prefix.
Qed.

Lemma hostport_nonempty : (hostport =? "") = false.
Proof. unfold hostport. destruct host; reflexivity. Qed.

Lemma baseAddress_front :
  baseAddress host port prefix query fragment = front ++ withMark "#" fragment.
Proof.
  unfold baseAddress, front, hostport. cbn [append].
  now rewrite !append_assoc.
Qed.

Lemma setFragment_plain u :
  url.setFragment u fragment
  = inl {| url.Scheme := url.Scheme u; url.Opaque := url.Opaque u;
           url.User := url.User u; url.Host := url.Host u; url.Path := url.Path u;
           url.RawPath := url.RawPath u; url.OmitHost := url.OmitHost u;
           url.ForceQuery := url.ForceQuery u; url.RawQuery := url.RawQuery u;
           url.Fragment := fragment; url.RawFragment := "" |}.
Proof.
  unfold url.setFragment.
  rewrite unescape_literal
    by (apply (all_impl _ _ _ (unreserved_literal _) Hfragment)).
  cbn [url.bindr].
  rewrite escape_unescaped.
  - now rewrite String.eqb_refl.
  - apply (all_impl _ _ _ (unreserved_unescaped _) Hfragment).
Qed.

(** [url.Parse] takes the address apart into the parts it was written
    from. *)
Lemma Parse_baseAddress :
  url.Parse (baseAddress host port prefix query fragment)
  = inl {| url.Scheme := "http"; url.Opaque := ""; url.User := None;
           url.Host := hostport; url.Path := prefix; url.RawPath := "";
           url.OmitHost := false; url.ForceQuery := false; url.RawQuery := query;
           url.Fragment := fragment; url.RawFragment := "" |}.
Proof.
  unfold url.Parse. rewrite baseAddress_front. unfold withMark.
  destruct (String.eqb_spec fragment "") as [E|E].
  - rewrite append_empty, (Cut_none _ _ front_noHash), parse_front.
    cbn [String.eqb]. now rewrite E.
  - change ("#" ++ fragment) with (String "#" fragment).
    rewrite (Cut_app _ _ _ front_noHash), parse_front.
    apply String.eqb_neq in E. rewrite E.
    now rewrite setFragment_plain.
Qed.

(** [URL.String] puts them back together around a rooted path. *)
Lemma String_rooted p :
  url.String_ {| url.Scheme := "http"; url.Opaque := ""; url.User := None;
                 url.Host := hostport; url.Path := String "/" p; url.RawPath := "";
                 url.OmitHost := false; url.ForceQuery := false;
                 url.RawQuery := query; url.Fragment := fragment;
                 url.RawFragment := "" |}
  = "http://" ++ hostport ++ url.escape (String "/" p) url.encodePath
    ++ withMark "?" query ++ withMark "#" fragment.
Proof.
  unfold url.String_, url.EscapedPath, url.EscapedFragment.
  cbn [url.Scheme url.Opaque url.User url.Host url.Path url.RawPath url.OmitHost
       url.ForceQuery url.RawQuery url.Fragment url.RawFragment].
  rewrite hostport_nonempty.
  rewrite (escape_unescaped url.encodeHost hostport).
  2:{ apply hostport_all.
      - apply unreserved_unescaped.
      - intros c Hc. apply (digit_host c Hc).
      - reflexivity. }
  rewrite (escape_unescaped url.encodeFragment fragment)
    by (apply (all_impl _ _ _ (unreserved_unescaped _) Hfragment)).
  replace (url.escape (String "/" p) url.encodePath)
    with (String "/" (url.escape p url.encodePath)) by reflexivity.
  cbn [String.eqb Ascii.eqb Bool.eqb negb andb orb strings.HasPrefix append].
  unfold withMark. rewrite append_assoc.
  destruct (query =? ""); reflexivity.
Qed.

End PlainBase.

(** *** The joined path *)

(** Every piece [Split] cuts is free of the separator, and made of bytes
    of the string. *)
Lemma Split_pieces P s c :
  strings.all P s = true ->
  Forall (fun e => strings.all P e = true /\ strings.all (isnt c) e = true)
    (strings.Split s c).
Proof.
  induction s as [|a s IH]; cbn [strings.Split strings.all]; intros H.
  - repeat constructor.
  - apply andb_prop in H as [Ha Hs]. specialize (IH Hs).
    destruct (Ascii.eqb a c) eqn:E.
    + constructor; [split; reflexivity | exact IH].
    + destruct (strings.Split s c) as [|e es]; [repeat constructor; cbn|].
      * now rewrite Ha.
      * unfold isnt. now rewrite E.
      * inversion IH as [|? ? [H1 H2] H3]; subst. constructor; [|exact H3].
        cbn. unfold isnt at 1. now rewrite Ha, E, H1, H2.
Qed.

(** [Clean] keeps only pieces of its input, and none that is empty. *)
Lemma clean_fold_keeps (Q : string -> Prop) rooted es out :
  Forall Q es ->
  Forall (fun e => Q e /\ e <> "") out ->
  Forall (fun e => Q e /\ e <> "") (fold_left (path.clean_step rooted) es out).
Proof.
  intros Hes. revert out. induction Hes as [|e es He Hes IH]; intros out Hout;
    [exact Hout|].
  cbn [fold_left]. apply IH. unfold path.clean_step.
  destruct (String.eqb_spec e "") as [->|Hne]; [exact Hout|].
  cbn [orb].
  destruct (e =? "."); [exact Hout|].
  destruct (e =? "..").
  - destruct out as [|top rest].
    + destruct rooted; [exact Hout | repeat constructor; assumption].
    + destruct (top =? "..").
      * destruct rooted; [exact Hout | constructor; [split|]; assumption].
      * now inversion Hout.
  - constructor; [split|]; assumption.
Qed.

Lemma all_concat P l :
  P "/"%char = true ->
  Forall (fun e => strings.all P e = true) l ->
  strings.all P (String.concat "/" l) = true.
Proof.
  intros Hs Hl. induction Hl as [|e l He Hl IH]; [reflexivity|].
  cbn [String.concat]. destruct l as [|e' l']; [exact He|].
  rewrite all_app, He. cbn [append strings.all]. now rewrite Hs, IH.
Qed.

Lemma noDoubleSlash_app x t :
  strings.all (isnt "/") x = true -> x <> "" ->
  noDoubleSlash t = true ->
  noDoubleSlash (x ++ t) = true /\ noDoubleSlash (String "/" (x ++ t)) = true.
Proof.
  intros Hx Hne Ht.
  assert (H : noDoubleSlash (x ++ t) = true).
  { clear Hne. induction x as [|a x IH]; [exact Ht|].
    cbn [strings.all] in Hx. apply andb_prop in Hx as [Ha Hx].
    unfold isnt in Ha. apply negb_true_iff in Ha.
    cbn [append noDoubleSlash]. now rewrite Ha, (IH Hx). }
  split; [exact H|].
  destruct x as [|a x]; [congruence|].
  cbn [strings.all] in Hx. apply andb_prop in Hx as [Ha _].
  unfold isnt in Ha. apply negb_true_iff in Ha.
  cbn [noDoubleSlash]. rewrite H. cbn [append strings.HasPrefix].
  now rewrite Ha.
Qed.

Lemma noDoubleSlash_concat l :
  Forall (fun e => strings.all (isnt "/") e = true /\ e <> "") l ->
  noDoubleSlash (String.concat "/" l) = true
  /\ noDoubleSlash (String "/" (String.concat "/" l)) = true.
Proof.
  intros Hl. induction Hl as [|e l [He Hne] Hl IH]; [split; reflexivity|].
  cbn [String.concat]. destruct l as [|e' l'].
  - rewrite <- (append_empty e). now apply noDoubleSlash_app.
  - apply noDoubleSlash_app; [assumption..|]. apply IH.
Qed.

Lemma Clean_rooted (P : byte -> bool) p :
  exists l,
    path.Clean (String "/" p) = String "/" (String.concat "/" l)
    /\ Forall (fun e => strings.all (isnt "/") e = true /\ e <> "") l
    /\ (strings.all P p = true -> Forall (fun e => strings.all P e = true) l).
Proof.
  exists (rev (fold_left (path.clean_step true) (strings.Split (String "/" p) "/") [])).
  split; [reflexivity|]. split.
  - apply Forall_rev.
    apply (clean_fold_keeps (fun e => strings.all (isnt "/") e = true)); [|constructor].
    assert (Ht : strings.all (fun _ => true) (String "/" p) = true)
      by (clear; induction p; cbn; auto).
    pose proof (Split_pieces _ _ "/"%char Ht) as H.
    eapply Forall_impl; [|exact H]. now intros e [_ He].
  - intros Hp. apply Forall_rev.
    assert (H : Forall (fun e => strings.all P e = true /\ e <> "")
                  (fold_left (path.clean_step true)
                     (strings.Split (String "/" p) "/") [])).
    { apply (clean_fold_keeps (fun e => strings.all P e = true)); [|constructor].
      cbn [strings.Split]. rewrite Ascii.eqb_refl. constructor; [reflexivity|].
      pose proof (Split_pieces P p "/"%char Hp) as H.
      eapply Forall_impl; [|exact H]. now intros e [He _]. }
    eapply Forall_impl; [|exact H]. now intros e [He _].
Qed.

Lemma escaped_byte_facts c :
  (url.shouldEscape c url.encodePath = true -> Ascii.eqb c "/" = false)
  /\ Ascii.eqb (url.upperhex (code c / 16)) "/" = false
  /\ Ascii.eqb (url.upperhex (code c mod 16)) "/" = false.
Proof. by_bytes c; repeat split; try reflexivity; intros; discriminate. Qed.

Lemma escape_head s :
  strings.HasPrefix (url.escape s url.encodePath) "/" = strings.HasPrefix s "/".
Proof.
  destruct s as [|a s]; [reflexivity|]. cbn [url.escape].
  destruct (url.shouldEscape a url.encodePath) eqn:E; [|reflexivity].
  cbn. now rewrite (proj1 (escaped_byte_facts a) E).
Qed.

(** Escaping a path brings in no slash. *)
Lemma escape_noDoubleSlash s :
  noDoubleSlash s = true -> noDoubleSlash (url.escape s url.encodePath) = true.
Proof.
  induction s as [|a s IH]; [reflexivity|].
  cbn [noDoubleSlash]. intros [Ha Hs]%andb_prop. specialize (IH Hs).
  cbn [url.escape].
  destruct (url.shouldEscape a url.encodePath) eqn:E.
  - destruct (escaped_byte_facts a) as (_ & H1 & H2).
    cbn [noDoubleSlash]. rewrite H1, H2, IH. reflexivity.
  - cbn [noDoubleSlash]. now rewrite escape_head, Ha, IH.
Qed.

Lemma Join_Clean (P : byte -> bool) prefix endpoint :
  rootedOrEmpty prefix = true -> strings.HasPrefix endpoint "/" = true ->
  exists x,
    path.Join prefix endpoint = path.Clean (String "/" x)
    /\ (P "/"%char = true -> strings.all P prefix = true ->
        strings.all P endpoint = true -> strings.all P x = true).
Proof.
  intros Hp He.
  destruct endpoint as [|e es]; [discriminate He|].
  cbn in He. apply andb_prop in He as [He _]. apply Ascii.eqb_eq in He. subst e.
  destruct prefix as [|c p].
  - exists es. split; [reflexivity|].
    intros _ _ H. cbn in H. now apply andb_prop in H.
  - cbn in Hp. apply Ascii.eqb_eq in Hp. subst c.
    exists (p ++ String "/" (String "/" es)). split; [reflexivity|].
    intros Hs H1 H2. cbn in H1, H2.
    apply andb_prop in H1 as [_ H1]. apply andb_prop in H2 as [_ H2].
    rewrite all_app. cbn. now rewrite H1, Hs, H2.
Qed.

(** * Further properties *)

(** X1.  The status code of a response is never looked at: against two
    servers that differ in status codes only, every typed operation and
    the health check return the same. *)
Theorem status_code_ignored bc w1 w2 :
  sameBodies w1 w2 ->
  (forall op, fst (runState (call bc op) w1) = fst (runState (call bc op) w2))
  /\ fst (runState (BurrowClient.HealthCheck bc) w1)
     = fst (runState (BurrowClient.HealthCheck bc) w2).
Proof.
  intros H. split.
  - intros op. rewrite !run_call. unfold roundTrip.
    destruct (url.Parse (BurrowClient.baseUrl bc)) as [u|e]; [|reflexivity].
    cbv zeta. specialize (H (builtUrl u (endpointOf op))).
    destruct (remote w1 (builtUrl u (endpointOf op))) as [f1|[s1 b1]],
             (remote w2 (builtUrl u (endpointOf op))) as [f2|[s2 b2]];
      try contradiction; subst; [reflexivity|].
    destruct (json.Decode (respType op) b2 (json.zero (respType op))) as [d [e|]];
      [reflexivity|].
    destruct (BurrowResp.Error (envelope op d)); reflexivity.
  - rewrite !run_HealthCheck.
    destruct (url.Parse (BurrowClient.baseUrl bc)) as [u|e]; [|reflexivity].
    cbv zeta. specialize (H (builtUrl u "/burrow/admin")).
    destruct (remote w1 (builtUrl u "/burrow/admin")) as [f1|[s1 b1]],
             (remote w2 (builtUrl u "/burrow/admin")) as [f2|[s2 b2]];
      try contradiction; subst; reflexivity.
Qed.

Lemma status_code_ignored_witness :
  (forall op,
      fst (runState (call burrow op) (answering "{}"))
      = fst (runState (call burrow op) (fresh (fun _ => inr (500%Z, "{}")))))
  /\ fst (runState (BurrowClient.HealthCheck burrow) (answering "{}"))
     = fst (runState (BurrowClient.HealthCheck burrow)
              (fresh (fun _ => inr (500%Z, "{}")))).
Proof.
  apply (status_code_ignored burrow (answering "{}")
           (fresh (fun _ => inr (500%Z, "{}")))).
  intros target. reflexivity.
Defined.

Lemma storeMembers_known op ms s saved :
  json.storeMembers (respFields op) (filter (known op) ms) s saved
  = json.storeMembers (respFields op) ms s saved.
Proof.
  revert s saved. induction ms as [|[k v] ms IH]; intros s saved; [reflexivity|].
  cbn [filter json.storeMembers]. unfold known at 1, fieldNamed. cbn [fst].
  destruct (json.findField (respFields op) k) as [f|] eqn:Ef; cbn [option_map].
  - cbn [json.storeMembers]. rewrite Ef.
    destruct (json.set f v s) as [s' e]. apply IH.
  - apply IH.
Qed.

(** X2.  Members whose keys name no field of the response are skipped:
    a body and the same body without them give the same result. *)
Theorem unknown_members_ignored bc op w1 w2 u st1 st2 b1 b2 ms r1 r2 :
  url.Parse (BurrowClient.baseUrl bc) = inl u ->
  remote w1 (builtUrl u (endpointOf op)) = inr (st1, b1) ->
  remote w2 (builtUrl u (endpointOf op)) = inr (st2, b2) ->
  json.readValue b1 = json.ReadValue (json.Object ms) r1 ->
  json.readValue b2 = json.ReadValue (json.Object (filter (known op) ms)) r2 ->
  fst (runState (call bc op) w1) = fst (runState (call bc op) w2).
Proof.
  intros Hu H1 H2 Hb1 Hb2.
  assert (Hd : json.Decode (respType op) b1 (json.zero (respType op))
               = json.Decode (respType op) b2 (json.zero (respType op))).
  { unfold json.Decode. rewrite Hb1, Hb2, !store_object.
    symmetry. apply storeMembers_known. }
  rewrite !run_call. unfold roundTrip. rewrite Hu. cbv zeta.
  rewrite H1, H2, Hd.
  destruct (json.Decode (respType op) b2 (json.zero (respType op))) as [d [e|]];
    [reflexivity|].
  destruct (BurrowResp.Error (envelope op d)); reflexivity.
Qed.

Lemma unknown_members_ignored_witness :
  fst (runState (call burrow OpListClusters)
         (answering (text "{'error': false, 'request': {'host': 'b1'}, 'clusters': ['a'], 'v': 3}")))
  = fst (runState (call burrow OpListClusters)
           (answering (text "{'error': false, 'clusters': ['a']}"))).
Proof.
  apply (unknown_members_ignored burrow OpListClusters _ _ localhost 200%Z 200%Z
           (text "{'error': false, 'request': {'host': 'b1'}, 'clusters': ['a'], 'v': 3}")
           (text "{'error': false, 'clusters': ['a']}")
           [("error", json.Bool false);
            ("request", json.Object [("host", json.Str "b1")]);
            ("clusters", json.Array [json.Str "a"]);
            ("v", json.Number "3")] "" "");
    reflexivity.
Defined.

(** X3.  A body whose first value is not an object: the literal null is
    accepted and gives the zero response with no error; a boolean, a
    number, a string or an array is refused by the decoder, with an error
    that names the kind of the value and the Go type of the response. *)
Theorem non_object_body bc op w u status body v rest :
  url.Parse (BurrowClient.baseUrl bc) = inl u ->
  remote w (builtUrl u (endpointOf op)) = inr (status, body) ->
  json.readValue body = json.ReadValue v rest ->
  match v with
  | json.Object _ => True
  | json.Null =>
      fst (runState (call bc op) w) = (Some (json.zero (respType op)), None)
  | _ =>
      fst (runState (call bc op) w)
      = (None, Some (json_Error (json.UnmarshalTypeError (json.kindOf v)
                                   (json.typeName (respType op)))))
  end.
Proof.
  intros Hu Hr Hv.
  rewrite run_call. unfold roundTrip. rewrite Hu. cbv zeta. rewrite Hr.
  unfold json.Decode. rewrite Hv.
  destruct v; [| | | | |exact I]; destruct op; reflexivity.
Qed.

Lemma non_object_body_witness :
  fst (runState (call burrow (OpClusterDetails "local")) (answering "null"))
  = (Some ClusterDetailsResp.zero, None)
  /\ fst (runState (call burrow (OpClusterDetails "local")) (answering "[]"))
     = (None, Some (json_Error (json.UnmarshalTypeError "array"
                                  "burrow_exporter.ClusterDetailsResp"))).
Proof.
  split.
  - exact (non_object_body burrow (OpClusterDetails "local") (answering "null")
             localhost 200%Z "null" json.Null "" eq_refl eq_refl eq_refl).
  - exact (non_object_body burrow (OpClusterDetails "local") (answering "[]")
             localhost 200%Z "[]" (json.Array []) "" eq_refl eq_refl eq_refl).
Defined.

(** X5.  [getJsonReq] makes one request.  When it is answered, the body
    is handed to the decoder once and closed once, and the closing is the
    last thing that happens, whether the decoding fails or not; when it is
    not answered, nothing is opened, decoded or closed. *)
Theorem getJsonReq_closes_once {A} bc target (T : json.GoType A) dest w :
  exists evs,
    snd (runState (BurrowClient.getJsonReq bc target T dest) w) = after w evs
    /\ requests evs = [target]
    /\ decodes evs = opens evs /\ closes evs = opens evs
    /\ (forall status body,
           remote w target = inr (status, body) ->
           opens evs = [opened (trace w)]
           /\ last evs (Requested target) = Closed (opened (trace w)))
    /\ (forall f, remote w target = inl f -> opens evs = []).
Proof.
  rewrite run_getJsonReq.
  destruct (remote w target) as [f|[status body]].
  - eexists. split; [reflexivity|]. repeat split; try reflexivity; discriminate.
  - cbv zeta. destruct (json.Decode T body dest) as [dest' [e|]];
      (eexists; split; [reflexivity|]);
      (repeat split; try reflexivity; discriminate).
Qed.

(** X6.  A typed operation logs nothing exactly when it returns a
    result: each of its failures leaves at least one line.  The health
    check logs only when the base address does not parse; a GET that fails
    is returned without a line. *)
Theorem logging_discipline bc w :
  (forall op, exists evs,
      snd (runState (call bc op) w) = after w evs
      /\ (logs evs = [] <-> exists d, fst (runState (call bc op) w) = (Some d, None)))
  /\ (exists evs,
        snd (runState (BurrowClient.HealthCheck bc) w) = after w evs
        /\ (logs evs = [] <-> exists u, url.Parse (BurrowClient.baseUrl bc) = inl u)).
Proof.
  split.
  - intros op. rewrite run_call. unfold roundTrip.
    destruct (url.Parse (BurrowClient.baseUrl bc)) as [u|e].
    + cbv zeta.
      destruct (remote w (builtUrl u (endpointOf op))) as [f|[status body]].
      * eexists. split; [reflexivity|]. split; [discriminate|]. intros [d H]. discriminate H.
      * destruct (json.Decode (respType op) body (json.zero (respType op)))
          as [dest [e|]].
        -- eexists. split; [reflexivity|]. split; [discriminate|].
           intros [d H]. discriminate H.
        -- destruct (BurrowResp.Error (envelope op dest)).
           ++ eexists. split; [reflexivity|]. split; [discriminate|].
              intros [d H]. discriminate H.
           ++ eexists. split; [reflexivity|]. split; [|reflexivity].
              intros _. now exists dest.
    + eexists. split; [reflexivity|]. split; [discriminate|]. intros [d H]. discriminate H.
  - rewrite run_HealthCheck.
    destruct (url.Parse (BurrowClient.baseUrl bc)) as [u|e].
    + cbv zeta. destruct (remote w (builtUrl u "/burrow/admin")) as [f|[status body]];
        (eexists; split; [reflexivity|]); (split; [|reflexivity]); intros _; now exists u.
    + eexists. split; [reflexivity|]. split; [discriminate|]. intros [u H]. discriminate H.
Qed.

Lemma foldName_error : json.foldName "error" = "ERROR".
Proof. vm_compute. reflexivity. Qed.

Lemma foldName_message : json.foldName "message" = "MESSAGE".
Proof. vm_compute. reflexivity. Qed.

(** A key that folds to the same text as [error] or [message] names that
    field of every response. *)
Lemma findField_folded op key nm :
  nm = "error" \/ nm = "message" ->
  json.foldName key = json.foldName nm ->
  exists f, json.findField (respFields op) key = Some f /\ json.name f = nm.
Proof.
  intros Hnm Hk. unfold json.findField.
  destruct Hnm; subst nm; rewrite ?foldName_error, ?foldName_message in Hk;
  destruct op; cbn [respFields ClustersResp.fields ClusterDetailsResp.fields
    ConsumerGroupsResp.fields ConsumerGroupTopicsResp.fields
    ConsumerGroupTopicDetailsResp.fields ConsumerGroupStatusResp.fields
    ClusterTopicDetailsResp.fields BurrowResp.promoted app find json.name json.mkField];
    repeat match goal with
    | |- context [String.eqb ?n key] =>
        destruct (String.eqb_spec n key) as [<-|_];
        [first [discriminate Hk | eexists; split; reflexivity]|]
    end;
    rewrite Hk, ?foldName_error, ?foldName_message;
    eexists; split; reflexivity.
Qed.

(** What storing a boolean into the flag and a string into the message
    does. *)
Lemma field_sets op f s :
  In f (respFields op) ->
  (json.name f = "error" ->
   forall b, BurrowResp.Error (envelope op (fst (json.set f (json.Bool b) s))) = b
             /\ snd (json.set f (json.Bool b) s) = None)
  /\ (json.name f = "message" ->
      forall m, BurrowResp.Message (envelope op (fst (json.set f (json.Str m) s))) = m
                /\ snd (json.set f (json.Str m) s) = None).
Proof.
  destruct op; cbn [respFields]; intros [<-|[<-|[<-|[]]]];
    cbn [json.name json.mkField json.set];
    (split; intros Hn; [|]); try discriminate Hn; intros x; split; reflexivity.
Qed.

(** X4.  Member keys are matched to the fields of the response without
    regard to case: a body whose first value is an object with a member
    whose key folds to [ERROR] holding [true], then one whose key folds to
    [MESSAGE] holding a string, makes every typed operation fail with that
    string as the message. *)
Theorem folded_keys_match bc op w u status body ke km msg rest :
  url.Parse (BurrowClient.baseUrl bc) = inl u ->
  remote w (builtUrl u (endpointOf op)) = inr (status, body) ->
  json.readValue body
  = json.ReadValue (json.Object [(ke, json.Bool true); (km, json.Str msg)]) rest ->
  json.foldName ke = "ERROR" ->
  json.foldName km = "MESSAGE" ->
  fst (runState (call bc op) w) = (None, Some (errors_New msg)).
Proof.
  intros Hu Hr Hv Hke Hkm.
  destruct (findField_folded op ke "error" (or_introl eq_refl) Hke) as (fe & Hfe & Ne).
  destruct (findField_folded op km "message" (or_intror eq_refl) Hkm) as (fm & Hfm & Nm).
  pose proof (findField_In _ _ _ Hfe) as Ie.
  pose proof (findField_In _ _ _ Hfm) as Im.
  rewrite run_call. unfold roundTrip. rewrite Hu. cbv zeta. rewrite Hr.
  unfold json.Decode. rewrite Hv, store_object.
  cbn [json.storeMembers]. rewrite Hfe.
  destruct (proj1 (field_sets op fe (json.zero (respType op)) Ie) Ne true) as [E1 E2].
  destruct (json.set fe (json.Bool true) (json.zero (respType op))) as [s1 e1] eqn:S1.
  cbn [fst snd] in E1, E2. subst e1. rewrite Hfm. cbn [json.saveError].
  destruct (proj2 (field_sets op fm s1 Im) Nm msg) as [M1 M2].
  pose proof (field_effects op fm (json.Str msg) s1 Im) as (_ & K & _).
  assert (Hne : json.name fm <> "error") by (rewrite Nm; discriminate).
  specialize (K Hne).
  destruct (json.set fm (json.Str msg) s1) as [s2 e2] eqn:S2.
  cbn [fst snd] in M1, M2, K. subst e2.
  rewrite K, E1, M1. reflexivity.
Qed.

Lemma folded_keys_match_witness :
  fst (runState (call burrow OpListClusters)
         (answering (text "{'ERROR':true,'Message':'boom'}")))
  = (None, Some (errors_New "boom")).
Proof.
  apply (folded_keys_match burrow OpListClusters
            (answering (text "{'ERROR':true,'Message':'boom'}"))
            localhost 200%Z (text "{'ERROR':true,'Message':'boom'}") "ERROR" "Message" "boom" "");
    [vm_compute; reflexivity | reflexivity | vm_compute; reflexivity
    | reflexivity | reflexivity].
Defined.

(** ** Sessions *)

Lemma opens_app a b : opens (a ++ b) = (opens a ++ opens b)%list.
Proof. apply flat_map_app. Qed.

Lemma closes_app a b : closes (a ++ b) = (closes a ++ closes b)%list.
Proof. apply flat_map_app. Qed.

Lemma opened_opens tr : opened tr = List.length (opens tr).
Proof.
  unfold opened, opens. induction tr as [|e tr IH]; [reflexivity|].
  destruct e; cbn; now rewrite ?IH.
Qed.

(** The three ways the events of one call touch the bodies: none is
    opened; one is opened and closed; one is opened and left open. *)
Lemma leaked_none tr evs :
  opens evs = [] -> closes evs = [] ->
  numbered tr -> numbered (tr ++ evs) /\ leaked (tr ++ evs) = leaked tr.
Proof.
  intros Ho Hc Hn. unfold numbered, leaked.
  rewrite opened_opens, opens_app, closes_app, Ho, Hc, !app_nil_r, <- opened_opens.
  split; [exact Hn | reflexivity].
Qed.

Lemma leaked_closed tr evs :
  opens evs = [opened tr] -> closes evs = [opened tr] ->
  numbered tr -> numbered (tr ++ evs) /\ leaked (tr ++ evs) = leaked tr.
Proof.
  intros Ho Hc Hn. unfold numbered, leaked.
  rewrite (opened_opens (tr ++ evs)), opens_app, closes_app, Ho, Hc.
  rewrite length_app, <- opened_opens. cbn [List.length]. split.
  - intros id Hin. rewrite !in_app_iff in Hin. cbn [In] in Hin.
    assert (id < opened tr \/ id = opened tr) as [H|H]; [|lia|lia].
    destruct Hin as [[H|[H|[]]]|[H|[H|[]]]]; try (right; congruence);
      left; apply Hn, in_app_iff; tauto.
  - rewrite filter_app. cbn [filter]. rewrite existsb_app. cbn [existsb].
    rewrite Nat.eqb_refl, orb_true_r. cbn [negb]. rewrite app_nil_r.
    apply filter_ext_in. intros b Hb. rewrite existsb_app. cbn [existsb].
    assert (b < opened tr) by (apply Hn, in_app_iff; tauto).
    replace (Nat.eqb b (opened tr)) with false
      by (symmetry; apply Nat.eqb_neq; lia).
    now rewrite !orb_false_r.
Qed.

Lemma leaked_open tr evs :
  opens evs = [opened tr] -> closes evs = [] ->
  numbered tr ->
  numbered (tr ++ evs) /\ leaked (tr ++ evs) = (leaked tr ++ [opened tr])%list.
Proof.
  intros Ho Hc Hn. unfold numbered, leaked.
  rewrite (opened_opens (tr ++ evs)), opens_app, closes_app, Ho, Hc.
  rewrite length_app, <- opened_opens, app_nil_r. cbn [List.length]. split.
  - intros id Hin. rewrite !in_app_iff in Hin. cbn [In] in Hin.
    assert (id < opened tr \/ id = opened tr) as [H|H]; [|lia|lia].
    destruct Hin as [[H|[H|[]]]|H]; try (right; congruence);
      left; apply Hn, in_app_iff; tauto.
  - rewrite filter_app. cbn [filter].
    replace (existsb (Nat.eqb (opened tr)) (closes tr)) with false; [reflexivity|].
    symmetry. apply not_true_is_false. intros H.
    apply existsb_exists in H as (b & Hb & E). apply Nat.eqb_eq in E. subst b.
    assert (opened tr < opened tr) by (apply Hn, in_app_iff; tauto). lia.
Qed.

(** A typed operation leaves the bodies left open as they were. *)
Lemma call_keeps_leaked bc op w :
  numbered (trace w) ->
  let w' := snd (runState (call bc op) w) in
  remote w' = remote w /\ numbered (trace w') /\ leaked (trace w') = leaked (trace w).
Proof.
  intros Hn w'. subst w'. rewrite run_call. unfold roundTrip.
  destruct (url.Parse (BurrowClient.baseUrl bc)) as [u|e].
  - cbv zeta.
    destruct (remote w (builtUrl u (endpointOf op))) as [f|[status body]].
    + split; [reflexivity|]. now apply leaked_none.
    + destruct (json.Decode (respType op) body (json.zero (respType op)))
        as [dest [e|]]; [|destruct (BurrowResp.Error (envelope op dest))];
        (split; [reflexivity|]); now apply leaked_closed.
  - split; [reflexivity|]. now apply leaked_none.
Qed.

(** A health check leaves one more body open when its GET is answered. *)
Lemma HealthCheck_adds_leaked bc w :
  numbered (trace w) ->
  let w' := snd (runState (BurrowClient.HealthCheck bc) w) in
  remote w' = remote w /\ numbered (trace w')
  /\ leaked (trace w')
     = (leaked (trace w) ++ (if answered bc w then [opened (trace w)] else []))%list.
Proof.
  intros Hn w'. subst w'. rewrite run_HealthCheck. unfold answered.
  destruct (url.Parse (BurrowClient.baseUrl bc)) as [u|e].
  - cbv zeta.
    destruct (remote w (builtUrl u "/burrow/admin")) as [f|[status body]];
      (split; [reflexivity|]).
    + rewrite app_nil_r. now apply leaked_none.
    + now apply leaked_open.
  - split; [reflexivity|]. rewrite app_nil_r. now apply leaked_none.
Qed.

Lemma answered_remote bc w w' : remote w' = remote w -> answered bc w' = answered bc w.
Proof. intros H. unfold answered. now rewrite H. Qed.

Lemma session_leaked bc rs w :
  numbered (trace w) ->
  List.length (leaked (trace (snd (runState (session bc rs) w))))
  = List.length (leaked (trace w)) + (if answered bc w then healthChecks rs else 0).
Proof.
  revert w. induction rs as [|[|op] rs IH]; intros w Hn.
  - cbn. destruct (answered bc w); lia.
  - cbn [session]. rewrite run_bind.
    destruct (HealthCheck_adds_leaked bc w Hn) as (Hr & Hn' & Hl).
    destruct (runState (BurrowClient.HealthCheck bc) w) as [r w'].
    cbn [snd] in Hr, Hn', Hl. cbn [fst snd]. rewrite (IH w' Hn'), Hl.
    rewrite (answered_remote bc w w' Hr), length_app.
    unfold healthChecks. cbn [filter List.length].
    destruct (answered bc w); cbn [List.length]; lia.
  - cbn [session]. rewrite run_bind.
    destruct (call_keeps_leaked bc op w Hn) as (Hr & Hn' & Hl).
    destruct (runState (call bc op) w) as [r w'].
    cbn [snd] in Hr, Hn', Hl. cbn [fst snd]. rewrite (IH w' Hn'), Hl.
    rewrite (answered_remote bc w w' Hr). reflexivity.
Qed.

(** X7.  Over any sequence of calls on one client, starting with nothing
    on record, the bodies left open are those of the health checks: each
    health check whose GET is answered leaves one more body open, and the
    typed operations leave none, however they end. *)
Theorem session_leaks bc answer rs :
  List.length (leaked (trace (snd (runState (session bc rs) (fresh answer)))))
  = if answered bc (fresh answer) then healthChecks rs else 0.
Proof.
  rewrite session_leaked; [reflexivity|]. intros id [].
Qed.

(** ** Endpoints and [path.Join] *)

Lemma requestsOf_call bc op w :
  requestsOf (call bc op) w
  = (requests (trace w)
     ++ match url.Parse (BurrowClient.baseUrl bc) with
        | inl u => [builtUrl u (endpointOf op)]
        | inr _ => []
        end)%list.
Proof.
  unfold requestsOf. rewrite run_call. unfold roundTrip.
  destruct (url.Parse (BurrowClient.baseUrl bc)) as [u|e].
  - cbv zeta.
    destruct (remote w (builtUrl u (endpointOf op))) as [f|[status body]].
    + cbn [snd after trace]. unfold requests. now rewrite flat_map_app.
    + destruct (json.Decode (respType op) body (json.zero (respType op)))
        as [dest [e|]]; [|destruct (BurrowResp.Error (envelope op dest))];
        cbn [snd after trace]; unfold requests; now rewrite flat_map_app.
  - cbn [snd after trace]. unfold requests. now rewrite flat_map_app.
Qed.

Lemma Split_nonempty s c : strings.Split s c <> [].
Proof.
  destruct s as [|a s]; cbn [strings.Split]; [discriminate|].
  destruct (Ascii.eqb a c); [discriminate|].
  destruct (strings.Split s c); discriminate.
Qed.

(** [Split] cuts at every separator. *)
Lemma Split_app a b c :
  strings.Split (a ++ String c b) c = (strings.Split a c ++ strings.Split b c)%list.
Proof.
  induction a as [|x a IH]; cbn [append strings.Split].
  - now rewrite Ascii.eqb_refl.
  - destruct (Ascii.eqb x c); [now rewrite IH|].
    rewrite IH. pose proof (Split_nonempty a c).
    destruct (strings.Split a c); [contradiction | reflexivity].
Qed.

Lemma Split_whole s c : strings.all (isnt c) s = true -> strings.Split s c = [s].
Proof.
  induction s as [|a s IH]; cbn [strings.all strings.Split]; [reflexivity|].
  unfold isnt at 1. intros [Ha Hs]%andb_prop. apply negb_true_iff in Ha.
  now rewrite Ha, (IH Hs).
Qed.

(** [Clean] depends on its argument through whether it is rooted and what
    is left once its elements have gone through the loop. *)
Lemma Clean_fold c p q :
  fold_left (path.clean_step (Ascii.eqb c "/")) (strings.Split (String c p) "/") []
  = fold_left (path.clean_step (Ascii.eqb c "/")) (strings.Split (String c q) "/") [] ->
  path.Clean (String c p) = path.Clean (String c q).
Proof. intros H. unfold path.Clean. cbv zeta. now rewrite H. Qed.

(** [Join] on an endpoint that is not empty. *)
Lemma Join_endpoint p c e :
  path.Join p (String c e)
  = match p with
    | "" => path.Clean (String c e)
    | _ => path.Clean (p ++ String "/" (String c e))
    end.
Proof. destruct p; reflexivity. Qed.

(** Two endpoints that go through [Clean]'s loop alike, from whatever has
    been read before them, are joined alike to every path. *)
Lemma Join_alike e1 e2 :
  (forall rooted out,
      fold_left (path.clean_step rooted) (strings.Split e1 "/") out
      = fold_left (path.clean_step rooted) (strings.Split e2 "/") out) ->
  forall p, path.Join p (String "/" e1) = path.Join p (String "/" e2).
Proof.
  intros H p. rewrite !Join_endpoint. destruct p as [|c p].
  - apply Clean_fold.
    change (String "/" e1) with ("" ++ String "/" e1).
    change (String "/" e2) with ("" ++ String "/" e2).
    rewrite !Split_app, !fold_left_app. apply H.
  - cbn [append]. apply Clean_fold.
    replace (p ++ String "/" (String "/" e1)) with ((p ++ "/") ++ String "/" e1)
      by (now rewrite append_assoc).
    replace (p ++ String "/" (String "/" e2)) with ((p ++ "/") ++ String "/" e2)
      by (now rewrite append_assoc).
    change (String c ((p ++ "/") ++ String "/" e1))
      with (String c (p ++ "/") ++ String "/" e1).
    change (String c ((p ++ "/") ++ String "/" e2))
      with (String c (p ++ "/") ++ String "/" e2).
    rewrite !Split_app, !fold_left_app. apply H.
Qed.

(** The elements of [a/b] are those of [a], then those of [b]. *)
Lemma fold_Split_app rooted a b out :
  fold_left (path.clean_step rooted) (strings.Split (a ++ String "/" b) "/") out
  = fold_left (path.clean_step rooted) (strings.Split b "/")
      (fold_left (path.clean_step rooted) (strings.Split a "/") out).
Proof. now rewrite Split_app, fold_left_app. Qed.

(** X8.  The arguments of an operation are not checked, and [path.Join]
    resolves them as path elements: the topic details of the consumer
    group [..] are requested from the URL of the topic details of the
    cluster, and the details of the cluster with the empty name, or of the
    cluster [.], from the URL of the list of clusters. *)
Theorem dot_segments_resolved bc w :
  (forall c t,
      requestsOf (call bc (OpConsumerGroupTopicDetails c ".." t)) w
      = requestsOf (call bc (OpClusterTopicDetails c t)) w)
  /\ requestsOf (call bc (OpClusterDetails "")) w = requestsOf (call bc OpListClusters) w
  /\ requestsOf (call bc (OpClusterDetails ".")) w = requestsOf (call bc OpListClusters) w.
Proof.
  assert (H : forall op1 op2,
             (forall p, path.Join p (endpointOf op1) = path.Join p (endpointOf op2)) ->
             requestsOf (call bc op1) w = requestsOf (call bc op2) w).
  { intros op1 op2 E. rewrite !requestsOf_call.
    destruct (url.Parse (BurrowClient.baseUrl bc)) as [u|e]; [|reflexivity].
    unfold builtUrl. now rewrite E. }
  repeat split; [intros c t|..]; apply H; intros p.
  - replace (endpointOf (OpConsumerGroupTopicDetails c ".." t))
      with (String "/" (("v2/kafka/" ++ c) ++ String "/" ("consumer" ++ String "/"
              (".." ++ String "/" ("topic" ++ String "/" t)))))
      by (rewrite append_assoc; reflexivity).
    replace (endpointOf (OpClusterTopicDetails c t))
      with (String "/" (("v2/kafka/" ++ c) ++ String "/" ("topic" ++ String "/" t)))
      by (rewrite append_assoc; reflexivity).
    apply Join_alike. intros rooted out.
    rewrite !fold_Split_app.
    generalize (fold_left (path.clean_step rooted)
                  (strings.Split ("v2/kafka/" ++ c) "/") out).
    intros o. reflexivity.
  - apply (Join_alike "v2/kafka/" "v2/kafka"). intros rooted out. reflexivity.
  - apply (Join_alike "v2/kafka/." "v2/kafka"). intros rooted out. reflexivity.
Qed.

Lemma Join_trailing_slash p e :
  path.Join (p ++ "/") (String "/" e) = path.Join p (String "/" e).
Proof.
  rewrite !Join_endpoint. destruct p as [|c p]; cbn [append].
  - apply (Clean_fold "/" (String "/" (String "/" e)) e). reflexivity.
  - apply Clean_fold.
    replace (String c ((p ++ "/") ++ String "/" (String "/" e)))
      with ((String c p ++ String "/" "") ++ String "/" ("" ++ String "/" e))
      by (cbn [append]; now rewrite !append_assoc).
    replace (String c (p ++ String "/" (String "/" e)))
      with (String c p ++ String "/" ("" ++ String "/" e)) by reflexivity.
    rewrite !fold_Split_app. reflexivity.
Qed.

(** X9.  A slash at the end of the path of the base address makes no
    difference to the URLs built from it. *)
Theorem trailing_slash_irrelevant host port prefix query fragment endpoint w :
  plain host = true ->
  strings.all is_digit port = true ->
  strings.all pathChar prefix = true ->
  rootedOrEmpty prefix = true ->
  strings.all queryChar query = true ->
  plain fragment = true ->
  strings.HasPrefix endpoint "/" = true ->
  runState (BurrowClient.buildUrl
              (MakeBurrowClient (baseAddress host port (prefix ++ "/") query fragment))
              endpoint) w
  = runState (BurrowClient.buildUrl
                (MakeBurrowClient (baseAddress host port prefix query fragment))
                endpoint) w.
Proof.
  intros Hhost Hport Hprefix Hrooted Hquery Hfragment Hendpoint.
  rewrite !run_buildUrl. cbn [MakeBurrowClient BurrowClient.baseUrl].
  rewrite (Parse_baseAddress host port prefix query fragment); try assumption.
  rewrite (Parse_baseAddress host port (prefix ++ "/") query fragment); try assumption.
  - unfold builtUrl, url.with_Path.
    cbn [url.Scheme url.Opaque url.User url.Host url.Path url.RawPath url.OmitHost
         url.ForceQuery url.RawQuery url.Fragment url.RawFragment].
    destruct endpoint as [|c e]; [discriminate Hendpoint|].
    cbn in Hendpoint. destruct (Ascii.eqb_spec c "/") as [->|]; [|discriminate Hendpoint].
    now rewrite Join_trailing_slash.
  - rewrite all_app, Hprefix. reflexivity.
  - destruct prefix; [reflexivity | exact Hrooted].
Qed.

Lemma trailing_slash_irrelevant_witness :
  runState (BurrowClient.buildUrl (MakeBurrowClient "http://host:8000/prefix/?x=1#top")
              "/v2/kafka") (answering "{}")
  = runState (BurrowClient.buildUrl (MakeBurrowClient "http://host:8000/prefix?x=1#top")
                "/v2/kafka") (answering "{}").
Proof.
  exact (trailing_slash_irrelevant "host" "8000" "/prefix" "x=1" "top" "/v2/kafka"
           (answering "{}") eq_refl eq_refl eq_refl eq_refl eq_refl eq_refl eq_refl).
Defined.

Lemma segment_facts s :
  segment s = true ->
  plain s = true /\ s <> "" /\ s <> "." /\ s <> "..".
Proof.
  unfold segment. intros [[[H1 H2]%andb_prop H3]%andb_prop H4]%andb_prop.
  apply negb_true_iff in H2, H3, H4.
  repeat split; [exact H1|..]; intros ->; discriminate.
Qed.

Lemma segment_noSlash s : segment s = true -> strings.all (isnt "/") s = true.
Proof.
  intros H. apply segment_facts in H as [H _].
  apply (all_impl _ _ _ (fun c Hc => proj1 (proj2 (proj2 (proj2 (unreserved_facts c Hc))))) H).
Qed.

Lemma rootPath_app l1 l2 : rootPath (l1 ++ l2) = rootPath l1 ++ rootPath l2.
Proof.
  induction l1 as [|s l1 IH]; [reflexivity|].
  cbn [rootPath app append]. now rewrite IH, !append_assoc.
Qed.

(** The elements of a rooted path made of segments: an empty one, then
    the segments. *)
Lemma Split_segments s l :
  strings.all (isnt "/") s = true ->
  Forall (fun e => segment e = true) l ->
  strings.Split (s ++ rootPath l) "/" = s :: l.
Proof.
  intros Hs Hl. revert s Hs. induction Hl as [|e l He Hl IH]; intros s Hs.
  - cbn [rootPath]. rewrite append_empty. now apply Split_whole.
  - cbn [rootPath append]. rewrite Split_app, (Split_whole _ _ Hs).
    now rewrite (IH e (segment_noSlash e He)).
Qed.

(** [Clean]'s loop keeps every segment. *)
Lemma fold_segments rooted l out :
  Forall (fun e => segment e = true) l ->
  fold_left (path.clean_step rooted) l out = (rev l ++ out)%list.
Proof.
  intros Hl. revert out. induction Hl as [|e l He Hl IH]; intros out; [reflexivity|].
  cbn [fold_left rev]. rewrite IH, <- app_assoc. cbn [app]. f_equal.
  apply segment_facts in He as (_ & H1 & H2 & H3).
  unfold path.clean_step.
  apply String.eqb_neq in H1, H2, H3. now rewrite H1, H2, H3.
Qed.

Lemma concat_rootPath l : l <> [] -> String "/" (String.concat "/" l) = rootPath l.
Proof.
  induction l as [|s l IH]; [congruence|]. intros _.
  cbn [rootPath append]. f_equal. destruct l as [|s' l'].
  - cbn. now rewrite append_empty.
  - cbn [String.concat]. rewrite <- IH by discriminate. reflexivity.
Qed.

Lemma fold_skip_empty rooted l out :
  fold_left (path.clean_step rooted) ("" :: l) out
  = fold_left (path.clean_step rooted) l out.
Proof. reflexivity. Qed.

(** A rooted path made of segments is clean. *)
Lemma Clean_segments l :
  Forall (fun e => segment e = true) l -> l <> [] -> path.Clean (rootPath l) = rootPath l.
Proof.
  intros Hl Hne. destruct l as [|s l]; [congruence|].
  cbn [rootPath append]. unfold path.Clean. cbv zeta. cbn [Ascii.eqb Bool.eqb].
  change (String "/" (s ++ rootPath l)) with ("" ++ rootPath (s :: l)).
  rewrite (Split_segments "" (s :: l) eq_refl Hl), fold_skip_empty.
  rewrite (fold_segments true (s :: l) [] Hl), app_nil_r, rev_involutive.
  unfold strings.Join. cbn [append]. now rewrite concat_rootPath.
Qed.

(** Joining two rooted paths made of segments puts one after the
    other. *)
Lemma Join_segments ps es :
  Forall (fun e => segment e = true) ps ->
  Forall (fun e => segment e = true) es ->
  es <> [] ->
  path.Join (rootPath ps) (rootPath es) = rootPath ps ++ rootPath es.
Proof.
  intros Hps Hes Hne.
  destruct es as [|e es]; [congruence|].
  destruct ps as [|p ps].
  - cbn [rootPath append path.Join]. now apply (Clean_segments (e :: es)).
  - replace (path.Join (rootPath (p :: ps)) (rootPath (e :: es)))
      with (path.Clean (rootPath (p :: ps) ++ String "/" (rootPath (e :: es))))
      by reflexivity.
    change (rootPath (p :: ps) ++ String "/" (rootPath (e :: es)))
      with (String "/" ((p ++ rootPath ps) ++ String "/" (rootPath (e :: es)))).
    unfold path.Clean. cbv zeta. cbn [Ascii.eqb Bool.eqb].
    change (String "/" ((p ++ rootPath ps) ++ String "/" (rootPath (e :: es))))
      with (("" ++ rootPath (p :: ps)) ++ String "/" ("" ++ rootPath (e :: es))).
    rewrite Split_app, fold_left_app.
    rewrite (Split_segments "" (p :: ps) eq_refl Hps).
    rewrite (Split_segments "" (e :: es) eq_refl Hes).
    rewrite !fold_skip_empty, !fold_segments, app_nil_r by assumption.
    rewrite rev_app_distr, !rev_involutive.
    unfold strings.Join. cbn [append].
    rewrite concat_rootPath by discriminate.
    apply rootPath_app.
Qed.

(** The endpoint of an operation whose arguments are segments is a
    rooted path made of segments. *)
Lemma endpoint_segments op :
  Forall (fun e => segment e = true) (args op) ->
  exists es, endpointOf op = rootPath es
             /\ Forall (fun e => segment e = true) es /\ es <> [].
Proof.
  destruct op as [|c|c|c g|c g t|c g|c g|c t]; cbn [args endpointOf]; intros H;
    repeat match goal with
    | H : Forall _ (_ :: _) |- _ => apply Forall_cons_iff in H as [? H]
    end;
    [ exists ["v2"; "kafka"]
    | exists ["v2"; "kafka"; c]
    | exists ["v2"; "kafka"; c; "consumer"]
    | exists ["v2"; "kafka"; c; "consumer"; g; "topic"]
    | exists ["v2"; "kafka"; c; "consumer"; g; "topic"; t]
    | exists ["v2"; "kafka"; c; "consumer"; g; "status"]
    | exists ["v2"; "kafka"; c; "consumer"; g; "lag"]
    | exists ["v2"; "kafka"; c; "topic"; t] ];
    (split; [cbn; rewrite ?append_empty; reflexivity
            | split; [repeat constructor; assumption | discriminate]]).
Qed.

Lemma rootPath_pathChar l :
  Forall (fun e => segment e = true) l -> strings.all pathChar (rootPath l) = true.
Proof.
  intros Hl. induction Hl as [|e l He Hl IH]; [reflexivity|].
  cbn [rootPath append strings.all]. rewrite all_app, IH.
  apply segment_facts in He as [He _].
  rewrite (all_impl unreserved pathChar e); [reflexivity | | exact He].
  intros c Hc. unfold pathChar. now rewrite Hc.
Qed.

Lemma rootPath_rooted l : rootedOrEmpty (rootPath l) = true.
Proof. destruct l; reflexivity. Qed.

(** The URL built for a rooted path of segments, from a base address
    whose path is one. *)
Lemma buildUrl_segments host port ps query fragment es w :
  plain host = true ->
  strings.all is_digit port = true ->
  Forall (fun e => segment e = true) ps ->
  strings.all queryChar query = true ->
  plain fragment = true ->
  Forall (fun e => segment e = true) es -> es <> [] ->
  runState (BurrowClient.buildUrl
              (MakeBurrowClient (baseAddress host port (rootPath ps) query fragment))
              (rootPath es)) w
  = (("http://" ++ (host ++ ":" ++ port) ++ (rootPath ps ++ rootPath es)
      ++ withMark "?" query ++ withMark "#" fragment, None), w).
Proof.
  intros Hhost Hport Hps Hquery Hfragment Hes Hne.
  rewrite run_buildUrl. cbn [MakeBurrowClient BurrowClient.baseUrl].
  rewrite (Parse_baseAddress host port (rootPath ps) query fragment);
    try assumption; [|now apply rootPath_pathChar | apply rootPath_rooted].
  unfold builtUrl, url.with_Path.
  cbn [url.Scheme url.Opaque url.User url.Host url.Path url.RawPath url.OmitHost
       url.ForceQuery url.RawQuery url.Fragment url.RawFragment].
  rewrite Join_segments by assumption.
  rewrite <- rootPath_app.
  assert (Hall : Forall (fun e => segment e = true) (ps ++ es)) by now apply Forall_app.
  assert (Hn : (ps ++ es)%list <> []) by (destruct ps, es; cbn; congruence).
  pose proof (rootPath_pathChar _ Hall) as Hp.
  destruct (ps ++ es)%list as [|s l] eqn:E; [congruence|].
  change (rootPath (s :: l)) with (String "/" (s ++ rootPath l)) in Hp |- *.
  rewrite String_rooted by assumption.
  rewrite (escape_unescaped url.encodePath); [reflexivity|].
  apply (all_impl pathChar); [intros c Hc; apply (pathChar_path c Hc) | exact Hp].
Qed.

(** X10.  From a base address http://host:port followed by a path of
    segments, with a query and a fragment or without, and for arguments
    that are segments, the URL built for an operation is the base address
    with the endpoint put right after its path, byte for byte; so is the
    URL built for the health check. *)
Theorem buildUrl_appends_endpoint host port ps query fragment w :
  plain host = true ->
  strings.all is_digit port = true ->
  Forall (fun e => segment e = true) ps ->
  strings.all queryChar query = true ->
  plain fragment = true ->
  let bc := MakeBurrowClient (baseAddress host port (rootPath ps) query fragment) in
  let built endpoint :=
    "http://" ++ (host ++ ":" ++ port) ++ (rootPath ps ++ endpoint)
    ++ withMark "?" query ++ withMark "#" fragment in
  (forall op,
      Forall (fun e => segment e = true) (args op) ->
      runState (BurrowClient.buildUrl bc (endpointOf op)) w
      = ((built (endpointOf op), None), w))
  /\ runState (BurrowClient.buildUrl bc "/burrow/admin") w
     = ((built "/burrow/admin", None), w).
Proof.
  intros Hhost Hport Hps Hquery Hfragment bc built. subst bc built. cbv beta. split.
  - intros op Hop. destruct (endpoint_segments op Hop) as (es & -> & Hes & Hne).
    now apply buildUrl_segments.
  - apply (buildUrl_segments host port ps query fragment ["burrow"; "admin"]);
      try assumption; [repeat constructor | discriminate].
Qed.

Lemma buildUrl_appends_endpoint_witness :
  runState (BurrowClient.buildUrl (MakeBurrowClient "http://host:8000/a/b?x=1#top")
              (endpointOf (OpConsumerGroupLag "local" "g1"))) (answering "{}")
  = (("http://host:8000/a/b/v2/kafka/local/consumer/g1/lag?x=1#top", None),
     answering "{}").
Proof.
  refine (proj1 (buildUrl_appends_endpoint "host" "8000" ["a"; "b"] "x=1" "top"
                   (answering "{}") eq_refl eq_refl _ eq_refl eq_refl)
            (OpConsumerGroupLag "local" "g1") _);
    repeat constructor.
Defined.

(** ** A base address without its scheme *)

(** [URL.String] does not look at the path of a URL that has an opaque
    part. *)
Lemma String_opaque u p :
  url.Opaque u <> "" -> url.String_ (url.with_Path u p) = url.String_ u.
Proof.
  intros H. apply String.eqb_neq in H.
  unfold url.String_, url.with_Path, url.EscapedFragment.
  cbn [url.Scheme url.Opaque url.User url.Host url.Path url.RawPath url.OmitHost
       url.ForceQuery url.RawQuery url.Fragment url.RawFragment].
  now rewrite H.
Qed.

Lemma schemeChar_facts c :
  schemeChar c = true ->
  notCTL c = true /\ isnt "#" c = true /\ is_upper c = false
  /\ (if is_lower c || is_upper c then true else is_digit c || byte_in c "+-.") = true.
Proof. by_bytes c; intros _; repeat split; reflexivity. Qed.

Lemma lower_facts c :
  is_lower c = true -> schemeChar c = true /\ Ascii.eqb c "*" = false.
Proof. by_bytes c; intros _; split; reflexivity. Qed.

Lemma digit_noSlash c : is_digit c = true -> Ascii.eqb c "/" = false.
Proof. by_bytes c. Qed.

Lemma scanScheme_name name rest :
  strings.all schemeChar name = true ->
  url.scanScheme (name ++ String ":" rest) false = url.FoundScheme name rest.
Proof.
  induction name as [|c name IH]; cbn [append strings.all]; [reflexivity|].
  intros [Hc Hn]%andb_prop. cbn [url.scanScheme]. rewrite (IH Hn).
  apply schemeChar_facts in Hc as (_ & _ & _ & Hc).
  destruct (is_lower c || is_upper c); [reflexivity|]. now rewrite Hc.
Qed.

Lemma ToLower_name name : strings.all schemeChar name = true -> strings.ToLower name = name.
Proof.
  induction name as [|c name IH]; cbn [strings.all strings.ToLower]; [reflexivity|].
  intros [Hc Hn]%andb_prop. rewrite (IH Hn). unfold strings.lower.
  apply schemeChar_facts in Hc as (_ & _ & Hc & _). now rewrite Hc.
Qed.

(** [url.Parse] reads name:port as a URL with the scheme [name] and the
    opaque part [port]. *)
Lemma Parse_schemeless c name port :
  is_lower c = true ->
  strings.all schemeChar name = true ->
  strings.all is_digit port = true ->
  port <> "" ->
  url.Parse (String c name ++ ":" ++ port)
  = inl {| url.Scheme := String c name; url.Opaque := port; url.User := None;
           url.Host := ""; url.Path := ""; url.RawPath := ""; url.OmitHost := false;
           url.ForceQuery := false; url.RawQuery := ""; url.Fragment := "";
           url.RawFragment := "" |}.
Proof.
  intros Hc Hname Hport Hne.
  destruct (lower_facts c Hc) as [Hsc Hstar].
  assert (Hn : strings.all schemeChar (String c name) = true)
    by (cbn [strings.all]; now rewrite Hsc, Hname).
  change (":" ++ port) with (String ":" port).
  set (raw := String c name ++ String ":" port).
  assert (Hhash : strings.all (isnt "#") raw = true).
  { unfold raw. rewrite all_app.
    rewrite (all_impl _ _ _ (fun a Ha => proj1 (proj2 (schemeChar_facts a Ha))) Hn).
    cbn [strings.all].
    now rewrite (all_impl _ _ _ (fun a Ha => proj1 (proj2 (digit_facts a Ha))) Hport). }
  assert (Hctl : url.stringContainsCTLByte raw = false).
  { unfold url.stringContainsCTLByte. apply negb_false_iff.
    change (fun c : byte => negb ((code c <? 32)%N || (code c =? 127)%N)) with notCTL.
    unfold raw. rewrite all_app.
    rewrite (all_impl _ _ _ (fun a Ha => proj1 (schemeChar_facts a Ha)) Hn).
    cbn [strings.all].
    now rewrite (all_impl _ _ _ (fun a Ha => proj1 (digit_facts a Ha)) Hport). }
  assert (Hq : strings.all (isnt "?") port = true)
    by (apply (all_impl _ _ _ (fun a Ha => proj1 (proj2 (proj2 (digit_facts a Ha)))) Hport)).
  assert (Hs : url.getScheme raw = inl (String c name, port)).
  { unfold url.getScheme, raw. cbn [append url.scanScheme].
    rewrite Hc. cbn [orb]. now rewrite (scanScheme_name name port Hname). }
  unfold url.Parse. rewrite (Cut_none _ _ Hhash).
  unfold url.parse. rewrite Hctl.
  replace (raw =? "*") with false
    by (unfold raw; cbn [append String.eqb]; now rewrite Hstar).
  rewrite Hs. cbn [url.bindr]. rewrite (ToLower_name _ Hn).
  rewrite (HasSuffixByte_none _ _ Hq), (Cut_none _ _ Hq). cbn [andb].
  destruct port as [|d ds]; [congruence|].
  cbn [strings.all] in Hport. apply andb_prop in Hport as [Hd _].
  cbn [strings.HasPrefix]. rewrite (digit_noSlash d Hd). reflexivity.
Qed.

(** X11.  A base address written as name:port, without a scheme and the
    two slashes, parses, with the name as its scheme and the port as an
    opaque part; the endpoint is then left out of the URL built: every
    endpoint gives the base address itself. *)
Theorem schemeless_base_drops_endpoint c name port endpoint w :
  is_lower c = true ->
  strings.all schemeChar name = true ->
  strings.all is_digit port = true ->
  port <> "" ->
  runState (BurrowClient.buildUrl (MakeBurrowClient (String c name ++ ":" ++ port))
              endpoint) w
  = ((String c name ++ ":" ++ port, None), w).
Proof.
  intros Hc Hname Hport Hne.
  rewrite run_buildUrl. cbn [MakeBurrowClient BurrowClient.baseUrl].
  rewrite (Parse_schemeless c name port Hc Hname Hport Hne).
  unfold builtUrl. rewrite String_opaque by exact Hne.
  unfold url.String_.
  cbn [url.Scheme url.Opaque url.User url.Host url.Path url.RawPath url.OmitHost
       url.ForceQuery url.RawQuery url.Fragment url.RawFragment].
  destruct port as [|d ds]; [congruence|].
  cbn [String.eqb negb orb]. rewrite !append_empty.
  change (":" ++ String d ds) with (String ":" (String d ds)).
  cbn [append]. now rewrite append_assoc.
Qed.

Lemma schemeless_base_drops_endpoint_witness :
  runState (BurrowClient.buildUrl (MakeBurrowClient "localhost:8000") "/v2/kafka")
    (answering "{}")
  = (("localhost:8000", None), answering "{}").
Proof.
  apply (schemeless_base_drops_endpoint "l" "ocalhost" "8000" "/v2/kafka" (answering "{}"));
    [reflexivity | reflexivity | reflexivity | discriminate].
Defined.

(** ** Bodies *)

Lemma readFrom_blank body :
  strings.all json.isSpace body = true ->
  json.readFrom json.reset true body = json.ReadError json.EOF.
Proof.
  induction body as [|c body IH]; cbn [strings.all json.readFrom]; [reflexivity|].
  intros [Hc Hb]%andb_prop.
  replace (json.scan json.reset c) with (json.scanContinue json.reset)
    by (cbn; unfold json.stepBeginValue; now rewrite Hc).
  rewrite Hc. now apply IH.
Qed.

(** X12.  A body that is empty, or holds nothing but blanks, makes every
    typed operation fail with the decoder's [io.EOF]. *)
Theorem blank_body_is_EOF bc op w u status body :
  url.Parse (BurrowClient.baseUrl bc) = inl u ->
  remote w (builtUrl u (endpointOf op)) = inr (status, body) ->
  strings.all json.isSpace body = true ->
  fst (runState (call bc op) w) = (None, Some (json_Error json.EOF)).
Proof.
  intros Hu Hr Hb. rewrite run_call. unfold roundTrip. rewrite Hu. cbv zeta.
  rewrite Hr. unfold json.Decode, json.readValue. now rewrite (readFrom_blank body Hb).
Qed.

Lemma blank_body_is_EOF_witness :
  fst (runState (call burrow (OpListConsumers "local")) (answering ""))
  = (None, Some (json_Error json.EOF))
  /\ fst (runState (call burrow (OpListConsumers "local")) (answering "  "))
     = (None, Some (json_Error json.EOF)).
Proof.
  split.
  - apply (blank_body_is_EOF burrow (OpListConsumers "local") (answering "")
             localhost 200%Z ""); reflexivity.
  - apply (blank_body_is_EOF burrow (OpListConsumers "local") (answering "  ")
             localhost 200%Z "  "); reflexivity.
Defined.

Lemma scans_app s p q :
  scans s (p ++ q) = match scans s p with
                     | Some s' => scans s' q
                     | None => None
                     end.
Proof.
  revert s. induction p as [|c p IH]; intros s; cbn [append scans]; [reflexivity|].
  destruct (json.scan s c); [apply IH | reflexivity..].
Qed.

(** Reading a body whose first value ends with its byte [c]. *)
Lemma readFrom_scans s blank p c rest s' v :
  scans s p = Some s' ->
  json.scan s' c = json.scanEnd v true ->
  json.readFrom s blank (p ++ String c rest) = json.ReadValue v rest.
Proof.
  revert s blank. induction p as [|a p IH]; intros s blank; cbn [append scans json.readFrom].
  - intros [= ->] ->. reflexivity.
  - destruct (json.scan s a); [|discriminate..]. intros H1 H2. now apply IH.
Qed.

Lemma rev_string_app s acc : json.rev_string s acc = json.rev_string s "" ++ acc.
Proof.
  revert acc. induction s as [|c s IH]; intros acc; cbn [json.rev_string]; [reflexivity|].
  rewrite (IH (String c acc)), (IH (String c "")), append_assoc. reflexivity.
Qed.

Lemma rev_string_append a b :
  json.rev_string (a ++ b) "" = json.rev_string b "" ++ json.rev_string a "".
Proof.
  induction a as [|x a IH]; cbn [append json.rev_string].
  - now rewrite append_empty.
  - rewrite (rev_string_app (a ++ b) (String x "")), IH,
      (rev_string_app a (String x "")), append_assoc.
    reflexivity.
Qed.

Lemma rev_string_involutive s : json.rev_string (json.rev_string s "") "" = s.
Proof.
  induction s as [|c s IH]; [reflexivity|].
  cbn [json.rev_string]. rewrite (rev_string_app s (String c "")), rev_string_append, IH.
  reflexivity.
Qed.

Lemma literalByte_facts c :
  literalByte c = true ->
  Ascii.eqb c dquote = false /\ Ascii.eqb c "\" = false
  /\ (code c <? 32)%N = false /\ (code c <? 128)%N = true.
Proof. by_bytes c; intros _; repeat split; reflexivity. Qed.

(** Inside a string literal, the scanner takes such bytes as they are. *)
Lemma scans_literal n st acc t :
  strings.all literalByte n = true ->
  scans {| json.step := json.stateInString; json.parseState := st;
           json.literal := acc; json.top := t |} n
  = Some {| json.step := json.stateInString; json.parseState := st;
            json.literal := json.rev_string n acc; json.top := t |}.
Proof.
  revert acc. induction n as [|c n IH]; intros acc; cbn [strings.all scans];
    [reflexivity|].
  intros [Hc Hn]%andb_prop.
  apply literalByte_facts in Hc as (H1 & H2 & H3 & _).
  cbn [json.scan json.step]. rewrite H1, H2, H3.
  unfold json.more. cbn [json.parseState json.literal json.top json.rev_string].
  now apply IH.
Qed.

Lemma unquote_literal n : strings.all literalByte n = true -> json.unquote n = n.
Proof.
  unfold json.unquote. induction n as [|c n IH]; cbn [strings.all]; [reflexivity|].
  intros [Hc Hn]%andb_prop.
  apply literalByte_facts in Hc as (_ & H2 & _ & H4).
  cbn [json.unquote_from]. rewrite H2. cbn [utf8.tail_len]. rewrite H4.
  now rewrite (IH Hn).
Qed.

(** The scanner between two elements of an array, [es] read so far. *)

(** A string literal as an element of an array. *)
Lemma scans_quote stp es st n :
  begins stp ->
  strings.all literalByte n = true ->
  scans (inArray stp es st) (quote n)
  = Some (inArray json.stateEndValue (json.Str n :: es) st).
Proof.
  intros Hs Hn. unfold quote, inArray. cbn [scans].
  replace (json.scan {| json.step := stp; json.parseState := json.parseArrayValue es :: st;
                        json.literal := ""; json.top := None |} dquote)
    with (json.scanContinue {| json.step := json.stateInString;
                               json.parseState := json.parseArrayValue es :: st;
                               json.literal := ""; json.top := None |})
    by (destruct Hs as [-> | ->]; reflexivity).
  rewrite scans_app, (scans_literal n _ "" None Hn). cbn [scans json.scan json.step].
  unfold dquote at 1. cbn [Ascii.eqb Bool.eqb json.parseState json.literal json.endValue].
  now rewrite rev_string_involutive, (unquote_literal n Hn).
Qed.

Lemma quote_readsAs n :
  strings.all literalByte n = true -> readsAs (quote n) (json.Str n).
Proof.
  intros Hn stp es st Hs. split.
  - rewrite scans_app, (scans_quote stp es st n Hs Hn). reflexivity.
  - rewrite (scans_quote stp es st n Hs Hn). eexists. split; reflexivity.
Qed.

Lemma quotes_readAs names :
  Forall (fun n => strings.all literalByte n = true) names ->
  Forall2 readsAs (map quote names) (map json.Str names).
Proof.
  induction 1 as [|n names Hn Hnames IH]; constructor;
    [now apply quote_readsAs | exact IH].
Qed.

(** The items of an array, one after the other. *)
Lemma scans_items lits vs :
  Forall2 readsAs lits vs ->
  lits <> [] ->
  forall stp es st,
    begins stp ->
    exists s',
      scans (inArray stp es st) (String.concat "," lits) = Some s'
      /\ json.scan s' "]" = json.closeValue st (json.Array (rev es ++ vs)) "]".
Proof.
  induction 1 as [|lit v lits vs Hlit Hrest IH]; [congruence|]. intros _ stp es st Hs.
  destruct (Hlit stp es st Hs) as (Hcomma & s' & Hs' & Hclose).
  destruct lits as [|lit2 lits].
  - inversion Hrest; subst. exists s'. split; [exact Hs'|].
    rewrite Hclose. reflexivity.
  - change (String.concat "," (lit :: lit2 :: lits))
      with (lit ++ "," ++ String.concat "," (lit2 :: lits)).
    rewrite <- append_assoc, scans_app, Hcomma.
    destruct (IH ltac:(discriminate) json.stateBeginValue (v :: es) st (or_introl eq_refl))
      as (s2 & Hs2 & Hclose2).
    exists s2. split; [exact Hs2|]. rewrite Hclose2. cbn [rev].
    now rewrite <- app_assoc.
Qed.

(** The scanner on the body of a list response: it wants more up to the
    last byte, which ends the value. *)
Lemma scans_listBody key lits vs :
  strings.all literalByte key = true ->
  Forall2 readsAs lits vs ->
  exists front s',
    listBody key lits = String "{" front ++ String "}" ""
    /\ scans json.reset (String "{" front) = Some s'
    /\ json.scan s' "}"
       = json.scanEnd
           (json.Object [("error", json.Bool false); (key, json.Array vs)]) true.
Proof.
  intros Hkey Hlits. unfold listBody.
  set (st := [json.parseObjectValue [("error", json.Bool false)] (Some key)]).
  assert (Harr : exists s',
             scans (inArray json.stateBeginValueOrEmpty [] st) (String.concat "," lits)
             = Some s'
             /\ json.scan s' "]" = json.closeValue st (json.Array vs) "]").
  { destruct lits as [|lit lits].
    - inversion Hlits; subst. eexists. split; reflexivity.
    - apply (scans_items _ _ Hlits ltac:(discriminate) _ [] st (or_intror eq_refl)). }
  destruct Harr as (s' & Hs' & Hclose).
  exists ((text "'error':false,'" ++ key ++ text "':[") ++ String.concat "," lits ++ "]").
  exists {| json.step := json.stateEndValue;
            json.parseState :=
              [json.parseObjectValue
                 [(key, json.Array vs); ("error", json.Bool false)] None];
            json.literal := ""; json.top := None |}.
  split; [|split; [|reflexivity]].
  - cbn [text append]. rewrite !append_assoc. reflexivity.
  - change (String "{" ((text "'error':false,'" ++ key ++ text "':[")
                        ++ String.concat "," lits ++ "]"))
      with ((text "{'error':false,'" ++ key ++ text "':[")
            ++ String.concat "," lits ++ "]").
    rewrite scans_app.
    assert (Hprefix :
      scans json.reset (text "{'error':false,'" ++ key ++ text "':[")
      = Some (inArray json.stateBeginValueOrEmpty [] st)).
    { rewrite scans_app.
      replace (scans json.reset (text "{'error':false,'"))
        with (Some {| json.step := json.stateInString;
                      json.parseState :=
                        [json.parseObjectKey [("error", json.Bool false)] None];
                      json.literal := ""; json.top := None |})
        by reflexivity.
      rewrite scans_app, (scans_literal key _ "" None Hkey).
      cbn [text scans]. cbn [json.scan json.step].
      replace (Ascii.eqb dquote dquote) with true by reflexivity.
      cbn [json.parseState json.literal json.endValue].
      rewrite rev_string_involutive, (unquote_literal key Hkey). reflexivity. }
    rewrite Hprefix, scans_app, Hs'. cbn [scans]. rewrite Hclose. reflexivity.
Qed.

(** What the decoder reads of the body of a list response. *)
Lemma readValue_listBody key lits vs :
  strings.all literalByte key = true ->
  Forall2 readsAs lits vs ->
  json.readValue (listBody key lits)
  = json.ReadValue (json.Object [("error", json.Bool false); (key, json.Array vs)]) "".
Proof.
  intros Hkey Hlits.
  destruct (scans_listBody key lits vs Hkey Hlits) as (front & s' & -> & Hs' & Hend).
  unfold json.readValue. now apply readFrom_scans with (s' := s').
Qed.

Lemma storeElems_strings names :
  json.storeElems json.stringT (map json.Str names) [] = (names, None).
Proof.
  induction names as [|n names IH]; [reflexivity|].
  cbn [map json.storeElems json.store json.stringT json.zero]. now rewrite IH.
Qed.

(** Storing the array of the names into a nil slice of strings. *)
Lemma store_names names :
  exists sl,
    json.store (json.sliceT json.stringT) (json.Array (map json.Str names)) json.nil_slice
    = (sl, None)
    /\ json.elems sl = names.
Proof.
  destruct names as [|n names].
  - eexists. split; reflexivity.
  - cbn [map json.store json.sliceT]. cbn [json.backing json.nil_slice].
    change (json.Str n :: map json.Str names) with (map json.Str (n :: names)).
    rewrite storeElems_strings. eexists. split; [reflexivity|].
    unfold json.elems. cbn [json.len json.backing]. rewrite length_map.
    apply firstn_all.
Qed.

(** Unfolds the decoding of a two-member object into a list response. *)
Ltac store_listBody :=
  unfold json.findField, ClustersResp.fields, ConsumerGroupsResp.fields,
    ConsumerGroupTopicsResp.fields, ConsumerGroupTopicDetailsResp.fields,
    ClusterTopicDetailsResp.fields, BurrowResp.promoted;
  cbn [app find json.name json.mkField String.eqb Ascii.eqb Bool.eqb];
  cbn [json.set json.mkField json.store json.boolT
       ClustersResp.zero ClustersResp.Clusters ClustersResp.BurrowResp
       ConsumerGroupsResp.zero ConsumerGroupsResp.ConsumerGroups
       ConsumerGroupsResp.BurrowResp
       ConsumerGroupTopicsResp.zero ConsumerGroupTopicsResp.Topics
       ConsumerGroupTopicsResp.BurrowResp
       ConsumerGroupTopicDetailsResp.zero ConsumerGroupTopicDetailsResp.Offsets
       ConsumerGroupTopicDetailsResp.BurrowResp
       ClusterTopicDetailsResp.zero ClusterTopicDetailsResp.Offsets
       ClusterTopicDetailsResp.BurrowResp
       BurrowResp.zero BurrowResp.Error BurrowResp.Message].

(** X13.  The list operations give back the names the body lists, in
    the order of the body: for names written with ASCII bytes other than
    control bytes, the double quote and the backslash, the body with the
    flag down and the array of the names under the key of the operation
    makes the operation return exactly those names. *)
Theorem names_round_trip bc op w u status names :
  url.Parse (BurrowClient.baseUrl bc) = inl u ->
  listOp op = true ->
  Forall (fun n => strings.all literalByte n = true) names ->
  remote w (builtUrl u (endpointOf op))
  = inr (status, listBody (payloadName op) (map quote names)) ->
  exists r,
    fst (runState (call bc op) w) = (Some r, None) /\ namesOf op r = Some names.
Proof.
  intros Hu Hop Hnames Hr.
  rewrite run_call. unfold roundTrip. rewrite Hu. cbv zeta. rewrite Hr.
  unfold json.Decode.
  destruct (store_names names) as (sl & Hsl & Hel).
  pose proof (quotes_readAs names Hnames) as Hlits.
  destruct op; try discriminate Hop; cbn [payloadName];
    (rewrite (readValue_listBody _ _ (map json.Str names)); [|reflexivity | exact Hlits]);
    cbn [respType json.store json.structT ClustersResp.T ConsumerGroupsResp.T
         ConsumerGroupTopicsResp.T json.zero json.storeMembers];
    store_listBody;
    rewrite Hsl; eexists; (split; [reflexivity|]); cbn; now rewrite Hel.
Qed.

Lemma names_round_trip_witness :
  exists r,
    fst (runState (call burrow (OpListConsumers "local"))
           (answering (text "{'error':false,'consumers':['g1','g 2']}")))
    = (Some r, None)
    /\ namesOf (OpListConsumers "local") r = Some ["g1"; "g 2"].
Proof.
  apply (names_round_trip burrow (OpListConsumers "local")
           (answering (text "{'error':false,'consumers':['g1','g 2']}"))
           localhost 200%Z ["g1"; "g 2"]);
    [reflexivity | reflexivity | repeat constructor | reflexivity].
Defined.

(** *** Numbers *)

Lemma string_of_uint_digits d :
  strings.all is_digit (DecimalString.NilEmpty.string_of_uint d) = true.
Proof. induction d; cbn; auto. Qed.

Lemma nzhead_not_D0 d d' : Decimal.nzhead d <> Decimal.D0 d'.
Proof. induction d; cbn; try discriminate. exact IHd. Qed.

(** The decimal writing of a positive number starts with a digit other
    than [0]. *)
Lemma to_uint_head p :
  exists c ds,
    DecimalString.NilEmpty.string_of_uint (Pos.to_uint p) = String c ds
    /\ between 49 57 c = true /\ strings.all is_digit ds = true.
Proof.
  assert (Hnorm : Decimal.unorm (Pos.to_uint p) = Pos.to_uint p).
  { rewrite <- DecimalPos.Unsigned.to_of, DecimalPos.Unsigned.of_to. reflexivity. }
  pose proof (DecimalPos.Unsigned.to_uint_nonzero p) as Hnz.
  pose proof (DecimalPos.Unsigned.to_uint_nonnil p) as Hnn.
  destruct (Pos.to_uint p) as [|l|l|l|l|l|l|l|l|l|l]; [congruence| |..];
    try (eexists _, _; split; [reflexivity|]; split;
         [reflexivity | apply string_of_uint_digits]).
  exfalso. rewrite DecimalFacts.unorm_D0 in Hnorm. unfold Decimal.unorm in Hnorm.
  destruct (Decimal.nzhead l) eqn:E; try discriminate Hnorm.
  - injection Hnorm as <-. now apply Hnz.
  - rewrite <- E in Hnorm. now apply nzhead_not_D0 in Hnorm.
Qed.

Lemma digitsValue_uint d a :
  json.digitsValue (DecimalString.NilEmpty.string_of_uint d) (Z.of_N a)
  = Some (Z.of_N match a with
                 | N0 => Pos.of_uint d
                 | N.pos p => N.pos (Pos.of_uint_acc d p)
                 end).
Proof.
  revert a.
  induction d as [|d IH|d IH|d IH|d IH|d IH|d IH|d IH|d IH|d IH|d IH]; intros a;
    cbn [DecimalString.NilEmpty.string_of_uint json.digitsValue];
    [destruct a; reflexivity|..];
    match goal with
    | |- context [is_digit ?c] =>
        replace (is_digit c) with true by reflexivity;
        let k := eval vm_compute in (code c - 48)%N in
        replace (Z.of_N a * 10 + Z.of_N (code c - 48))%Z with (Z.of_N (a * 10 + k))
          by (change (code c - 48)%N with k; lia)
    end;
    rewrite IH; destruct a as [|p]; cbn [N.mul N.add Pos.of_uint]; try reflexivity;
    cbn [Pos.of_uint_acc]; do 4 f_equal; lia.
Qed.

Lemma digitsValue_pos p :
  json.digitsValue (DecimalString.NilEmpty.string_of_uint (Pos.to_uint p)) 0 = Some (Z.pos p).
Proof.
  pose proof (digitsValue_uint (Pos.to_uint p) 0) as H.
  rewrite DecimalPos.Unsigned.of_to in H. exact H.
Qed.

Lemma decimal_pos p :
  decimal (Z.pos p) = DecimalString.NilEmpty.string_of_uint (Pos.to_uint p)
  /\ decimal (Z.neg p)
     = String "-" (DecimalString.NilEmpty.string_of_uint (Pos.to_uint p)).
Proof.
  unfold decimal. cbn [Z.to_int DecimalString.NilZero.string_of_int].
  pose proof (DecimalPos.Unsigned.to_uint_nonnil p).
  destruct (Pos.to_uint p); [congruence|..]; split; reflexivity.
Qed.

Lemma nonzero_digit_facts c :
  between 49 57 c = true ->
  is_digit c = true /\ Ascii.eqb c "-" = false /\ Ascii.eqb c "+" = false
  /\ Ascii.eqb c "0" = false
  /\ forall s, json.stepBeginValue s c = json.begin s json.state1 c.
Proof. by_bytes c; intros _; repeat split; reflexivity. Qed.

(** [strconv.ParseInt] on the decimal writing of a number. *)
Lemma ParseInt_decimal_range z bitSize :
  json.ParseInt (decimal z) bitSize = if inRange bitSize z then Some z else None.
Proof.
  unfold inRange.
  destruct z as [|p|p]; [reflexivity|..];
    destruct (decimal_pos p) as [Hp Hn];
    destruct (to_uint_head p) as (c & ds & Hs & Hc & Hds);
    pose proof (digitsValue_pos p) as Hv;
    apply nonzero_digit_facts in Hc as (_ & H1 & H2 & _).
  - rewrite Hp. unfold json.ParseInt. rewrite Hs in Hv |- *. rewrite H1, H2, Hv.
    reflexivity.
  - rewrite Hn. unfold json.ParseInt. cbn [Ascii.eqb Bool.eqb].
    rewrite Hs in Hv |- *. rewrite Hv. reflexivity.
Qed.

Lemma ParseInt_decimal z :
  json.ParseInt (decimal z) 64 = if inInt64 z then Some z else None.
Proof. apply ParseInt_decimal_range. Qed.

Lemma scans_digits ds frames acc t :
  strings.all is_digit ds = true ->
  scans {| json.step := json.state1; json.parseState := frames;
           json.literal := acc; json.top := t |} ds
  = Some {| json.step := json.state1; json.parseState := frames;
            json.literal := json.rev_string ds acc; json.top := t |}.
Proof.
  revert acc. induction ds as [|c ds IH]; intros acc; cbn [strings.all scans];
    [reflexivity|].
  intros [Hc Hds]%andb_prop. cbn [json.scan json.step]. rewrite Hc.
  unfold json.more. cbn [json.parseState json.literal json.top json.rev_string].
  now apply IH.
Qed.

(** The scanner at the end of a number that stands where an element of
    an array may begin. *)
Lemma scans_decimal z stp es st :
  begins stp ->
  exists stN,
    (stN = json.state0 \/ stN = json.state1)
    /\ scans (inArray stp es st) (decimal z)
       = Some {| json.step := stN; json.parseState := json.parseArrayValue es :: st;
                 json.literal := json.rev_string (decimal z) ""; json.top := None |}.
Proof.
  intros Hs.
  destruct z as [|p|p].
  - exists json.state0. split; [now left|]. destruct Hs as [-> | ->]; reflexivity.
  - exists json.state1. split; [now right|].
    destruct (decimal_pos p) as [-> _].
    destruct (to_uint_head p) as (c & ds & -> & Hc & Hds).
    cbn [scans].
    replace (json.scan (inArray stp es st) c)
      with (json.begin (inArray stp es st) json.state1 c).
    + unfold json.begin, inArray. cbn [json.parseState json.top].
      rewrite (scans_digits ds _ _ None Hds). reflexivity.
    + destruct (nonzero_digit_facts c Hc) as (Hd & _ & _ & _ & Hb). clear Hc.
      destruct Hs as [-> | ->]; unfold json.scan, inArray; cbn [json.step];
        [now rewrite Hb|].
      rewrite Hb. revert Hd. by_bytes c.
  - exists json.state1. split; [now right|].
    destruct (decimal_pos p) as [_ ->].
    destruct (to_uint_head p) as (c & ds & -> & Hc & Hds).
    cbn [scans].
    replace (json.scan (inArray stp es st) "-")
      with (json.begin (inArray stp es st) json.stateNeg "-")
      by (destruct Hs as [-> | ->]; reflexivity).
    unfold json.begin, inArray. cbn [json.parseState json.top json.scan json.step].
    destruct (nonzero_digit_facts c Hc) as (_ & _ & _ & H0 & _).
    rewrite H0, Hc. unfold json.more. cbn [json.parseState json.literal json.top].
    rewrite (scans_digits ds _ _ None Hds). reflexivity.
Qed.

Lemma decimal_readsAs z : readsAs (decimal z) (json.Number (decimal z)).
Proof.
  intros stp es st Hs.
  destruct (scans_decimal z stp es st Hs) as (stN & HstN & Hscan).
  split.
  - rewrite scans_app, Hscan. cbn [scans].
    destruct HstN as [-> | ->]; cbn; now rewrite rev_string_involutive.
  - eexists. split; [exact Hscan|].
    destruct HstN as [-> | ->]; cbn; now rewrite rev_string_involutive.
Qed.

(** Storing an array of numbers into a nil slice of [int64]: the first
    one out of range is the one reported, and all in range are stored. *)
Lemma storeElems_decimals zs :
  snd (json.storeElems (json.intT "int64" 64) (map json.Number (map decimal zs)) [])
  = match find (fun z => negb (inInt64 z)) zs with
    | Some z => Some (json.UnmarshalTypeError ("number " ++ decimal z) "int64")
    | None => None
    end
  /\ (forallb inInt64 zs = true ->
      fst (json.storeElems (json.intT "int64" 64) (map json.Number (map decimal zs)) [])
      = zs).
Proof.
  induction zs as [|z zs [IH1 IH2]]; [split; reflexivity|].
  cbn [map json.storeElems json.store json.intT json.zero find forallb].
  rewrite ParseInt_decimal.
  destruct (json.storeElems (json.intT "int64" 64) (map json.Number (map decimal zs)) [])
    as [rest e2].
  cbn [fst snd] in IH1, IH2.
  destruct (inInt64 z); cbn [negb andb fst snd json.saveError].
  - split; [exact IH1|]. intros H. now rewrite (IH2 H).
  - split; [reflexivity | discriminate].
Qed.

Lemma find_none_forallb zs :
  find (fun z => negb (inInt64 z)) zs = None -> forallb inInt64 zs = true.
Proof.
  induction zs as [|z zs IH]; [reflexivity|]. cbn [find forallb].
  destruct (inInt64 z); [exact IH | discriminate].
Qed.

Lemma store_offsets zs :
  exists sl,
    json.store (json.sliceT (json.intT "int64" 64))
      (json.Array (map json.Number (map decimal zs))) json.nil_slice
    = (sl, match find (fun z => negb (inInt64 z)) zs with
           | Some z => Some (json.UnmarshalTypeError ("number " ++ decimal z) "int64")
           | None => None
           end)
    /\ (find (fun z => negb (inInt64 z)) zs = None -> json.elems sl = zs).
Proof.
  destruct zs as [|z zs].
  - eexists. split; reflexivity.
  - destruct (storeElems_decimals (z :: zs)) as [H1 H2].
    cbn [json.store json.sliceT]. cbn [json.backing json.nil_slice].
    change (json.Number (decimal z) :: map json.Number (map decimal zs))
      with (map json.Number (map decimal (z :: zs))).
    destruct (json.storeElems (json.intT "int64" 64)
                (map json.Number (map decimal (z :: zs))) []) as [arr e].
    cbn [fst snd] in H1, H2. subst e.
    eexists. split; [reflexivity|]. intros Hf.
    unfold json.elems. cbn [json.len json.backing].
    rewrite (H2 (find_none_forallb _ Hf)), !length_map. apply firstn_all.
Qed.

Lemma decimals_readAs zs :
  Forall2 readsAs (map decimal zs) (map json.Number (map decimal zs)).
Proof. induction zs; constructor; [apply decimal_readsAs | assumption]. Qed.

(** X14.  The operations that return offsets give back the numbers the
    body lists, in the order of the body, when every one of them is
    within the range of [int64]; otherwise they fail with the decoder's
    error for the first number that is not, although the flag of the
    body is down. *)
Theorem offsets_round_trip bc op w u status zs :
  url.Parse (BurrowClient.baseUrl bc) = inl u ->
  offsetsOp op = true ->
  remote w (builtUrl u (endpointOf op))
  = inr (status, listBody "offsets" (map decimal zs)) ->
  match find (fun z => negb (inInt64 z)) zs with
  | None =>
      exists r,
        fst (runState (call bc op) w) = (Some r, None) /\ offsetsOf op r = Some zs
  | Some z =>
      fst (runState (call bc op) w)
      = (None, Some (json_Error
                       (json.UnmarshalTypeError ("number " ++ decimal z) "int64")))
  end.
Proof.
  intros Hu Hop Hr.
  rewrite run_call. unfold roundTrip. rewrite Hu. cbv zeta. rewrite Hr.
  unfold json.Decode.
  destruct (store_offsets zs) as (sl & Hsl & Hel).
  rewrite (readValue_listBody "offsets" _ _ eq_refl (decimals_readAs zs)).
  destruct op; try discriminate Hop;
    cbn [respType json.store json.structT ConsumerGroupTopicDetailsResp.T
         ClusterTopicDetailsResp.T json.zero json.storeMembers];
    store_listBody; rewrite Hsl;
    (destruct (find (fun z => negb (inInt64 z)) zs) as [z|];
     [reflexivity
     | eexists; (split; [reflexivity|]); cbn; now rewrite (Hel eq_refl)]).
Qed.

Lemma offsets_round_trip_witness :
  (exists r,
      fst (runState (call burrow (OpClusterTopicDetails "local" "t1"))
             (answering (text "{'error':false,'offsets':[0,-7,9223372036854775807]}")))
      = (Some r, None)
      /\ offsetsOf (OpClusterTopicDetails "local" "t1") r
         = Some [0; -7; 9223372036854775807]%Z)
  /\ fst (runState (call burrow (OpClusterTopicDetails "local" "t1"))
            (answering (text "{'error':false,'offsets':[1,9223372036854775808]}")))
     = (None, Some (json_Error
                      (json.UnmarshalTypeError "number 9223372036854775808" "int64"))).
Proof.
  split.
  - apply (offsets_round_trip burrow (OpClusterTopicDetails "local" "t1")
             (answering (text "{'error':false,'offsets':[0,-7,9223372036854775807]}"))
             localhost 200%Z [0; -7; 9223372036854775807]%Z);
      [reflexivity | reflexivity | vm_compute; reflexivity].
  - apply (offsets_round_trip burrow (OpClusterTopicDetails "local" "t1")
             (answering (text "{'error':false,'offsets':[1,9223372036854775808]}"))
             localhost 200%Z [1; 9223372036854775808]%Z);
      [reflexivity | reflexivity | vm_compute; reflexivity].
Defined.

(** ** The flag *)

(** An error that has been saved stays the one reported. *)
Lemma storeMembers_saved {S} (fields : list (json.field S)) ms s e :
  snd (json.storeMembers fields ms s (Some e)) = Some e.
Proof.
  revert s. induction ms as [|[k v] ms IH]; intros s; [reflexivity|].
  cbn [json.storeMembers]. destruct (json.findField fields k) as [f|]; [|apply IH].
  destruct (json.set f v s) as [s' e']. apply IH.
Qed.

Lemma storeMembers_unknown op ms1 ms s saved :
  Forall (fun m => known op m = false) ms1 ->
  json.storeMembers (respFields op) (ms1 ++ ms) s saved
  = json.storeMembers (respFields op) ms s saved.
Proof.
  induction 1 as [|[k v] ms1 Hk Hms1 IH]; [reflexivity|].
  cbn [app json.storeMembers]. unfold known, fieldNamed in Hk. cbn [fst] in Hk.
  destruct (json.findField (respFields op) k); [discriminate Hk | exact IH].
Qed.

(** Storing into the flag a value that is neither a boolean nor null. *)
Lemma flag_mismatch op f v s :
  In f (respFields op) -> json.name f = "error" ->
  match v with json.Bool _ | json.Null => False | _ => True end ->
  snd (json.set f v s) = Some (json.UnmarshalTypeError (json.kindOf v) "bool").
Proof.
  destruct op; cbn [respFields]; intros [<-|[<-|[<-|[]]]];
    cbn [json.name json.mkField json.set]; intros Hn Hv; try discriminate Hn;
    destruct v; try contradiction; reflexivity.
Qed.

(** X15.  The flag has to be a JSON boolean.  When the first member of
    the body's object that names a field of the response names the flag
    and holds a number, a string, an array or an object, such as the
    string [true], every typed operation fails with the decoder's type
    error for it, whatever the members after it hold. *)
Theorem flag_must_be_bool bc op w u status body ms1 k v ms2 rest :
  url.Parse (BurrowClient.baseUrl bc) = inl u ->
  remote w (builtUrl u (endpointOf op)) = inr (status, body) ->
  json.readValue body = json.ReadValue (json.Object (ms1 ++ (k, v) :: ms2)) rest ->
  Forall (fun m => known op m = false) ms1 ->
  fieldNamed op k = Some "error" ->
  match v with json.Bool _ | json.Null => False | _ => True end ->
  fst (runState (call bc op) w)
  = (None, Some (json_Error (json.UnmarshalTypeError (json.kindOf v) "bool"))).
Proof.
  intros Hu Hr Hv Hms1 Hk Hkind.
  rewrite run_call. unfold roundTrip. rewrite Hu. cbv zeta. rewrite Hr.
  unfold json.Decode. rewrite Hv, store_object, (storeMembers_unknown op ms1 _ _ _ Hms1).
  apply fieldNamed_Some in Hk as (f & Hf & Hn).
  cbn [json.storeMembers]. rewrite Hf.
  pose proof (flag_mismatch op f v (json.zero (respType op)) (findField_In _ _ _ Hf) Hn Hkind)
    as He.
  destruct (json.set f v (json.zero (respType op))) as [s' e]. cbn [snd] in He. subst e.
  cbn [json.saveError].
  pose proof (storeMembers_saved (respFields op) ms2 s'
                (json.UnmarshalTypeError (json.kindOf v) "bool")) as Hs.
  destruct (json.storeMembers (respFields op) ms2 s'
              (Some (json.UnmarshalTypeError (json.kindOf v) "bool"))) as [dest e].
  cbn [snd] in Hs. now subst e.
Qed.

Lemma flag_must_be_bool_witness :
  fst (runState (call burrow OpListClusters)
         (answering (text "{'request':{},'error':'true','message':'m','clusters':['a']}")))
  = (None, Some (json_Error (json.UnmarshalTypeError "string" "bool"))).
Proof.
  apply (flag_must_be_bool burrow OpListClusters
           (answering (text "{'request':{},'error':'true','message':'m','clusters':['a']}"))
           localhost 200%Z
           (text "{'request':{},'error':'true','message':'m','clusters':['a']}")
           [("request", json.Object [])] "error" (json.Str "true")
           [("message", json.Str "m"); ("clusters", json.Array [json.Str "a"])] "");
    [reflexivity | reflexivity | reflexivity | repeat constructor | reflexivity | exact I].
Defined.

(** ** The URL built, parsed *)

Lemma escaped_byte_decodes c :
  url.shouldEscape c url.encodePath = true ->
  url.unescape (String "%" (String (url.upperhex (code c / 16))
                              (String (url.upperhex (code c mod 16)) ""))) url.encodePath
  = inl (String c "")
  /\ pathSafe (url.upperhex (code c / 16)) = true
  /\ pathSafe (url.upperhex (code c mod 16)) = true.
Proof. by_bytes c; intros _; repeat split; reflexivity. Qed.

Lemma unescaped_byte_facts c :
  url.shouldEscape c url.encodePath = false ->
  Ascii.eqb c "%" = false /\ pathSafe c = true.
Proof. by_bytes c; intros _; split; reflexivity. Qed.

Lemma unescape_cons c s t :
  Ascii.eqb c "%" = false ->
  url.unescape s url.encodePath = inl t ->
  url.unescape (String c s) url.encodePath = inl (String c t).
Proof.
  intros Hc Hs. cbn [url.unescape]. rewrite Hc, Hs. cbn [url.host_mode andb url.bindr].
  destruct (Ascii.eqb c "+"); reflexivity.
Qed.

Lemma unescape_pct h1 h2 r c t :
  url.unescape (String "%" (String h1 (String h2 ""))) url.encodePath = inl (String c "") ->
  url.unescape r url.encodePath = inl t ->
  url.unescape (String "%" (String h1 (String h2 r))) url.encodePath = inl (String c t).
Proof.
  cbn [url.unescape]. replace (Ascii.eqb "%" "%") with true by reflexivity.
  destruct (url.ishex h1 && url.ishex h2); [|discriminate].
  cbn [url.bindr]. intros [= <-] ->. reflexivity.
Qed.

(** [unescape] undoes [escape] on a path. *)
Lemma unescape_escape s :
  url.unescape (url.escape s url.encodePath) url.encodePath = inl s.
Proof.
  induction s as [|c s IH]; [reflexivity|].
  cbn [url.escape]. destruct (url.shouldEscape c url.encodePath) eqn:E.
  - destruct (escaped_byte_decodes c E) as (H & _ & _).
    now apply unescape_pct.
  - destruct (unescaped_byte_facts c E) as (H & _).
    now apply unescape_cons.
Qed.

(** An escaped path holds none of the bytes that end a path. *)
Lemma escape_pathSafe s : strings.all pathSafe (url.escape s url.encodePath) = true.
Proof.
  induction s as [|c s IH]; [reflexivity|].
  cbn [url.escape]. destruct (url.shouldEscape c url.encodePath) eqn:E.
  - destruct (escaped_byte_decodes c E) as (_ & H1 & H2).
    cbn [strings.all]. now rewrite H1, H2, IH.
  - destruct (unescaped_byte_facts c E) as (_ & H).
    cbn [strings.all]. now rewrite H, IH.
Qed.

Lemma pathSafe_facts c :
  pathSafe c = true -> notCTL c = true /\ isnt "#" c = true /\ isnt "?" c = true.
Proof.
  unfold pathSafe. intros [[H1 H2]%andb_prop H3]%andb_prop. now repeat split.
Qed.

Section BuiltUrl.

Variables host port raw path query fragment : string.
Hypothesis Hhost : plain host = true.
Hypothesis Hport : strings.all is_digit port = true.
Hypothesis Hraw : strings.all pathSafe raw = true.
Hypothesis Hrooted : rootedOrEmpty raw = true.
Hypothesis Hunescape : url.unescape raw url.encodePath = inl path.
Hypothesis Hescape : url.escape path url.encodePath = raw.
Hypothesis Hquery : strings.all queryChar query = true.
Hypothesis Hfragment : plain fragment = true.

Let hostport : string := host ++ ":" ++ port.

Let front : string := "http://" ++ hostport ++ raw ++ withMark "?" query.

Lemma built_noCTL : url.stringContainsCTLByte front = false.
Proof.
  unfold url.stringContainsCTLByte. apply negb_false_iff.
  change (fun c : byte => negb ((code c <? 32)%N || (code c =? 127)%N)) with notCTL.
  unfold front. rewrite !all_app. unfold hostport.
  rewrite (hostport_all host port Hhost Hport notCTL),
    (withMark_query_all query Hquery notCTL); try reflexivity.
  - rewrite (all_impl _ _ _ (fun c Hc => proj1 (pathSafe_facts c Hc)) Hraw).
    reflexivity.
  - intros c Hc. apply (queryChar_facts c Hc).
  - intros c Hc. apply (unreserved_facts c Hc).
  - intros c Hc. apply (digit_facts c Hc).
Qed.

Lemma built_noHash : strings.all (isnt "#") front = true.
Proof.
  unfold front. rewrite !all_app. unfold hostport.
  rewrite (hostport_all host port Hhost Hport (isnt "#")),
    (withMark_query_all query Hquery (isnt "#")); try reflexivity.
  - rewrite (all_impl _ _ _ (fun c Hc => proj1 (proj2 (pathSafe_facts c Hc))) Hraw).
    reflexivity.
  - intros c Hc. apply (queryChar_facts c Hc).
  - intros c Hc. apply (unreserved_facts c Hc).
  - intros c Hc. apply (digit_facts c Hc).
Qed.

Lemma built_noQuestion : strings.all (isnt "?") ("//" ++ hostport ++ raw) = true.
Proof.
  rewrite !all_app. unfold hostport.
  rewrite (hostport_all host port Hhost Hport (isnt "?")); try reflexivity.
  - rewrite (all_impl _ _ _ (fun c Hc => proj2 (proj2 (pathSafe_facts c Hc))) Hraw).
    reflexivity.
  - intros c Hc. apply (unreserved_facts c Hc).
  - intros c Hc. apply (digit_facts c Hc).
Qed.

Lemma built_query_split :
  let rest := "//" ++ hostport ++ raw ++ withMark "?" query in
  (if strings.HasSuffixByte rest "?" && (strings.CountByte rest "?" =? 1)%nat
   then (url.dropLast rest, true, "")
   else let '(before, after, _) := strings.Cut rest "?" in (before, false, after))
  = ("//" ++ hostport ++ raw, false, query).
Proof.
  cbv zeta. unfold withMark.
  replace ("//" ++ hostport ++ raw ++ (if query =? "" then "" else "?" ++ query))
    with (("//" ++ hostport ++ raw) ++ (if query =? "" then "" else "?" ++ query))
    by (cbn; now rewrite <- append_assoc).
  destruct (String.eqb_spec query "") as [->|Hq].
  - rewrite append_empty.
    now rewrite (HasSuffixByte_none _ _ built_noQuestion),
      (Cut_none _ _ built_noQuestion).
  - assert (Hs : strings.HasSuffixByte (("//" ++ hostport ++ raw) ++ "?" ++ query) "?"
                 = false).
    { unfold strings.HasSuffixByte. rewrite last_app by discriminate.
      change ("?" ++ query) with (String "?" query). cbn [strings.last].
      destruct query as [|q0 qs] eqn:Eq; [congruence|]. rewrite <- Eq in *.
      destruct (strings.last query) as [a|] eqn:El; [|reflexivity].
      apply (last_all _ _ _ Hquery) in El.
      apply queryChar_facts in El. destruct El as (_ & _ & El).
      unfold isnt in El. now apply negb_true_iff in El. }
    rewrite Hs. cbn [andb].
    change ("?" ++ query) with (String "?" query).
    now rewrite (Cut_app _ _ _ built_noQuestion).
Qed.

Lemma built_setPath u :
  url.setPath u raw
  = inl {| url.Scheme := url.Scheme u; url.Opaque := url.Opaque u;
           url.User := url.User u; url.Host := url.Host u; url.Path := path;
           url.RawPath := ""; url.OmitHost := url.OmitHost u;
           url.ForceQuery := url.ForceQuery u; url.RawQuery := url.RawQuery u;
           url.Fragment := url.Fragment u; url.RawFragment := url.RawFragment u |}.
Proof.
  unfold url.setPath. rewrite Hunescape. cbn [url.bindr].
  now rewrite Hescape, String.eqb_refl.
Qed.

Lemma built_authority_split :
  (let '(authority, rest', found) := strings.Cut (hostport ++ raw) "/" in
   (authority, if found then String "/" rest' else ""))
  = (hostport, raw).
Proof.
  assert (Hh : strings.all (isnt "/") hostport = true).
  { apply (hostport_all host port Hhost Hport).
    - intros c Hc. apply (unreserved_facts c Hc).
    - intros c Hc. apply (digit_facts c Hc).
    - reflexivity. }
  destruct raw as [|c r].
  - rewrite append_empty, (Cut_none _ _ Hh). reflexivity.
  - cbn in Hrooted. apply Ascii.eqb_eq in Hrooted. subst c.
    rewrite (Cut_app _ _ _ Hh). reflexivity.
Qed.

Lemma built_parse_front :
  url.parse front
  = inl {| url.Scheme := "http"; url.Opaque := ""; url.User := None;
           url.Host := hostport; url.Path := path; url.RawPath := "";
           url.OmitHost := false; url.ForceQuery := false; url.RawQuery := query;
           url.Fragment := ""; url.RawFragment := "" |}.
Proof.
  unfold url.parse. rewrite built_noCTL.
  replace (front =? "*") with false by reflexivity.
  replace (url.getScheme front)
    with (@inl (string * string) url.parse_failure
            ("http", "//" ++ hostport ++ raw ++ withMark "?" query))
    by reflexivity.
  cbn [url.bindr].
  replace (strings.ToLower "http") with "http" by reflexivity.
  pose proof built_query_split as Hq. cbv zeta in Hq. rewrite Hq. clear Hq.
  replace (strings.HasPrefix ("//" ++ hostport ++ raw) "/") with true by reflexivity.
  replace (strings.HasPrefix ("//" ++ hostport ++ raw) "//") with true by reflexivity.
  replace (strings.drop 2 ("//" ++ hostport ++ raw)) with (hostport ++ raw)
    by reflexivity.
  cbn [negb andb orb String.eqb Ascii.eqb Bool.eqb].
  pose proof built_authority_split as Ha.
  destruct (strings.Cut (hostport ++ raw) "/") as [[authority rest'] found].
  injection Ha as -> ->.
  unfold hostport. rewrite parseAuthority_hostport by assumption.
  cbn [url.bindr]. apply built_setPath.
Qed.

(** [url.Parse] on an address written with an escaped path. *)
Lemma Parse_built :
  url.Parse ("http://" ++ hostport ++ raw ++ withMark "?" query ++ withMark "#" fragment)
  = inl {| url.Scheme := "http"; url.Opaque := ""; url.User := None;
           url.Host := hostport; url.Path := path; url.RawPath := "";
           url.OmitHost := false; url.ForceQuery := false; url.RawQuery := query;
           url.Fragment := fragment; url.RawFragment := "" |}.
Proof.
  replace ("http://" ++ hostport ++ raw ++ withMark "?" query ++ withMark "#" fragment)
    with (front ++ withMark "#" fragment)
    by (unfold front; cbn [append]; now rewrite !append_assoc).
  unfold url.Parse, withMark.
  destruct (String.eqb_spec fragment "") as [E|E].
  - rewrite append_empty, (Cut_none _ _ built_noHash), built_parse_front.
    cbn [String.eqb]. now rewrite E.
  - change ("#" ++ fragment) with (String "#" fragment).
    rewrite (Cut_app _ _ _ built_noHash), built_parse_front.
    apply String.eqb_neq in E. rewrite E.
    now rewrite setFragment_plain by assumption.
Qed.

End BuiltUrl.

(** X16.  The URL built parses back to what it was built from: for a
    base address http://host:port/prefix, with a query and a fragment or
    without, and an endpoint that starts with a slash, whatever bytes it
    holds, [url.Parse] reads from the URL built the host, the query and the
    fragment of the base address, and as its path the join of the prefix
    and the endpoint.  No byte of an argument ends up outside the path. *)
Theorem built_url_parses_back host port prefix query fragment endpoint w :
  plain host = true ->
  strings.all is_digit port = true ->
  strings.all pathChar prefix = true ->
  rootedOrEmpty prefix = true ->
  strings.all queryChar query = true ->
  plain fragment = true ->
  strings.HasPrefix endpoint "/" = true ->
  exists built,
    runState (BurrowClient.buildUrl
                (MakeBurrowClient (baseAddress host port prefix query fragment))
                endpoint) w
    = ((built, None), w)
    /\ url.Parse built
       = inl {| url.Scheme := "http"; url.Opaque := ""; url.User := None;
                url.Host := host ++ ":" ++ port;
                url.Path := path.Join prefix endpoint; url.RawPath := "";
                url.OmitHost := false; url.ForceQuery := false;
                url.RawQuery := query; url.Fragment := fragment;
                url.RawFragment := "" |}.
Proof.
  intros Hhost Hport Hprefix Hrooted Hquery Hfragment Hendpoint.
  destruct (Join_Clean pathChar prefix endpoint Hrooted Hendpoint) as (x & Hx & _).
  destruct (Clean_rooted pathChar x) as (l & Hl & _).
  assert (Hj : path.Join prefix endpoint = String "/" (String.concat "/" l))
    by now rewrite Hx.
  eexists. split.
  - rewrite run_buildUrl. cbn [MakeBurrowClient BurrowClient.baseUrl].
    rewrite (Parse_baseAddress host port prefix query fragment); try assumption.
    unfold builtUrl, url.with_Path.
    cbn [url.Scheme url.Opaque url.User url.Host url.Path url.RawPath url.OmitHost
         url.ForceQuery url.RawQuery url.Fragment url.RawFragment].
    rewrite Hj, String_rooted; [reflexivity | assumption..].
  - rewrite Hj.
    apply (Parse_built host port (url.escape (String "/" (String.concat "/" l)) url.encodePath));
      try assumption.
    + apply escape_pathSafe.
    + reflexivity.
    + apply unescape_escape.
    + reflexivity.
Qed.

Lemma built_url_parses_back_witness :
  exists built,
    runState (BurrowClient.buildUrl (MakeBurrowClient "http://host:8000/prefix?x=1#top")
                "/v2/kafka/a?b#c d") (answering "{}")
    = ((built, None), answering "{}")
    /\ url.Parse built
       = inl {| url.Scheme := "http"; url.Opaque := ""; url.User := None;
                url.Host := "host:8000"; url.Path := "/prefix/v2/kafka/a?b#c d";
                url.RawPath := ""; url.OmitHost := false; url.ForceQuery := false;
                url.RawQuery := "x=1"; url.Fragment := "top"; url.RawFragment := "" |}.
Proof.
  exact (built_url_parses_back "host" "8000" "/prefix" "x=1" "top" "/v2/kafka/a?b#c d"
           (answering "{}") eq_refl eq_refl eq_refl eq_refl eq_refl eq_refl eq_refl).
Defined.

(** ** Payloads *)

Lemma store_num name bitSize z old :
  inRange bitSize z = true ->
  json.store (json.intT name bitSize) (num z) old = (z, None).
Proof.
  intros H. unfold num. cbn [json.store json.intT].
  now rewrite ParseInt_decimal_range, H.
Qed.

Ltac find_fields :=
  unfold json.findField;
  cbn [find json.name json.mkField String.eqb Ascii.eqb Bool.eqb app].

(** One member stored without an error. *)
Lemma storeMembers_cons {S} (fields : list (json.field S)) k v ms s f s' :
  json.findField fields k = Some f ->
  json.set f v s = (s', None) ->
  json.storeMembers fields ((k, v) :: ms) s None = json.storeMembers fields ms s' None.
Proof. intros Hf Hs. cbn [json.storeMembers]. now rewrite Hf, Hs. Qed.

(** Stores the next member of an object, [tac] storing its value. *)
Ltac store_member fields tac :=
  erewrite storeMembers_cons;
  [ | unfold fields; find_fields; reflexivity
    | cbn [json.set json.mkField]; tac; reflexivity ].

Lemma store_offset o old :
  offsetFits o = true -> json.store Offset.T (offsetValue o) old = (o, None).
Proof.
  unfold offsetFits. intros [[H1 H2]%andb_prop H3]%andb_prop.
  unfold offsetValue. cbn [json.store Offset.T json.structT].
  do 3 (store_member Offset.fields ltac:(rewrite store_num by assumption)).
  destruct o. reflexivity.
Qed.

Lemma store_partition p old :
  partitionFits p = true -> json.store Partition.T (partitionValue p) old = (p, None).
Proof.
  unfold partitionFits. intros [[H1 H2]%andb_prop H3]%andb_prop.
  unfold partitionValue. cbn [json.store Partition.T json.structT].
  store_member Partition.fields idtac.
  store_member Partition.fields ltac:(rewrite store_num by assumption).
  store_member Partition.fields idtac.
  do 2 (store_member Partition.fields ltac:(rewrite store_offset by assumption)).
  destruct p. reflexivity.
Qed.

(** Storing an array of partitions writes over what the backing array
    held at their places. *)
Lemma storeElems_partitions ps arr :
  forallb partitionFits ps = true ->
  json.storeElems Partition.T (map partitionValue ps) arr
  = ((ps ++ skipn (List.length ps) arr)%list, None).
Proof.
  revert arr. induction ps as [|p ps IH]; intros arr; [reflexivity|].
  cbn [forallb map json.storeElems]. intros [Hp Hps]%andb_prop.
  destruct arr as [|a arr']; rewrite (store_partition p _ Hp), (IH _ Hps);
    [destruct ps|]; reflexivity.
Qed.

Lemma store_partitions ps old :
  forallb partitionFits ps = true ->
  exists sl,
    json.store (json.sliceT Partition.T) (json.Array (map partitionValue ps)) old
    = (sl, None)
    /\ json.elems sl = ps.
Proof.
  intros H. destruct ps as [|p ps].
  - eexists. split; reflexivity.
  - cbn [map json.store json.sliceT].
    change (partitionValue p :: map partitionValue ps) with (map partitionValue (p :: ps)).
    rewrite (storeElems_partitions _ _ H). eexists. split; [reflexivity|].
    unfold json.elems. cbn [json.len json.backing]. rewrite length_map.
    rewrite firstn_app, Nat.sub_diag, firstn_all. cbn [firstn]. apply app_nil_r.
Qed.

(** Storing the value of a status gives the status back, up to how its
    list of partitions is held. *)
Lemma store_status s old :
  statusFits s = true ->
  exists s',
    json.store ConsumerGroupStatus.T (statusValue s) old = (s', None)
    /\ ConsumerGroupStatus.Cluster s' = ConsumerGroupStatus.Cluster s
    /\ ConsumerGroupStatus.Group s' = ConsumerGroupStatus.Group s
    /\ ConsumerGroupStatus.Status s' = ConsumerGroupStatus.Status s
    /\ ConsumerGroupStatus.Complete s' = ConsumerGroupStatus.Complete s
    /\ ConsumerGroupStatus.MaxLag s' = ConsumerGroupStatus.MaxLag s
    /\ json.elems (ConsumerGroupStatus.Partitions s')
       = json.elems (ConsumerGroupStatus.Partitions s)
    /\ ConsumerGroupStatus.TotalLag s' = ConsumerGroupStatus.TotalLag s.
Proof.
  unfold statusFits. intros [[H1 H2]%andb_prop H3]%andb_prop.
  destruct (store_partitions _ (ConsumerGroupStatus.Partitions old) H2) as (sl & Hsl & Hel).
  unfold statusValue. cbn [json.store ConsumerGroupStatus.T json.structT].
  do 4 (store_member ConsumerGroupStatus.fields idtac).
  store_member ConsumerGroupStatus.fields ltac:(rewrite store_partition by assumption).
  store_member ConsumerGroupStatus.fields
    ltac:(cbn [ConsumerGroupStatus.Partitions]; rewrite Hsl).
  store_member ConsumerGroupStatus.fields ltac:(rewrite store_num by assumption).
  eexists. split; [reflexivity|]. cbn. now repeat split.
Qed.

(** X17.  The status operations decode the whole status: from a body
    whose object holds the flag down, a message and, under [status], a
    status written with the keys of Burrow (cluster, group, status,
    complete, maxlag, partitions, total_lag; topic, partition, status,
    start, end; offset, timestamp, lag), [ConsumerGroupStatus] and
    [ConsumerGroupLag] return a response that holds every field of that
    status, the partitions in order, provided the partition numbers are
    within [int32] and the other numbers within [int64]. *)
Theorem status_round_trip bc op w u status body m s rest :
  url.Parse (BurrowClient.baseUrl bc) = inl u ->
  statusOp op = true ->
  remote w (builtUrl u (endpointOf op)) = inr (status, body) ->
  json.readValue body
  = json.ReadValue (json.Object [("error", json.Bool false); ("message", json.Str m);
                                 ("status", statusValue s)]) rest ->
  statusFits s = true ->
  exists r s',
    fst (runState (call bc op) w) = (Some r, None)
    /\ BurrowResp.Message (envelope op r) = m
    /\ statusOf op r = Some s'
    /\ statusValue s' = statusValue s.
Proof.
  intros Hu Hop Hr Hv Hfits.
  rewrite run_call. unfold roundTrip. rewrite Hu. cbv zeta. rewrite Hr.
  unfold json.Decode. rewrite Hv.
  destruct (store_status s ConsumerGroupStatus.zero Hfits)
    as (s' & Hs' & E1 & E2 & E3 & E4 & E5 & E6 & E7).
  assert (Hval : statusValue s' = statusValue s)
    by (unfold statusValue; now rewrite E1, E2, E3, E4, E5, E6, E7).
  destruct op; try discriminate Hop;
    cbn [respType json.store json.structT ConsumerGroupStatusResp.T json.zero];
    do 2 (store_member ConsumerGroupStatusResp.fields idtac);
    (store_member ConsumerGroupStatusResp.fields
       ltac:(cbn [ConsumerGroupStatusResp.Status ConsumerGroupStatusResp.zero];
             rewrite Hs'));
    cbn [json.storeMembers];
    eexists _, s'; (split; [reflexivity|]); repeat split; exact Hval.
Qed.

Lemma status_round_trip_witness :
  exists r s',
    fst (runState (call burrow (OpConsumerGroupLag "local" "g1"))
           (answering (text "{'error':false,'message':'ok','status':{'cluster':'local','group':'g1','status':'OK','complete':true,'maxlag':{'topic':'t','partition':3,'status':'OK','start':{'offset':1,'timestamp':2,'lag':0},'end':{'offset':5,'timestamp':6,'lag':4}},'partitions':[{'topic':'t','partition':0,'status':'OK','start':{'offset':1,'timestamp':2,'lag':0},'end':{'offset':9,'timestamp':9,'lag':0}}],'total_lag':4}}")))
    = (Some r, None)
    /\ BurrowResp.Message (envelope (OpConsumerGroupLag "local" "g1") r) = "ok"
    /\ statusOf (OpConsumerGroupLag "local" "g1") r = Some s'
    /\ statusValue s'
       = statusValue
           {| ConsumerGroupStatus.Cluster := "local"; ConsumerGroupStatus.Group := "g1";
              ConsumerGroupStatus.Status := "OK"; ConsumerGroupStatus.Complete := true;
              ConsumerGroupStatus.MaxLag :=
                {| Partition.Topic := "t"; Partition.Partition := 3;
                   Partition.Status := "OK";
                   Partition.Start := {| Offset.Offset := 1; Offset.Timestamp := 2;
                                         Offset.Lag := 0 |};
                   Partition.End_ := {| Offset.Offset := 5; Offset.Timestamp := 6;
                                        Offset.Lag := 4 |} |};
              ConsumerGroupStatus.Partitions :=
                {| json.isNil := false;
                   json.backing :=
                     [ {| Partition.Topic := "t"; Partition.Partition := 0;
                          Partition.Status := "OK";
                          Partition.Start := {| Offset.Offset := 1; Offset.Timestamp := 2;
                                                Offset.Lag := 0 |};
                          Partition.End_ := {| Offset.Offset := 9; Offset.Timestamp := 9;
                                               Offset.Lag := 0 |} |} ];
                   json.len := 1 |};
              ConsumerGroupStatus.TotalLag := 4 |}.
Proof.
  apply (status_round_trip burrow (OpConsumerGroupLag "local" "g1") _ localhost 200%Z
           (text "{'error':false,'message':'ok','status':{'cluster':'local','group':'g1','status':'OK','complete':true,'maxlag':{'topic':'t','partition':3,'status':'OK','start':{'offset':1,'timestamp':2,'lag':0},'end':{'offset':5,'timestamp':6,'lag':4}},'partitions':[{'topic':'t','partition':0,'status':'OK','start':{'offset':1,'timestamp':2,'lag':0},'end':{'offset':9,'timestamp':9,'lag':0}}],'total_lag':4}}")
           "ok" _ "");
    [reflexivity | reflexivity | reflexivity | vm_compute; reflexivity | reflexivity].
Defined.

Lemma store_cluster c :
  clusterFits c = true ->
  exists c',
    json.store ClusterDetails.T (clusterValue c) ClusterDetails.zero = (c', None)
    /\ json.elems (ClusterDetails.Brokers c') = json.elems (ClusterDetails.Brokers c)
    /\ json.elems (ClusterDetails.Zookeepers c') = json.elems (ClusterDetails.Zookeepers c)
    /\ ClusterDetails.BrokerPort c' = ClusterDetails.BrokerPort c
    /\ ClusterDetails.ZookeeperPort c' = ClusterDetails.ZookeeperPort c
    /\ ClusterDetails.OffsetsTopic c' = ClusterDetails.OffsetsTopic c.
Proof.
  unfold clusterFits. intros [H1 H2]%andb_prop.
  destruct (store_names (json.elems (ClusterDetails.Brokers c))) as (b & Hb & Eb).
  destruct (store_names (json.elems (ClusterDetails.Zookeepers c))) as (z & Hz & Ez).
  unfold clusterValue. cbn [json.store ClusterDetails.T json.structT].
  store_member ClusterDetails.fields
    ltac:(cbn [ClusterDetails.Brokers ClusterDetails.zero]; rewrite Hb).
  store_member ClusterDetails.fields
    ltac:(cbn [ClusterDetails.Zookeepers ClusterDetails.zero]; rewrite Hz).
  do 2 (store_member ClusterDetails.fields ltac:(rewrite store_num by assumption)).
  store_member ClusterDetails.fields idtac.
  eexists. split; [reflexivity|]. cbn. now repeat split.
Qed.

(** X18.  [ClusterDetails] decodes the whole cluster: from a body whose
    object holds the flag down and, under [cluster], a cluster written
    with the keys brokers, zookeepers, broker_port, zookeeper_port and
    offsets_topic, it returns a response that holds every field of that
    cluster, the lists in order, provided the two ports are within the
    range of [int]. *)
Theorem cluster_round_trip bc name w u status body c rest :
  url.Parse (BurrowClient.baseUrl bc) = inl u ->
  remote w (builtUrl u (endpointOf (OpClusterDetails name))) = inr (status, body) ->
  json.readValue body
  = json.ReadValue (json.Object [("error", json.Bool false); ("cluster", clusterValue c)])
      rest ->
  clusterFits c = true ->
  exists r,
    fst (runState (call bc (OpClusterDetails name)) w) = (Some r, None)
    /\ clusterValue (ClusterDetailsResp.Cluster r) = clusterValue c.
Proof.
  intros Hu Hr Hv Hfits.
  rewrite run_call. unfold roundTrip. rewrite Hu. cbv zeta. rewrite Hr.
  unfold json.Decode. rewrite Hv.
  destruct (store_cluster c Hfits) as (c' & Hc' & E1 & E2 & E3 & E4 & E5).
  assert (Hval : clusterValue c' = clusterValue c)
    by (unfold clusterValue; now rewrite E1, E2, E3, E4, E5).
  cbn [respType json.store json.structT ClusterDetailsResp.T json.zero].
  store_member ClusterDetailsResp.fields idtac.
  store_member ClusterDetailsResp.fields
    ltac:(cbn [ClusterDetailsResp.Cluster ClusterDetailsResp.zero]; rewrite Hc').
  cbn [json.storeMembers]. eexists. split; [reflexivity | exact Hval].
Qed.

Lemma cluster_round_trip_witness :
  exists r,
    fst (runState (call burrow (OpClusterDetails "local"))
           (answering (text "{'error':false,'cluster':{'brokers':['b1','b2'],'zookeepers':['z1'],'broker_port':9092,'zookeeper_port':2181,'offsets_topic':'__consumer_offsets'}}")))
    = (Some r, None)
    /\ clusterValue (ClusterDetailsResp.Cluster r)
       = clusterValue
           {| ClusterDetails.Brokers :=
                {| json.isNil := false; json.backing := ["b1"; "b2"]; json.len := 2 |};
              ClusterDetails.Zookeepers :=
                {| json.isNil := false; json.backing := ["z1"]; json.len := 1 |};
              ClusterDetails.BrokerPort := 9092; ClusterDetails.ZookeeperPort := 2181;
              ClusterDetails.OffsetsTopic := "__consumer_offsets" |}.
Proof.
  apply (cluster_round_trip burrow "local" _ localhost 200%Z
           (text "{'error':false,'cluster':{'brokers':['b1','b2'],'zookeepers':['z1'],'broker_port':9092,'zookeeper_port':2181,'offsets_topic':'__consumer_offsets'}}")
           _ "");
    [reflexivity | reflexivity | vm_compute; reflexivity | reflexivity].
Defined.

(** ** Bodies cut short *)

Lemma endValue_open f st v s' :
  json.endValue (f :: st) v = Some s' -> json.parseState s' <> [].
Proof.
  unfold json.endValue.
  destruct f as [ms [k|]|ms [k|]|es]; try discriminate;
    try (destruct v; try discriminate); intros [= <-]; discriminate.
Qed.

Lemma closeValue_open st v c s' :
  json.closeValue st v c = json.scanContinue s' -> json.parseState s' <> [].
Proof.
  unfold json.closeValue. destruct st as [|f st]; [discriminate|].
  destruct (json.endValue (f :: st) v) as [s''|] eqn:E; [|discriminate].
  intros [= <-]. now apply endValue_open in E.
Qed.

Lemma stepEndValue_open s c s' :
  json.parseState s <> [] ->
  json.stepEndValue s c = json.scanContinue s' -> json.parseState s' <> [].
Proof.
  unfold json.stepEndValue. destruct (json.parseState s) as [|f st] eqn:E; [congruence|].
  intros _. destruct (json.isSpace c).
  - intros [= <-]. cbn. now rewrite E.
  - destruct f as [ms [k|]|ms [k|]|es]; try discriminate.
    + destruct (Ascii.eqb c ":"); [|discriminate]. intros [= <-]. discriminate.
    + destruct (Ascii.eqb c ","); [intros [= <-]; discriminate|].
      destruct (Ascii.eqb c "}"); [|discriminate]. apply closeValue_open.
    + destruct (Ascii.eqb c ","); [intros [= <-]; cbn; now rewrite E|].
      destruct (Ascii.eqb c "]"); [|discriminate]. apply closeValue_open.
Qed.

Lemma endScalar_open s v c s' :
  json.parseState s <> [] ->
  json.endScalar s v c = json.scanContinue s' -> json.parseState s' <> [].
Proof.
  unfold json.endScalar. destruct (json.parseState s) as [|f st] eqn:E; [congruence|].
  intros _. destruct (json.endValue (f :: st) v) as [s''|] eqn:E'; [|discriminate].
  apply stepEndValue_open. now apply endValue_open in E'.
Qed.

Ltac open_ifs :=
  repeat match goal with
    | |- context [if ?b then _ else _] => destruct b
    end.

Ltac keeps_stack :=
  match goal with
  | |- json.scanContinue _ = json.scanContinue _ -> _ =>
      let H := fresh in intros H; injection H as <-; cbn; assumption
  | |- json.scanError _ = _ -> _ => discriminate
  | |- json.fail _ _ = _ -> _ => discriminate
  | |- json.goto _ _ = _ -> _ =>
      let H := fresh in intros H; injection H as <-; cbn; assumption
  | |- json.begin _ _ _ = _ -> _ =>
      let H := fresh in intros H; injection H as <-; cbn; assumption
  | |- json.more _ _ _ = _ -> _ =>
      let H := fresh in intros H; injection H as <-; cbn; assumption
  end.

Lemma push_open s st f c s' :
  json.push s st f c = json.scanContinue s' -> json.parseState s' <> [].
Proof.
  unfold json.push. destruct (_ <=? _)%nat; [discriminate|]. intros [= <-]. discriminate.
Qed.

Lemma stepBeginValue_open s c s' :
  json.parseState s <> [] ->
  json.stepBeginValue s c = json.scanContinue s' -> json.parseState s' <> [].
Proof.
  intros Hs. unfold json.stepBeginValue.
  destruct (json.isSpace c); [keeps_stack|].
  destruct (Ascii.eqb c "{"); [apply push_open|].
  destruct (Ascii.eqb c "["); [apply push_open|].
  open_ifs; keeps_stack.
Qed.

(** While a composite is open, the scanner goes on with one still
    open. *)
Lemma scan_open s c s' :
  json.parseState s <> [] ->
  json.scan s c = json.scanContinue s' -> json.parseState s' <> [].
Proof.
  intros Hs. unfold json.scan, json.stepBeginString, json.step0, json.stepESign,
    json.endNumber.
  destruct (json.step s) eqn:Est.
  - now apply stepBeginValue_open.
  - destruct (json.isSpace c); [keeps_stack|].
    destruct (Ascii.eqb c "]"); [now apply stepEndValue_open|].
    now apply stepBeginValue_open.
  - destruct (json.isSpace c); [keeps_stack|].
    destruct (Ascii.eqb c "}").
    + destruct (json.parseState s) as [|[ms [k|]|ms k|es] st]; try discriminate.
      apply closeValue_open.
    + open_ifs; keeps_stack.
  - open_ifs; keeps_stack.
  - destruct (Ascii.eqb c dquote).
    + destruct (json.parseState s) as [|f st] eqn:E; [congruence|].
      destruct (json.endValue (f :: st) _) as [s''|] eqn:E'; [|discriminate].
      intros [= <-]. now apply endValue_open in E'.
    + open_ifs; keeps_stack.
  - open_ifs; keeps_stack.
  - open_ifs; keeps_stack.
  - open_ifs; keeps_stack.
  - destruct (is_digit c); [keeps_stack|].
    destruct (Ascii.eqb c "."); [keeps_stack|].
    destruct (Ascii.eqb c "e" || Ascii.eqb c "E"); [keeps_stack|].
    now apply endScalar_open.
  - destruct (Ascii.eqb c "."); [keeps_stack|].
    destruct (Ascii.eqb c "e" || Ascii.eqb c "E"); [keeps_stack|].
    now apply endScalar_open.
  - open_ifs; keeps_stack.
  - destruct (is_digit c); [keeps_stack|].
    destruct (Ascii.eqb c "e" || Ascii.eqb c "E"); [keeps_stack|].
    now apply endScalar_open.
  - open_ifs; keeps_stack.
  - open_ifs; keeps_stack.
  - destruct (is_digit c); [keeps_stack|]. now apply endScalar_open.
  - destruct rest as [|x rest']; [discriminate|].
    destruct (Ascii.eqb c x); [|discriminate].
    destruct rest'; [|keeps_stack].
    destruct (json.parseState s) as [|f st] eqn:E; [congruence|].
    destruct (json.endValue (f :: st) v) as [s''|] eqn:E'; [|discriminate].
    intros [= <-]. now apply endValue_open in E'.
  - now apply stepEndValue_open.
Qed.

(** While a composite is open, the end of the input does not end the
    value. *)
Lemma scan_open_blank s v consumed :
  json.parseState s <> [] -> json.scan s " " <> json.scanEnd v consumed.
Proof.
  destruct s as [stp stack lit t]. cbn [json.parseState]. intros Hs.
  destruct stack as [|f st]; [congruence|]. clear Hs.
  destruct stp as [| | | | | | | | | | | | | | |name rest v0|];
    try (cbn; try discriminate;
         destruct f as [ms [k|]|ms [k|]|es]; cbn; discriminate).
  unfold json.scan. cbn [json.step json.parseState].
  destruct rest as [|x rest']; [discriminate|].
  destruct (Ascii.eqb " " x); [|discriminate].
  destruct rest'; [|discriminate].
  destruct (json.endValue (f :: st) v0); discriminate.
Qed.

Lemma scans_open s p s' :
  json.parseState s <> [] -> scans s p = Some s' -> json.parseState s' <> [].
Proof.
  revert s. induction p as [|c p IH]; intros s Hs; cbn [scans].
  - now intros [= <-].
  - destruct (json.scan s c) as [s1| |] eqn:E; try discriminate.
    apply IH. now apply (scan_open s c).
Qed.

Lemma scans_prefix s p q s' :
  scans s (p ++ q) = Some s' -> exists s1, scans s p = Some s1.
Proof.
  rewrite scans_app. destruct (scans s p) as [s1|]; [eauto | discriminate].
Qed.

(** Reading a body that ends while the scanner wants more. *)
Lemma readFrom_short s blank p s' :
  scans s p = Some s' ->
  (forall v consumed, json.scan s' " " <> json.scanEnd v consumed) ->
  json.readFrom s blank p
  = json.ReadError (if blank && strings.all json.isSpace p
                    then json.EOF else json.ErrUnexpectedEOF).
Proof.
  revert s blank. induction p as [|c p IH]; intros s blank; cbn [scans json.readFrom strings.all].
  - intros [= ->] H. rewrite andb_true_r.
    destruct (json.scan s' " ") as [s1|v consumed|e] eqn:E; try reflexivity.
    now destruct (H v consumed).
  - destruct (json.scan s c) as [s1| |]; try discriminate.
    intros H1 H2. rewrite (IH s1 _ H1 H2). now rewrite andb_assoc.
Qed.

Lemma proper_prefix p q front c :
  p ++ q = front ++ String c "" -> q <> "" -> exists q', front = p ++ q'.
Proof.
  revert front. induction p as [|a p IH]; intros front H Hq.
  - now exists front.
  - destruct front as [|b front]; cbn [append] in H.
    + injection H as _ H. destruct p; cbn in H; [now subst q | discriminate].
    + injection H as -> H. destruct (IH front H Hq) as (q' & ->). now exists q'.
Qed.

(** A list response cut short is an unexpected end of the input. *)
Lemma readValue_cut key lits vs p q :
  strings.all literalByte key = true ->
  Forall2 readsAs lits vs ->
  listBody key lits = p ++ q -> p <> "" -> q <> "" ->
  json.readValue p = json.ReadError json.ErrUnexpectedEOF.
Proof.
  intros Hkey Hlits Hcut Hp Hq.
  destruct (scans_listBody key lits vs Hkey Hlits) as (front & s' & Hbody & Hs' & _).
  rewrite Hbody in Hcut. symmetry in Hcut.
  destruct (proper_prefix p q _ _ Hcut Hq) as (q' & Hfront).
  rewrite Hfront in Hs'. destruct (scans_prefix _ _ _ _ Hs') as (s1 & Hs1).
  destruct p as [|c p1]; [congruence|].
  cbn [append] in Hfront. injection Hfront as Hc _. subst c.
  unfold json.readValue. rewrite (readFrom_short _ true _ s1 Hs1); [reflexivity|].
  intros v consumed. apply scan_open_blank.
  cbn [scans] in Hs1.
  replace (json.scan json.reset "{")
    with (json.scanContinue {| json.step := json.stateBeginStringOrEmpty;
                               json.parseState := [json.parseObjectKey [] None];
                               json.literal := ""; json.top := None |}) in Hs1
    by reflexivity.
  eapply scans_open; [|exact Hs1]. discriminate.
Qed.

(** X19.  A list response that ends before its last byte, the
    connection having been cut anywhere after the first byte, makes every
    typed operation fail with the decoder's [io.ErrUnexpectedEOF], for the
    lists of names as for the lists of offsets. *)
Theorem truncated_list_body bc op w u status p q :
  url.Parse (BurrowClient.baseUrl bc) = inl u ->
  remote w (builtUrl u (endpointOf op)) = inr (status, p) ->
  p <> "" -> q <> "" ->
  (exists key names,
      strings.all literalByte key = true
      /\ Forall (fun n => strings.all literalByte n = true) names
      /\ listBody key (map quote names) = p ++ q)
  \/ (exists zs, listBody "offsets" (map decimal zs) = p ++ q) ->
  fst (runState (call bc op) w) = (None, Some (json_Error json.ErrUnexpectedEOF)).
Proof.
  intros Hu Hr Hp Hq Hbody.
  assert (Hread : json.readValue p = json.ReadError json.ErrUnexpectedEOF).
  { destruct Hbody as [(key & names & Hkey & Hnames & Hcut) | (zs & Hcut)].
    - apply (readValue_cut key _ _ p q Hkey (quotes_readAs names Hnames) Hcut Hp Hq).
    - apply (readValue_cut "offsets" _ _ p q eq_refl (decimals_readAs zs) Hcut Hp Hq). }
  rewrite run_call. unfold roundTrip. rewrite Hu. cbv zeta. rewrite Hr.
  unfold json.Decode. now rewrite Hread.
Qed.

Lemma truncated_list_body_witness :
  fst (runState (call burrow OpListClusters)
         (answering (text "{'error':false,'clusters':['a','b")))
  = (None, Some (json_Error json.ErrUnexpectedEOF)).
Proof.
  apply (truncated_list_body burrow OpListClusters
           (answering (text "{'error':false,'clusters':['a','b"))
           localhost 200%Z (text "{'error':false,'clusters':['a','b") (text "c']}"));
    [reflexivity | reflexivity | discriminate | discriminate|].
  left. exists "clusters", ["a"; "bc"].
  split; [reflexivity|]. split; [repeat constructor | reflexivity].
Defined.

(** ** What follows the first value *)

Lemma endValue_top stack v s' :
  scalar v \/ stack <> [] ->
  json.endValue stack v = Some s' -> scalarTop s'.
Proof.
  unfold json.endValue, scalarTop.
  destruct stack as [|[ms [k|]|ms [k|]|es] st]; intros Hv; try discriminate;
    try (destruct v; try discriminate); intros [= <-]; cbn; split; try exact I;
    destruct Hv as [Hv|Hv]; solve [exact Hv | congruence].
Qed.

Lemma closeValue_top st v c s' :
  json.closeValue st v c = json.scanContinue s' -> scalarTop s'.
Proof.
  unfold json.closeValue. destruct st as [|f st]; [discriminate|].
  destruct (json.endValue (f :: st) v) as [s''|] eqn:E; [|discriminate].
  intros [= <-]. apply (endValue_top (f :: st) v); [right; discriminate | exact E].
Qed.

(** Closes the cases in which the scanner goes on with the same top-level
    value and a state that holds no value. *)
Ltac keeps_top Hs :=
  match goal with
  | |- json.scanError _ = _ -> _ => discriminate
  | |- json.fail _ _ = _ -> _ => discriminate
  | |- _ = json.scanContinue _ -> _ =>
      let H := fresh in
      intros H; injection H as <-;
      first [exact Hs | split; cbn; first [exact I | apply Hs]]
  end.

Lemma stepEndValue_top s c s' :
  scalarTop s -> json.stepEndValue s c = json.scanContinue s' -> scalarTop s'.
Proof.
  intros Hs. unfold json.stepEndValue.
  destruct (json.parseState s) as [|f st].
  - destruct (json.top s); discriminate.
  - destruct (json.isSpace c); [keeps_top Hs|].
    destruct f as [ms [k|]|ms [k|]|es]; try discriminate.
    + destruct (Ascii.eqb c ":"); [|discriminate]. keeps_top Hs.
    + destruct (Ascii.eqb c ","); [keeps_top Hs|].
      destruct (Ascii.eqb c "}"); [|discriminate]. apply closeValue_top.
    + destruct (Ascii.eqb c ","); [keeps_top Hs|].
      destruct (Ascii.eqb c "]"); [|discriminate]. apply closeValue_top.
Qed.

Lemma endScalar_top s v c s' :
  scalar v -> json.endScalar s v c = json.scanContinue s' -> scalarTop s'.
Proof.
  intros Hv. unfold json.endScalar.
  destruct (json.endValue (json.parseState s) v) as [s''|] eqn:E; [|discriminate].
  apply stepEndValue_top. eapply endValue_top; [|exact E]. now left.
Qed.

Lemma push_top s st f c s' :
  match st with json.stateLiteral _ _ _ => False | _ => True end ->
  json.push s st f c = json.scanContinue s' -> scalarTop s'.
Proof.
  intros Hst. unfold json.push. destruct (_ <=? _)%nat; [discriminate|].
  intros [= <-]. split; cbn; [exact I|]. destruct st; try exact I; contradiction.
Qed.

Lemma stepBeginValue_top s c s' :
  scalarTop s -> json.stepBeginValue s c = json.scanContinue s' -> scalarTop s'.
Proof.
  intros Hs. unfold json.stepBeginValue.
  destruct (json.isSpace c); [keeps_top Hs|].
  destruct (Ascii.eqb c "{"); [now apply push_top|].
  destruct (Ascii.eqb c "["); [now apply push_top|].
  open_ifs; keeps_top Hs.
Qed.

(** The scanner keeps it so. *)
Lemma scan_top s c s' :
  scalarTop s -> json.scan s c = json.scanContinue s' -> scalarTop s'.
Proof.
  intros Hs. unfold json.scan, json.stepBeginString, json.step0, json.stepESign,
    json.endNumber.
  destruct (json.step s) eqn:Est.
  - now apply stepBeginValue_top.
  - destruct (json.isSpace c); [keeps_top Hs|].
    destruct (Ascii.eqb c "]"); [now apply stepEndValue_top|].
    now apply stepBeginValue_top.
  - destruct (json.isSpace c); [keeps_top Hs|].
    destruct (Ascii.eqb c "}").
    + destruct (json.parseState s) as [|[ms [k|]|ms k|es] st]; try discriminate.
      apply closeValue_top.
    + open_ifs; keeps_top Hs.
  - open_ifs; keeps_top Hs.
  - destruct (Ascii.eqb c dquote).
    + destruct (json.endValue _ _) as [s''|] eqn:E'; [|discriminate].
      intros [= <-]. apply endValue_top in E'; [exact E' | now left].
    + open_ifs; keeps_top Hs.
  - open_ifs; keeps_top Hs.
  - destruct (url.ishex c); [|discriminate]. intros [= <-].
    split; cbn; [apply Hs|]. destruct missing as [|[|k]]; exact I.
  - open_ifs; keeps_top Hs.
  - destruct (is_digit c); [keeps_top Hs|].
    destruct (Ascii.eqb c "."); [keeps_top Hs|].
    destruct (Ascii.eqb c "e" || Ascii.eqb c "E"); [keeps_top Hs|].
    now apply endScalar_top.
  - destruct (Ascii.eqb c "."); [keeps_top Hs|].
    destruct (Ascii.eqb c "e" || Ascii.eqb c "E"); [keeps_top Hs|].
    now apply endScalar_top.
  - open_ifs; keeps_top Hs.
  - destruct (is_digit c); [keeps_top Hs|].
    destruct (Ascii.eqb c "e" || Ascii.eqb c "E"); [keeps_top Hs|].
    now apply endScalar_top.
  - open_ifs; keeps_top Hs.
  - open_ifs; keeps_top Hs.
  - destruct (is_digit c); [keeps_top Hs|]. now apply endScalar_top.
  - assert (Hv : scalar v) by (destruct Hs as [_ Hs]; now rewrite Est in Hs).
    destruct rest as [|x rest']; [discriminate|].
    destruct (Ascii.eqb c x); [|discriminate].
    destruct rest'.
    + destruct (json.endValue _ v) as [s''|] eqn:E'; [|discriminate].
      intros [= <-]. eapply endValue_top; [|exact E']. now left.
    + intros [= <-]. split; cbn; [apply Hs | exact Hv].
  - now apply stepEndValue_top.
Qed.

(** At the end of the input, the value the scanner ends with, if it does,
    is not a composite. *)
Lemma scan_end_blank s v consumed :
  scalarTop s -> json.scan s " " = json.scanEnd v consumed -> scalar v.
Proof.
  destruct s as [stp stack lit t]. intros [Ht Hst]. cbn in Ht, Hst.
  destruct stp as [| | | | | | | | | | | | | | |name rest v0|];
    try (cbn; try discriminate;
         destruct stack as [|[ms [k|]|ms [k|]|es] st]; cbn; try discriminate;
         try (destruct t; [|discriminate]);
         intros [= <- _]; first [exact Ht | exact I]).
  unfold json.scan. cbn [json.step json.parseState].
  destruct rest as [|x rest']; [discriminate|].
  destruct (Ascii.eqb " " x); [|discriminate].
  destruct rest'; [|discriminate].
  destruct (json.endValue stack v0); discriminate.
Qed.

(** Once the first value is an object, what follows it in the body is
    not looked at. *)
Lemma readFrom_tail s blank body ms rest tail :
  scalarTop s ->
  json.readFrom s blank body = json.ReadValue (json.Object ms) rest ->
  json.readFrom s blank (body ++ tail) = json.ReadValue (json.Object ms) (rest ++ tail).
Proof.
  revert s blank. induction body as [|c body IH]; intros s blank Hs;
    cbn [append json.readFrom].
  - destruct (json.scan s " ") as [s1|v consumed|e] eqn:E; try discriminate.
    intros [= -> <-]. now apply (scan_end_blank s _ _ Hs) in E.
  - destruct (json.scan s c) as [s1|v consumed|e] eqn:E; try discriminate.
    + apply IH. now apply (scan_top s c).
    + intros [= -> <-]. destruct consumed; reflexivity.
Qed.

(** X20.  What follows the first value of the body is never looked at:
    when the first value is an object, the body and the body with any
    bytes put after it give the same result, whether or not the whole is
    valid JSON. *)
Theorem trailing_bytes_ignored bc op w1 w2 u st1 st2 body ms rest tail :
  url.Parse (BurrowClient.baseUrl bc) = inl u ->
  remote w1 (builtUrl u (endpointOf op)) = inr (st1, body) ->
  remote w2 (builtUrl u (endpointOf op)) = inr (st2, body ++ tail) ->
  json.readValue body = json.ReadValue (json.Object ms) rest ->
  fst (runState (call bc op) w1) = fst (runState (call bc op) w2).
Proof.
  intros Hu H1 H2 Hv.
  assert (Hd : json.Decode (respType op) (body ++ tail) (json.zero (respType op))
               = json.Decode (respType op) body (json.zero (respType op))).
  { unfold json.Decode, json.readValue.
    rewrite (readFrom_tail json.reset true body ms rest tail); [|split; exact I|exact Hv].
    unfold json.readValue in Hv. now rewrite Hv. }
  rewrite !run_call. unfold roundTrip. rewrite Hu. cbv zeta.
  rewrite H1, H2, Hd.
  destruct (json.Decode (respType op) body (json.zero (respType op))) as [d [e|]];
    [reflexivity|].
  destruct (BurrowResp.Error (envelope op d)); reflexivity.
Qed.

Lemma trailing_bytes_ignored_witness :
  fst (runState (call burrow OpListClusters)
         (answering (text "{'error':false,'clusters':['a']}")))
  = fst (runState (call burrow OpListClusters)
           (answering (text "{'error':false,'clusters':['a']}}]not json"))).
Proof.
  apply (trailing_bytes_ignored burrow OpListClusters _ _ localhost 200%Z 200%Z
           (text "{'error':false,'clusters':['a']}")
           [("error", json.Bool false); ("clusters", json.Array [json.Str "a"])] ""
           "}]not json");
    reflexivity.
Defined.

(** ** The requests of a session *)

Lemma requestsOf_HealthCheck bc w :
  requestsOf (BurrowClient.HealthCheck bc) w
  = (requests (trace w)
     ++ match url.Parse (BurrowClient.baseUrl bc) with
        | inl u => [builtUrl u "/burrow/admin"]
        | inr _ => []
        end)%list.
Proof.
  unfold requestsOf. rewrite run_HealthCheck.
  destruct (url.Parse (BurrowClient.baseUrl bc)) as [u|e].
  - cbv zeta. destruct (remote w (builtUrl u "/burrow/admin")) as [f|[status body]];
      cbn [snd after trace]; unfold requests; now rewrite flat_map_app.
  - cbn [snd after trace]. unfold requests. now rewrite flat_map_app.
Qed.

(** X21.  Over any sequence of calls on one client, each call makes
    exactly one GET, for its own URL, in the order of the calls, whatever
    the earlier calls returned: nothing is retried, skipped or answered
    from an earlier response.  With a base address that does not parse, no
    GET is made at all. *)
Theorem session_requests bc rs w :
  requestsOf (session bc rs) w
  = (requests (trace w)
     ++ match url.Parse (BurrowClient.baseUrl bc) with
        | inl u => map (target u) rs
        | inr _ => []
        end)%list.
Proof.
  revert w. induction rs as [|[|op] rs IH]; intros w.
  - unfold requestsOf. cbn.
    destruct (url.Parse (BurrowClient.baseUrl bc)); now rewrite app_nil_r.
  - pose proof (requestsOf_HealthCheck bc w) as H. unfold requestsOf in *.
    cbn [session]. rewrite run_bind.
    destruct (runState (BurrowClient.HealthCheck bc) w) as [r w']. cbn [snd] in H.
    rewrite IH, H. destruct (url.Parse (BurrowClient.baseUrl bc));
      now rewrite <- app_assoc.
  - pose proof (requestsOf_call bc op w) as H. unfold requestsOf in *.
    cbn [session]. rewrite run_bind.
    destruct (runState (call bc op) w) as [r w']. cbn [snd] in H.
    rewrite IH, H. destruct (url.Parse (BurrowClient.baseUrl bc));
      now rewrite <- app_assoc.
Qed.

(** ** Blanks before the first value *)

Lemma readFrom_leading_blanks blanks body :
  strings.all json.isSpace blanks = true ->
  json.readFrom json.reset true (blanks ++ body) = json.readFrom json.reset true body.
Proof.
  induction blanks as [|c blanks IH]; cbn [strings.all append]; [reflexivity|].
  intros [Hc Hb]%andb_prop. cbn [json.readFrom].
  replace (json.scan json.reset c) with (json.scanContinue json.reset)
    by (cbn; unfold json.stepBeginValue; now rewrite Hc).
  rewrite Hc. now apply IH.
Qed.

(** X22.  Blanks before the first value of the body are skipped: spaces,
    tabs, carriage returns and line feeds put in front of a body do not
    change what a typed operation returns. *)
Theorem leading_blanks_skipped bc op w1 w2 u st1 st2 blanks body :
  url.Parse (BurrowClient.baseUrl bc) = inl u ->
  remote w1 (builtUrl u (endpointOf op)) = inr (st1, body) ->
  remote w2 (builtUrl u (endpointOf op)) = inr (st2, blanks ++ body) ->
  strings.all json.isSpace blanks = true ->
  fst (runState (call bc op) w1) = fst (runState (call bc op) w2).
Proof.
  intros Hu H1 H2 Hb.
  assert (Hd : json.Decode (respType op) (blanks ++ body) (json.zero (respType op))
               = json.Decode (respType op) body (json.zero (respType op))).
  { unfold json.Decode, json.readValue. now rewrite readFrom_leading_blanks. }
  rewrite !run_call. unfold roundTrip. rewrite Hu. cbv zeta.
  rewrite H1, H2, Hd.
  destruct (json.Decode (respType op) body (json.zero (respType op))) as [d [e|]];
    [reflexivity|].
  destruct (BurrowResp.Error (envelope op d)); reflexivity.
Qed.

Lemma leading_blanks_skipped_witness :
  fst (runState (call burrow OpListClusters)
         (answering (text "{'error':false,'clusters':['a']}")))
  = fst (runState (call burrow OpListClusters)
           (answering (String (ascii_of_N 10) (text "  {'error':false,'clusters':['a']}")))).
Proof.
  apply (leading_blanks_skipped burrow OpListClusters _ _ localhost 200%Z 200%Z
           (String (ascii_of_N 10) "  ") (text "{'error':false,'clusters':['a']}"));
    reflexivity.
Defined.

(** * The decoder and the shapes of the responses *)

Lemma boolT_decodesAs : decodesAs json.boolT boolS.
Proof. intros v old. destruct v; cbn; split; intros H; (reflexivity || discriminate H). Qed.

Lemma stringT_decodesAs : decodesAs json.stringT stringS.
Proof. intros v old. destruct v; cbn; split; intros H; (reflexivity || discriminate H). Qed.

Lemma intT_decodesAs name bitSize : decodesAs (json.intT name bitSize) (intS bitSize).
Proof.
  intros v old. destruct v; cbn [json.store json.intT fits snd json.mismatch];
    try (split; intros H; (reflexivity || discriminate H)).
  destruct (json.ParseInt lit bitSize); cbn; split; intros H; (reflexivity || discriminate H).
Qed.

Lemma saveError_None e1 e2 : json.saveError e1 e2 = None <-> e1 = None /\ e2 = None.
Proof.
  destruct e1, e2; cbn; (split; [intros H; try discriminate H; auto | intros [H1 H2]; congruence]).
Qed.

Lemma storeElems_fits {A} (T : json.GoType A) s vs arr :
  decodesAs T s ->
  snd (json.storeElems T vs arr) = None <-> forallb (fits s) vs = true.
Proof.
  intros HT. revert arr. induction vs as [|v vs IH]; intros arr; [now split|].
  cbn [json.storeElems forallb].
  destruct arr as [|a arr'].
  - specialize (HT v (json.zero T)). specialize (IH []).
    destruct (json.store T v (json.zero T)) as [new e1].
    destruct (json.storeElems T vs []) as [rest e2]. cbn [snd] in *.
    rewrite saveError_None, andb_true_iff. tauto.
  - specialize (HT v a). specialize (IH arr').
    destruct (json.store T v a) as [new e1].
    destruct (json.storeElems T vs arr') as [rest e2]. cbn [snd] in *.
    rewrite saveError_None, andb_true_iff. tauto.
Qed.

Lemma sliceT_decodesAs {A} (T : json.GoType A) s :
  decodesAs T s -> decodesAs (json.sliceT T) (sliceS s).
Proof.
  intros HT v old.
  destruct v as [ |b|lit|s0|vs|ms]; cbn [json.store json.sliceT fits snd json.mismatch];
    try (split; intros H; (reflexivity || discriminate H)).
  destruct vs as [|v vs]; [now split|].
  pose proof (storeElems_fits T s (v :: vs) (json.backing old) HT) as H.
  destruct (json.storeElems T (v :: vs) (json.backing old)) as [arr e]. exact H.
Qed.

Lemma mkField_fieldAs {S F} nm (T : json.GoType F) (get : S -> F) put s :
  decodesAs T s -> fieldAs (json.mkField nm T get put) (nm, s).
Proof.
  intros HT. split; [reflexivity|]. intros v old.
  cbn [json.set json.mkField snd]. specialize (HT v (get old)).
  destruct (json.store T v (get old)) as [f e]. exact HT.
Qed.

Lemma find_fieldAs {S} (g : string -> bool) (fields : list (json.field S)) fs :
  Forall2 fieldAs fields fs ->
  match find (fun f => g (json.name f)) fields, find (fun p => g (fst p)) fs with
  | Some f, Some p => fieldAs f p
  | None, None => True
  | _, _ => False
  end.
Proof.
  induction 1 as [|f p fields fs Hf _ IH]; cbn [find]; [exact I|].
  destruct Hf as [Hn Hs]. rewrite Hn.
  destruct (g (fst p)); [split; assumption | exact IH].
Qed.

Lemma findField_fieldShape {S} (fields : list (json.field S)) fs key :
  Forall2 fieldAs fields fs ->
  match json.findField fields key, fieldShape fs key with
  | Some f, Some e => forall v old, snd (json.set f v old) = None <-> fits e v = true
  | None, None => True
  | _, _ => False
  end.
Proof.
  intros H. unfold json.findField, fieldShape.
  pose proof (find_fieldAs (fun n => n =? key) fields fs H) as H1.
  pose proof (find_fieldAs (fun n => json.foldName n =? json.foldName key) fields fs H) as H2.
  cbv beta in H1, H2.
  destruct (find (fun f => json.name f =? key) fields) as [f|],
           (find (fun f => fst f =? key) fs) as [p|]; try contradiction.
  - exact (proj2 H1).
  - destruct (find (fun f => json.foldName (json.name f) =? json.foldName key) fields) as [f|],
             (find (fun f => json.foldName (fst f) =? json.foldName key) fs) as [p|];
      try contradiction; cbn [option_map]; [exact (proj2 H2) | exact I].
Qed.

Lemma storeMembers_fits {S} (fields : list (json.field S)) fs ms s saved :
  Forall2 fieldAs fields fs ->
  snd (json.storeMembers fields ms s saved) = None
  <-> saved = None /\ fits (structS fs) (json.Object ms) = true.
Proof.
  intros H. cbn [fits]. revert s saved.
  induction ms as [|[k v] ms IH]; intros s saved; cbn [json.storeMembers forallb fst snd].
  - tauto.
  - pose proof (findField_fieldShape fields fs k H) as Hk.
    destruct (json.findField fields k) as [f|], (fieldShape fs k) as [e|];
      try contradiction.
    + specialize (Hk v s). destruct (json.set f v s) as [s' e']. cbn [snd] in Hk.
      rewrite IH, saveError_None, andb_true_iff. tauto.
    + rewrite IH. cbn [andb]. tauto.
Qed.

Lemma structT_decodesAs {S} nm (z : S) fields fs :
  Forall2 fieldAs fields fs -> decodesAs (json.structT nm z fields) (structS fs).
Proof.
  intros H v old.
  destruct v as [ |b|lit|s0|vs|ms];
    try (cbn; split; intros H0; (reflexivity || discriminate H0)).
  cbn [json.store json.structT]. rewrite (storeMembers_fits fields fs ms old None H).
  tauto.
Qed.

Ltac fields_as :=
  repeat first [ apply Forall2_nil
               | apply Forall2_cons; [apply mkField_fieldAs|] ].

Lemma ClusterDetails_decodesAs : decodesAs ClusterDetails.T clusterS.
Proof.
  apply structT_decodesAs. unfold ClusterDetails.fields. fields_as;
    auto using boolT_decodesAs, stringT_decodesAs, intT_decodesAs, sliceT_decodesAs.
Qed.

Lemma Offset_decodesAs : decodesAs Offset.T offsetS.
Proof.
  apply structT_decodesAs. unfold Offset.fields. fields_as;
    auto using intT_decodesAs.
Qed.

Lemma Partition_decodesAs : decodesAs Partition.T partitionS.
Proof.
  apply structT_decodesAs. unfold Partition.fields. fields_as;
    auto using stringT_decodesAs, intT_decodesAs, Offset_decodesAs.
Qed.

Lemma ConsumerGroupStatus_decodesAs : decodesAs ConsumerGroupStatus.T statusS.
Proof.
  apply structT_decodesAs. unfold ConsumerGroupStatus.fields. fields_as;
    auto using boolT_decodesAs, stringT_decodesAs, intT_decodesAs, sliceT_decodesAs,
               Partition_decodesAs.
Qed.

Lemma respType_decodesAs op : decodesAs (respType op) (shapeOf op).
Proof.
  destruct op; apply structT_decodesAs; cbn [app BurrowResp.promoted];
    unfold ClustersResp.fields, ClusterDetailsResp.fields, ConsumerGroupsResp.fields,
           ConsumerGroupTopicsResp.fields, ConsumerGroupTopicDetailsResp.fields,
           ConsumerGroupStatusResp.fields, ClusterTopicDetailsResp.fields,
           BurrowResp.promoted; cbn [app]; fields_as;
    auto using boolT_decodesAs, stringT_decodesAs, intT_decodesAs, sliceT_decodesAs,
               ClusterDetails_decodesAs, ConsumerGroupStatus_decodesAs.
Qed.

(** ** The envelope and the shape of the body *)

(** What a field of a response does to the flag and to the message. *)
Lemma field_reads op f v s :
  In f (respFields op) ->
  BurrowResp.Error (envelope op (fst (json.set f v s)))
  = (if json.name f =? "error"
     then match v with json.Bool b => b | _ => BurrowResp.Error (envelope op s) end
     else BurrowResp.Error (envelope op s))
  /\ BurrowResp.Message (envelope op (fst (json.set f v s)))
     = (if json.name f =? "message"
        then match v with json.Str m => m | _ => BurrowResp.Message (envelope op s) end
        else BurrowResp.Message (envelope op s)).
Proof.
  destruct op; cbn [respFields]; intros [<-|[<-|[<-|[]]]];
    cbn [json.name json.mkField json.set];
    try (destruct v; split; reflexivity);
    match goal with
    | |- context [json.store ?T ?v ?x] => destruct (json.store T v x); split; reflexivity
    end.
Qed.

Lemma storeMembers_envelope op ms s saved :
  BurrowResp.Error (envelope op (fst (json.storeMembers (respFields op) ms s saved)))
  = fold_left (fun flag m =>
                 if names op (fst m) "error"
                 then match snd m with json.Bool b => b | _ => flag end
                 else flag) ms (BurrowResp.Error (envelope op s))
  /\ BurrowResp.Message (envelope op (fst (json.storeMembers (respFields op) ms s saved)))
     = fold_left (fun msg m =>
                    if names op (fst m) "message"
                    then match snd m with json.Str t => t | _ => msg end
                    else msg) ms (BurrowResp.Message (envelope op s)).
Proof.
  revert s saved. induction ms as [|[k v] ms IH]; intros s saved; [split; reflexivity|].
  cbn [json.storeMembers fold_left fst snd].
  destruct (json.findField (respFields op) k) as [f|] eqn:Ef.
  - assert (N : forall nm, names op k nm = (json.name f =? nm))
      by (intros nm; unfold names, fieldNamed; rewrite Ef; reflexivity).
    rewrite !N.
    destruct (field_reads op f v s (findField_In _ _ _ Ef)) as [E M].
    destruct (json.set f v s) as [s' e]. cbn [fst] in E, M.
    rewrite <- E, <- M. apply IH.
  - assert (N : forall nm, names op k nm = false)
      by (intros nm; unfold names, fieldNamed; rewrite Ef; reflexivity).
    rewrite !N. apply IH.
Qed.

(** The envelope of what an object body is decoded into. *)
Lemma store_envelope op ms :
  BurrowResp.Error
    (envelope op (fst (json.store (respType op) (json.Object ms) (json.zero (respType op)))))
  = flagOf op ms
  /\ BurrowResp.Message
       (envelope op (fst (json.store (respType op) (json.Object ms) (json.zero (respType op)))))
     = messageOf op ms.
Proof.
  rewrite store_object.
  destruct (storeMembers_envelope op ms (json.zero (respType op)) None) as [E M].
  rewrite E, M. unfold flagOf, messageOf. destruct op; split; reflexivity.
Qed.

(** A typed operation on a body that was delivered, by what the body
    begins with. *)
Lemma call_delivered bc op w u status body :
  url.Parse (BurrowClient.baseUrl bc) = inl u ->
  remote w (builtUrl u (endpointOf op)) = inr (status, body) ->
  match json.readValue body with
  | json.ReadError e => fst (runState (call bc op) w) = (None, Some (json_Error e))
  | json.ReadValue v _ =>
      let dest := fst (json.store (respType op) v (json.zero (respType op))) in
      if fits (shapeOf op) v
      then snd (json.store (respType op) v (json.zero (respType op))) = None
           /\ fst (runState (call bc op) w)
              = (if BurrowResp.Error (envelope op dest)
                 then (None, Some (errors_New (BurrowResp.Message (envelope op dest))))
                 else (Some dest, None))
      else exists e,
          snd (json.store (respType op) v (json.zero (respType op))) = Some e
          /\ fst (runState (call bc op) w) = (None, Some (json_Error e))
  end.
Proof.
  intros Hu Hr. rewrite run_call. unfold roundTrip. rewrite Hu. cbv zeta. rewrite Hr.
  unfold json.Decode. destruct (json.readValue body) as [v rest|e]; [|reflexivity].
  pose proof (respType_decodesAs op v (json.zero (respType op))) as H.
  destruct (json.store (respType op) v (json.zero (respType op))) as [dest [e|]];
    cbn [fst snd] in *.
  - destruct (fits (shapeOf op) v).
    + destruct H as [_ H]. discriminate (H eq_refl).
    + exists e. split; reflexivity.
  - rewrite (proj1 H eq_refl). split; [reflexivity|].
    destruct (BurrowResp.Error (envelope op dest)); reflexivity.
Qed.

(** ** The decoder's verdict and the envelope *)

(** C1, as stated, fails: the body carries the flag and the message, and
    a payload of the wrong kind; what is decoded has the flag set and the
    message in place, yet the operation returns the decoder's error and
    not the message. *)
Lemma envelope_error_masked :
  let body := text "{'error': true, 'message': 'no such cluster', 'clusters': 42}" in
  let dest := fst (json.Decode ClustersResp.T body ClustersResp.zero) in
  json_Valid body = true
  /\ BurrowResp.Error (ClustersResp.BurrowResp dest) = true
  /\ BurrowResp.Message (ClustersResp.BurrowResp dest) = "no such cluster"
  /\ fst (runState (call burrow OpListClusters) (answering body))
     = (None, Some (json_Error (json.UnmarshalTypeError "number" "[]string"))).
Proof. repeat split; vm_compute; reflexivity. Qed.

(** C1, amended.  Take a body that a typed operation decodes into a
    response whose envelope has [Error] set, whether the decoding reports
    an error or not.  The first value of the body is then a JSON object,
    the last boolean it gives for the error flag is [true], and the
    message decoded is the last string it gives for the message.  When
    the object fits the shape of the operation's response, the payload
    included, the operation returns no result and the error [errors.New]
    makes from that message, unchanged.  When it does not fit, the
    operation returns no result and the decoder's error, and the message
    is not returned. *)
Theorem envelope_error_precedence bc op w u status body :
  url.Parse (BurrowClient.baseUrl bc) = inl u ->
  remote w (builtUrl u (endpointOf op)) = inr (status, body) ->
  BurrowResp.Error
    (envelope op (fst (json.Decode (respType op) body (json.zero (respType op)))))
  = true ->
  exists ms rest,
    json.readValue body = json.ReadValue (json.Object ms) rest
    /\ flagOf op ms = true
    /\ BurrowResp.Message
         (envelope op (fst (json.Decode (respType op) body (json.zero (respType op)))))
       = messageOf op ms
    /\ if fits (shapeOf op) (json.Object ms)
       then fst (runState (call bc op) w) = (None, Some (errors_New (messageOf op ms)))
       else exists e,
           snd (json.Decode (respType op) body (json.zero (respType op))) = Some e
           /\ fst (runState (call bc op) w) = (None, Some (json_Error e)).
Proof.
  intros Hu Hr Hflag.
  pose proof (call_delivered bc op w u status body Hu Hr) as H.
  unfold json.Decode in *.
  destruct (json.readValue body) as [v rest|e0];
    [|destruct op; discriminate Hflag].
  destruct v as [ |b|lit|s0|vs|ms]; try (destruct op; discriminate Hflag).
  exists ms, rest. cbv zeta in H.
  destruct (store_envelope op ms) as [E M].
  rewrite E in Hflag.
  split; [reflexivity|]. split; [exact Hflag|]. split; [exact M|].
  destruct (fits (shapeOf op) (json.Object ms)); [|exact H].
  destruct H as [_ H]. now rewrite H, E, Hflag, M.
Qed.

Lemma envelope_error_precedence_witness :
  fst (runState (call burrow (OpClusterDetails "nowhere")) (answering noSuchCluster))
  = (None, Some (errors_New "no such cluster")).
Proof.
  assert (Hflag : BurrowResp.Error
                    (envelope (OpClusterDetails "nowhere")
                       (fst (json.Decode (respType (OpClusterDetails "nowhere"))
                               noSuchCluster
                               (json.zero (respType (OpClusterDetails "nowhere"))))))
                  = true) by (vm_compute; reflexivity).
  destruct (envelope_error_precedence burrow (OpClusterDetails "nowhere")
              (answering noSuchCluster) localhost 200%Z noSuchCluster
              eq_refl eq_refl Hflag) as (ms & rest & Hv & _ & _ & H).
  vm_compute in Hv. injection Hv as <- <-. exact H.
Defined.

(** C3, as stated, fails: a body that is not valid JSON, because text
    follows its first value, is decoded without any error. *)
Lemma invalid_json_accepted :
  json_Valid (text "{'error': false, 'clusters': ['a', 'b']} trailing text") = false
  /\ exists r,
      fst (runState (call burrow OpListClusters)
             (answering (text "{'error': false, 'clusters': ['a', 'b']} trailing text")))
      = (Some r, None)
      /\ json.elems (ClustersResp.Clusters r) = ["a"; "b"].
Proof.
  split; [reflexivity|].
  eexists. split; [vm_compute; reflexivity | reflexivity].
Qed.

(** C3, amended.  For a body that was delivered and read to its end, a
    typed operation is settled by the first JSON value of the body alone.
    When the body does not begin with a well-formed value, the operation
    returns the scanner's error.  When it does and the value does not fit
    the shape of the operation's response, the operation returns the
    error of storing the value.  When the value fits, the decoding
    reports no error, and the operation returns what was decoded, or the
    envelope's error when the flag is set.  So the operation fails with an
    error of the decoder exactly when the body is not accepted, and no
    error it returns then or otherwise comes from the transport or from
    building the URL. *)
Theorem decode_error_isolation bc op w u status body :
  url.Parse (BurrowClient.baseUrl bc) = inl u ->
  remote w (builtUrl u (endpointOf op)) = inr (status, body) ->
  match json.readValue body with
  | json.ReadError e => fst (runState (call bc op) w) = (None, Some (json_Error e))
  | json.ReadValue v _ =>
      let dest := fst (json.store (respType op) v (json.zero (respType op))) in
      if fits (shapeOf op) v
      then snd (json.store (respType op) v (json.zero (respType op))) = None
           /\ fst (runState (call bc op) w)
              = (if BurrowResp.Error (envelope op dest)
                 then (None, Some (errors_New (BurrowResp.Message (envelope op dest))))
                 else (Some dest, None))
      else exists e,
          snd (json.store (respType op) v (json.zero (respType op))) = Some e
          /\ fst (runState (call bc op) w) = (None, Some (json_Error e))
  end
  /\ ((exists e, fst (runState (call bc op) w) = (None, Some (json_Error e)))
      <-> accepted op body = false)
  /\ (forall e, snd (fst (runState (call bc op) w)) = Some e ->
                kind e = DecodeError \/ kind e = RemoteLogicalError)
  /\ (accepted op body = true ->
      forall e, snd (fst (runState (call bc op) w)) = Some e ->
                kind e = RemoteLogicalError).
Proof.
  intros Hu Hr.
  pose proof (call_delivered bc op w u status body Hu Hr) as H.
  split; [exact H|]. unfold accepted.
  destruct (json.readValue body) as [v rest|e0].
  - cbv zeta in H. destruct (fits (shapeOf op) v).
    + destruct H as [_ H]. rewrite H.
      destruct (BurrowResp.Error (envelope op _)); cbn [fst snd];
        (split; [split; [intros [e [=]] | discriminate]|]);
        (split; [intros e [=]; subst e; right; reflexivity|]);
        intros _ e [=]; subst e; reflexivity.
    + destruct H as (e & _ & H). rewrite H. cbn [fst snd].
      split; [split; [reflexivity | intros _; now exists e]|].
      split; [intros e' [=]; subst e'; left; reflexivity | discriminate].
  - rewrite H. cbn [fst snd].
    split; [split; [reflexivity | intros _; now exists e0]|].
    split; [intros e' [=]; subst e'; left; reflexivity | discriminate].
Qed.

Lemma decode_error_isolation_witness :
  fst (runState (call burrow OpListClusters) (answering "<html>not found</html>"))
  = (None, Some (json_Error (json.SyntaxError "<" "looking for beginning of value")))
  /\ (exists e,
         snd (json.store ConsumerGroupTopicDetailsResp.T
                (json.Object [("offsets", json.Array [json.Number "1e2"])])
                ConsumerGroupTopicDetailsResp.zero) = Some e
         /\ fst (runState (call burrow (OpClusterTopicDetails "local" "t1"))
                   (answering (text "{'offsets': [1e2]}")))
            = (None, Some (json_Error e))).
Proof.
  split.
  - exact (proj1 (decode_error_isolation burrow OpListClusters
                    (answering "<html>not found</html>") localhost
                    200%Z "<html>not found</html>" eq_refl eq_refl)).
  - exact (proj1 (decode_error_isolation burrow (OpClusterTopicDetails "local" "t1")
                    (answering (text "{'offsets': [1e2]}")) localhost
                    200%Z (text "{'offsets': [1e2]}") eq_refl eq_refl)).
Defined.

(** C10, as stated, fails: each body is a well-formed JSON object without
    the flag, or with the flag false, in which the message or the payload
    is absent; the member that is present does not fit its field, and the
    operation returns the decoder's error. *)
Lemma absent_fields_no_success :
  json_Valid (text "{'clusters': 42}") = true
  /\ fst (runState (call burrow OpListClusters) (answering (text "{'clusters': 42}")))
     = (None, Some (json_Error (json.UnmarshalTypeError "number" "[]string")))
  /\ json_Valid (text "{'error': false, 'message': 5}") = true
  /\ fst (runState (call burrow OpListClusters)
            (answering (text "{'error': false, 'message': 5}")))
     = (None, Some (json_Error (json.UnmarshalTypeError "number" "string"))).
Proof. repeat split; vm_compute; reflexivity. Qed.

(** C10, amended.  Take a body whose first value is a well-formed JSON
    object in which the error flag, where given, is false.  When every
    member that names a field fits the field, a typed operation returns
    the decoded response and no error; its flag is false, its message is
    empty if no member names the message, and its payload is at its zero
    value (nil slice, zero struct) if no member names the payload.  When
    some member does not fit its field, the operation returns the
    decoder's error and no response.  An object whose members name
    neither the message nor the payload always fits, and the response
    returned is then the zero response; the body {} is the case with no
    member at all. *)
Theorem absent_fields_are_zero bc op w u status body ms rest :
  url.Parse (BurrowClient.baseUrl bc) = inl u ->
  remote w (builtUrl u (endpointOf op)) = inr (status, body) ->
  json.readValue body = json.ReadValue (json.Object ms) rest ->
  (forall k v, In (k, v) ms -> fieldNamed op k = Some "error" -> v = json.Bool false) ->
  (if fits (shapeOf op) (json.Object ms)
   then exists dest,
       fst (runState (call bc op) w) = (Some dest, None)
       /\ BurrowResp.Error (envelope op dest) = false
       /\ ((forall k v, In (k, v) ms -> fieldNamed op k <> Some "message") ->
           BurrowResp.Message (envelope op dest) = "")
       /\ ((forall k v, In (k, v) ms -> fieldNamed op k <> Some (payloadName op)) ->
           payload op dest = payload op (json.zero (respType op)))
   else exists e,
       snd (json.Decode (respType op) body (json.zero (respType op))) = Some e
       /\ fst (runState (call bc op) w) = (None, Some (json_Error e)))
  /\ ((forall k v, In (k, v) ms ->
                   fieldNamed op k = None \/ fieldNamed op k = Some "error") ->
      fits (shapeOf op) (json.Object ms) = true
      /\ fst (runState (call bc op) w) = (Some (json.zero (respType op)), None)).
Proof.
  intros Hu Hr Hv Hflag.
  pose proof (call_delivered bc op w u status body Hu Hr) as H.
  rewrite Hv in H. cbv zeta in H.
  destruct (json.store (respType op) (json.Object ms) (json.zero (respType op)))
    as [dest e] eqn:Hs.
  assert (Hd : json.Decode (respType op) body (json.zero (respType op)) = (dest, e))
    by (unfold json.Decode; now rewrite Hv).
  destruct (Decode_object op body ms rest dest e Hv Hd) as (He & Hm & Hp).
  specialize (He Hflag). cbn [fst snd] in H.
  assert (Hfit : fits (shapeOf op) (json.Object ms) = true ->
                 fst (runState (call bc op) w) = (Some dest, None)).
  { intros F. rewrite F in H. destruct H as [_ H]. now rewrite H, He. }
  split.
  - destruct (fits (shapeOf op) (json.Object ms)).
    + exists dest. repeat split; [now apply Hfit | exact He | exact Hm | exact Hp].
    + rewrite Hd. exact H.
  - intros Hms.
    assert (Hz : json.storeMembers (respFields op) ms (json.zero (respType op)) None
                 = (json.zero (respType op), None)).
    { apply storeMembers_flag_only. intros k v Hin.
      destruct (Hms k v Hin) as [Hn|Hn]; [now left|].
      right. split; [exact Hn|]. now apply (Hflag k v). }
    rewrite <- store_object, Hs in Hz. injection Hz as -> ->.
    assert (F : fits (shapeOf op) (json.Object ms) = true).
    { apply (respType_decodesAs op (json.Object ms) (json.zero (respType op))).
      now rewrite Hs. }
    split; [exact F | now apply Hfit].
Qed.

Lemma absent_fields_are_zero_witness :
  fst (runState (call burrow OpListClusters) (answering "{}"))
  = (Some {| ClustersResp.BurrowResp :=
               {| BurrowResp.Error := false; BurrowResp.Message := "" |};
             ClustersResp.Clusters := json.nil_slice |},
     None)
  /\ fst (runState (call burrow (OpConsumerGroupLag "local" "g1"))
            (answering (text "{'Error': false, 'request': {'host': 'b1'}}")))
     = (Some ConsumerGroupStatusResp.zero, None).
Proof.
  split.
  - refine (proj2 (proj2 (absent_fields_are_zero burrow OpListClusters (answering "{}")
                     localhost 200%Z "{}" [] "" eq_refl eq_refl eq_refl _) _));
      intros k v [].
  - refine (proj2 (proj2 (absent_fields_are_zero burrow (OpConsumerGroupLag "local" "g1")
                     (answering (text "{'Error': false, 'request': {'host': 'b1'}}"))
                     localhost 200%Z
                     (text "{'Error': false, 'request': {'host': 'b1'}}")
                     [("Error", json.Bool false);
                      ("request", json.Object [("host", json.Str "b1")])]
                     "" eq_refl eq_refl eq_refl _) _)).
    + intros k v [[= <- <-]|[[= <- <-]|[]]]; [reflexivity | discriminate].
    + intros k v [[= <- <-]|[[= <- <-]|[]]]; [right | left]; reflexivity.
Defined.

(** ** The URL built, and the base address *)

(** C4, as stated, fails: the base address has the form
    http://host:port/prefix, with an escaped slash in the prefix;
    [url.Parse] decodes the prefix and [buildUrl] writes the path anew
    from the decoded join, so that the URL returned is not the base
    address with the endpoint joined onto it: it does not begin with the
    base address, and its path has one segment more. *)
Lemma escaped_prefix_rewritten :
  let base := "http://host:8000/a%2Fb" in
  let built := fst (fst (runState (BurrowClient.buildUrl (MakeBurrowClient base)
                                     "/kafka/clusterA")
                           (answering "{}"))) in
  (exists u, url.Parse base = inl u
             /\ url.Host u = "host:8000" /\ url.Path u = "/a/b"
             /\ url.RawPath u = "/a%2Fb")
  /\ built = "http://host:8000/a/b/kafka/clusterA"
  /\ built <> "http://host:8000/a%2Fb/kafka/clusterA"
  /\ strings.HasPrefix built base = false.
Proof.
  split; [eexists; split; [vm_compute; reflexivity | repeat split]|].
  repeat split; try (vm_compute; reflexivity). vm_compute. discriminate.
Qed.

(** C4, amended.  For a base address http://host:port/prefix written
    without escapes (host and fragment with unreserved bytes, the prefix
    with those and slashes, the query with those and [=&]), with a query
    and a fragment or without, and an endpoint that starts with a slash,
    whatever bytes it holds, [buildUrl] returns the base address with its
    path replaced by [path.Join] of the path and the endpoint,
    percent-encoded; the path of the result starts with a slash, has no
    double slash, and holds no [?] and no [#], so that the query and the
    fragment of the result are those of the base address: [url.Parse]
    reads from the URL built the host, the query and the fragment of the
    base address, and as its path the join.  An endpoint written with
    unreserved bytes and slashes needs no encoding. *)
Theorem buildUrl_joins_path host port prefix query fragment endpoint w :
  plain host = true ->
  strings.all is_digit port = true ->
  strings.all pathChar prefix = true ->
  rootedOrEmpty prefix = true ->
  strings.all queryChar query = true ->
  plain fragment = true ->
  strings.HasPrefix endpoint "/" = true ->
  let joined := url.escape (path.Join prefix endpoint) url.encodePath in
  let built := "http://" ++ (host ++ ":" ++ port) ++ joined
               ++ withMark "?" query ++ withMark "#" fragment in
  runState (BurrowClient.buildUrl
              (MakeBurrowClient (baseAddress host port prefix query fragment))
              endpoint) w
  = ((built, None), w)
  /\ strings.HasPrefix joined "/" = true
  /\ noDoubleSlash joined = true
  /\ strings.all pathSafe joined = true
  /\ (strings.all pathChar endpoint = true -> joined = path.Join prefix endpoint)
  /\ url.Parse built
     = inl {| url.Scheme := "http"; url.Opaque := ""; url.User := None;
              url.Host := host ++ ":" ++ port;
              url.Path := path.Join prefix endpoint; url.RawPath := "";
              url.OmitHost := false; url.ForceQuery := false;
              url.RawQuery := query; url.Fragment := fragment;
              url.RawFragment := "" |}.
Proof.
  intros Hhost Hport Hprefix Hrooted Hquery Hfragment Hendpoint joined built.
  destruct (Join_Clean pathChar prefix endpoint Hrooted Hendpoint) as (x & Hx & Hall).
  destruct (Clean_rooted pathChar x) as (l & Hl & Hfree & Hchars).
  assert (Hj : path.Join prefix endpoint = String "/" (String.concat "/" l))
    by now rewrite Hx.
  split; [|split; [|split; [|split; [|split]]]].
  - rewrite run_buildUrl. cbn [MakeBurrowClient BurrowClient.baseUrl].
    rewrite (Parse_baseAddress host port prefix query fragment); try assumption.
    unfold builtUrl, url.with_Path.
    cbn [url.Scheme url.Opaque url.User url.Host url.Path url.RawPath url.OmitHost
         url.ForceQuery url.RawQuery url.Fragment url.RawFragment].
    subst built joined. rewrite Hj.
    rewrite String_rooted; [reflexivity | assumption..].
  - subst joined. rewrite escape_head, Hj. reflexivity.
  - subst joined. apply escape_noDoubleSlash. rewrite Hj.
    now apply noDoubleSlash_concat.
  - subst joined. apply escape_pathSafe.
  - intros He. subst joined. apply escape_unescaped. rewrite Hj.
    cbn [strings.all]. cbn [andb negb url.shouldEscape is_alnum].
    apply (all_impl pathChar); [intros c Hc; apply (pathChar_path c Hc)|].
    apply all_concat; [reflexivity|]. apply Hchars. now apply Hall.
  - subst built joined. rewrite Hj.
    apply (Parse_built host port
             (url.escape (String "/" (String.concat "/" l)) url.encodePath));
      try assumption.
    + apply escape_pathSafe.
    + reflexivity.
    + apply unescape_escape.
    + reflexivity.
Qed.

Lemma buildUrl_joins_path_witness :
  runState (BurrowClient.buildUrl
              (MakeBurrowClient "http://host:8000/prefix?x=1#top") "/kafka/a?b#c d")
    (answering "{}")
  = (("http://host:8000/prefix/kafka/a%3Fb%23c%20d?x=1#top", None), answering "{}")
  /\ url.Parse "http://host:8000/prefix/kafka/a%3Fb%23c%20d?x=1#top"
     = inl {| url.Scheme := "http"; url.Opaque := ""; url.User := None;
              url.Host := "host:8000";
              url.Path := "/prefix/kafka/a?b#c d"; url.RawPath := "";
              url.OmitHost := false; url.ForceQuery := false;
              url.RawQuery := "x=1"; url.Fragment := "top";
              url.RawFragment := "" |}.
Proof.
  pose proof (buildUrl_joins_path "host" "8000" "/prefix" "x=1" "top"
                "/kafka/a?b#c d" (answering "{}")
                eq_refl eq_refl eq_refl eq_refl eq_refl eq_refl eq_refl) as H.
  split; [exact (proj1 H) | exact (proj2 (proj2 (proj2 (proj2 (proj2 H)))))].
Defined.
